(** * DGM evolution core: a shallow embedding of the TypeScript sources

    The development follows the layout of the extension's core:
    [SelectionStrategy], [CrossoverOperator], [MutationGenerator],
    [PopulationManager], [FitnessEvaluator], [ArchiveManager] and
    [EvolutionEngine].  JavaScript numbers that carry fitness values and
    rates are exact rationals ([Q]); counters, sizes handed to [slice] and
    timestamps are integers ([Z]).  The doubles of the code round every
    sum, product and quotient, so the statements keep to what rounding
    preserves: closed bounds where a rounded value can reach the bound,
    counts bounded around floor(n x rate) where the floor of a rounded
    product decides a size at run time, an order between values but no
    equality of a computed mean with its terms.  An agent is a class
    instance or a plain object built by object spread; the latter has
    the data of an agent and none of its methods.  Everything the code obtains from its
    surroundings (Math.random, Date.now, the agents' own methods, process
    metrics, a concurrent stop request) is read from a [Host] record,
    indexed by a tick that every access advances.  The logger, the
    telemetry collector and the status bar only receive values; they are
    left out.  An [await] is a point where another call may run: such a
    call sees the engine state as it is at that point, so asynchronous
    calls are functions on the engine state. *)

From Stdlib Require Import String Ascii DecimalString DecimalPos ZArith QArith Qround Qminmax Qabs.
From Stdlib Require Import Lia Lqa Bool Arith Permutation Sorted List.
Import ListNotations.

Open Scope string_scope.
Open Scope list_scope.
Open Scope Z_scope.

(** ** JavaScript helpers *)

Module Js.

(** [Array.prototype.slice(start, end)]: negative indices count from the
    end, everything is clamped to the array. *)
Definition slice {A : Type} (start stop : Z) (l : list A) : list A :=
  let len := Z.of_nat (length l) in
  let from := if start <? 0 then Z.max (len + start) 0 else Z.min start len in
  let to := if stop <? 0 then Z.max (len + stop) 0 else Z.min stop len in
  firstn (Z.to_nat (Z.max (to - from) 0)) (skipn (Z.to_nat from) l).

(** [Math.floor(n * rate)] for an array length [n], taken of the exact
    product.  The code rounds the product to a double before it takes
    the floor, which can land on the other side of an integer
    (180 * 0.7 is 125.99999999999999); statements about sizes at run
    time therefore bound the count where the exact value matters. *)
Definition floorMul (n : nat) (rate : Q) : Z :=
  Qfloor (inject_Z (Z.of_nat n) * rate).

(** [Array.prototype.sort(cmp)] is stable; for a comparator that is an
    order this is the stable insertion sort. [cmp a b <= 0] keeps [a]
    in front of [b]. *)
Fixpoint insert {A : Type} (cmp : A -> A -> Q) (x : A) (l : list A) : list A :=
  match l with
  | [] => [x]
  | y :: ys => if Qle_bool (cmp x y) 0 then x :: y :: ys
               else y :: insert cmp x ys
  end.

Fixpoint sort {A : Type} (cmp : A -> A -> Q) (l : list A) : list A :=
  match l with
  | [] => []
  | x :: xs => insert cmp x (sort cmp xs)
  end.

(** The error values the modelled code throws or meets. *)
Inductive Error : Type :=
| Err (message : string)          (* new Error(message) *)
| TypeError (message : string).   (* raised by the runtime *)

Inductive Outcome (A : Type) : Type :=
| Return (a : A)
| Throw (e : Error).
Arguments Return {A} a.
Arguments Throw {A} e.

(** [Array.prototype.reduce(f)] without an initial value. *)
Definition reduce1 {A : Type} (f : A -> A -> A) (l : list A) : Outcome A :=
  match l with
  | [] => Throw (TypeError "Reduce of empty array with no initial value")
  | x :: xs => Return (fold_left f xs x)
  end.

(** [Array.prototype.reduce(f, init)]. *)
Definition reduce {A B : Type} (f : B -> A -> B) (init : B) (l : list A) : B :=
  fold_left f l init.

(** [Math.max(...xs)] and [Math.min(...xs)] on a non-empty array; the
    callers guard the empty case. *)
Definition maxOf (xs : list Q) : Q :=
  match xs with
  | [] => 0%Q
  | x :: r => fold_left Qmax r x
  end.

Definition minOf (xs : list Q) : Q :=
  match xs with
  | [] => 0%Q
  | x :: r => fold_left Qmin r x
  end.

(** [Array.prototype.map((x, index) => ...)]; [index] is the position of
    the first element. *)
Fixpoint mapIndexed {A B : Type} (f : A -> Z -> B) (index : Z) (l : list A)
  : list B :=
  match l with
  | [] => []
  | x :: xs => f x index :: mapIndexed f (index + 1) xs
  end.

End Js.
Export Js.

(** ** Effects

    [Gen] is code that only reads the host (it cannot throw); [Eff] is code
    that may throw, over a state [S]. *)

Definition Gen (A : Type) : Type := nat -> A * nat.

Definition gret {A : Type} (a : A) : Gen A := fun t => (a, t).

Definition gbind {A B : Type} (m : Gen A) (k : A -> Gen B) : Gen B :=
  fun t => let (a, t') := m t in k a t'.

Definition Eff (S A : Type) : Type := S -> Outcome A * S.

Definition ret {S A : Type} (a : A) : Eff S A := fun s => (Return a, s).

Definition throw {S A : Type} (e : Error) : Eff S A := fun s => (Throw e, s).

Definition bind {S A B : Type} (m : Eff S A) (k : A -> Eff S B) : Eff S B :=
  fun s => match m s with
           | (Return a, s') => k a s'
           | (Throw e, s') => (Throw e, s')
           end.

(** [try { body } catch (e) { handler e }] *)
Definition tryCatch {S A : Type} (body : Eff S A) (handler : Error -> Eff S A)
  : Eff S A :=
  fun s => match body s with
           | (Return a, s') => (Return a, s')
           | (Throw e, s') => handler e s'
           end.

(** [try { body } finally { fin }] for a [fin] that cannot throw. *)
Definition tryFinally {S A : Type} (body : Eff S A) (fin : S -> S) : Eff S A :=
  fun s => let (r, s') := body s in (r, fin s').

Definition liftGen {A : Type} (g : Gen A) : Eff nat A :=
  fun t => let (a, t') := g t in (Return a, t').

Declare Scope eff_scope.
Delimit Scope eff_scope with eff.
Notation "x <- m ;; k" := (bind m (fun x => k))
  (at level 100, m at next level, right associativity) : eff_scope.
Notation "m ;;; k" := (bind m (fun _ => k))
  (at level 100, right associativity) : eff_scope.

Declare Scope gen_scope.
Delimit Scope gen_scope with gen.
Notation "x <~ m ;; k" := (gbind m (fun x => k))
  (at level 100, m at next level, right associativity) : gen_scope.

(** Monadic loops over arrays. *)
Fixpoint gmapM {A B : Type} (f : A -> Gen B) (l : list A) : Gen (list B) :=
  match l with
  | [] => gret []
  | x :: xs => (y <~ f x ;; ys <~ gmapM f xs ;; gret (y :: ys))%gen
  end.

Fixpoint mapM {S A B : Type} (f : A -> Eff S B) (l : list A) : Eff S (list B) :=
  match l with
  | [] => ret []
  | x :: xs => (y <- f x ;; ys <- mapM f xs ;; ret (y :: ys))%eff
  end.

(** [for (let i = 0; i < count; i++) body] collecting one result per round. *)
Fixpoint grepeat {A : Type} (count : nat) (body : Gen A) : Gen (list A) :=
  match count with
  | O => gret []
  | S n => (x <~ body ;; xs <~ grepeat n body ;; gret (x :: xs))%gen
  end.

(** ** Data model (shared/types) *)

Inductive AgentType : Type :=
| Requirements | Architecture | CodeGeneration | Testing | Deployment.

(** [Object.values(AgentType)] *)
Definition agentTypes : list AgentType :=
  [Requirements; Architecture; CodeGeneration; Testing; Deployment].

Definition agentTypeName (t : AgentType) : string :=
  match t with
  | Requirements => "requirements"
  | Architecture => "architecture"
  | CodeGeneration => "code-generation"
  | Testing => "testing"
  | Deployment => "deployment"
  end.

Definition AgentType_eqb (a b : AgentType) : bool :=
  String.eqb (agentTypeName a) (agentTypeName b).

Record AgentCapability : Type := {
  cap_name : string;
  cap_description : string;
  cap_requiredPermissions : list string;
  cap_version : string
}.

Record FitnessComponents : Type := {
  codeQuality : Q;
  performance : Q;
  reliability : Q;
  userSatisfaction : Q;
  resourceEfficiency : Q
}.

Record FitnessScore : Type := {
  overall : Q;
  components : FitnessComponents;
  fitness_timestamp : Z
}.

Record AgentState : Type := {
  isActive : bool;
  isEvolving : bool;
  executionCount : Z;
  errorCount : Z;
  state_fitness : FitnessScore
}.

Record AgentMetadata : Type := {
  createdAt : Z;
  updatedAt : Z;
  parentId : option string;
  meta_generation : Z;
  mutationHistory : list string;
  meta_tags : list string
}.

(** The data half of [IAgent].  [hasMethods] tells whether the object is
    a class instance, which finds [execute] and [serialize] on its
    prototype, or a plain object built by spread from one, which has the
    data fields only.  The bodies of the methods are answered by the
    host. *)
Record IAgent : Type := {
  agent_id : string;
  agent_type : AgentType;
  agent_version : string;
  capabilities : list AgentCapability;
  agent_state : AgentState;
  metadata : AgentMetadata;
  hasMethods : bool
}.

Record PopulationAgent : Type := {
  agent : IAgent;
  fitness : FitnessScore;
  age : Z;
  isElite : bool
}.

Record PopulationStatistics : Type := {
  stat_size : Z;
  averageFitness : Q;
  bestFitness : Q;
  worstFitness : Q;
  diversity : Q;
  convergence : Q;
  mutationSuccessRate : Q
}.

Record Population : Type := {
  population_id : string;
  population_generation : Z;
  agents : list PopulationAgent;
  statistics : PopulationStatistics;
  population_timestamp : Z
}.

Inductive SelectionStrategyType : Type :=
| Tournament | RouletteWheel | Rank
| TruncationSelection | StochasticUniversalSampling.

(** The evolution section of the configuration.  [convergenceThreshold]
    is absent from the default configuration, hence optional. *)
Record EvolutionConfig : Type := {
  populationSize : Z;
  mutationRate : Q;
  crossoverRate : Q;
  elitismRate : Q;
  selectionStrategy : SelectionStrategyType;
  convergenceThreshold : option Q
}.

(** [getDefaultConfiguration().evolution] *)
Definition defaultConfiguration : EvolutionConfig := {|
  populationSize := 50;
  mutationRate := 1 # 10;
  crossoverRate := 7 # 10;
  elitismRate := 1 # 10;
  selectionStrategy := Tournament;
  convergenceThreshold := None
|}.

Inductive TaskType : Type :=
| AnalyzeRequirements | DesignArchitecture | GenerateCode | WriteTests
| Deploy | Refactor | FixBug | OptimizePerformance.

Inductive TaskPriority : Type := Critical | High | Medium | Low.

Record Task : Type := {
  task_id : string;
  task_type : TaskType;
  task_priority : TaskPriority;
  task_workspaceFolder : string;
  task_language : option string;
  task_timeout : option Z
}.

Record TaskMetrics : Type := {
  executionTime : Q;
  memoryUsed : Q;
  qualityScore : option Q
}.

Record TaskResult : Type := {
  success : bool;
  result_error : option string;
  result_metrics : option TaskMetrics
}.

Record AgentSnapshot : Type := {
  snap_id : string;
  snap_type : AgentType;
  snap_version : string;
  snap_capabilities : list AgentCapability;
  snap_generation : option Z;   (* configuration.parameters.generation *)
  snap_hash : string;
  snap_timestamp : Z
}.

Inductive MutationType : Type :=
| ParameterTuning | MethodModification | StructuralChange
| BehaviorAlteration | CapabilityAddition | OptimizationRefactor.

(** [Object.values(MutationType)] *)
Definition mutationTypes : list MutationType :=
  [ParameterTuning; MethodModification; StructuralChange;
   BehaviorAlteration; CapabilityAddition; OptimizationRefactor].

Record MutationTarget : Type := {
  target_agentId : string;
  target_agentType : AgentType;
  componentPath : string;
  targetType : string
}.

Record Mutation : Type := {
  mutation_id : string;
  mutation_type : option MutationType;
  mutation_target : MutationTarget;
  mutation_changes : list string;      (* descriptions of the code changes *)
  expectedFitnessChange : Q;
  mutation_createdAt : Z
}.

(** ** The host

    [host_execute] and [host_serialize] are the bodies of an agent's
    methods.  An agent object need not carry the methods (an object built
    by spread from a class instance does not): calling one is then a
    TypeError of the runtime, and the host is not asked. *)

Record MemoryUsage : Type := { rss : Z; external : Z; heapUsed : Z; heapTotal : Z }.
Record CpuUsage : Type := { cpu_user : Z; cpu_system : Z }.

Record Host : Type := {
  host_random : nat -> Q;                       (* Math.random() *)
  host_now : nat -> Z;                          (* Date.now() *)
  host_randomSuffix : nat -> string;            (* Math.random().toString(36).substr(2, 9) *)
  host_shuffle : nat -> list PopulationAgent -> list PopulationAgent;
                                                (* sort(() => Math.random() - 0.5) *)
  host_execute : nat -> IAgent -> Task -> Outcome TaskResult;   (* agent.execute(task) *)
  host_serialize : nat -> IAgent -> Outcome AgentSnapshot;      (* agent.serialize() *)
  host_memoryUsage : nat -> Outcome MemoryUsage;   (* process.memoryUsage() *)
  host_cpuUsage : nat -> Outcome CpuUsage;         (* process.cpuUsage() *)
  host_log2 : Q -> Q;                           (* Math.log2 *)
  host_sqrt : Q -> Q;                           (* Math.sqrt *)
  host_stopRequested : nat -> bool              (* stopEvolution() ran meanwhile *)
}.

(** What the runtime guarantees about these: Math.random is in [0, 1) and
    sorting, with whatever comparator, permutes the array. *)
Record HostOK (h : Host) : Prop := {
  random_range : forall t, (0 <= host_random h t)%Q /\ (host_random h t < 1)%Q;
  shuffle_perm : forall t l, Permutation (host_shuffle h t l) l
}.

Section HostAccess.
Variable h : Host.

Definition random : Gen Q := fun t => (host_random h t, S t).
Definition now : Gen Z := fun t => (host_now h t, S t).
Definition randomSuffix : Gen string := fun t => (host_randomSuffix h t, S t).
Definition shuffle (l : list PopulationAgent) : Gen (list PopulationAgent) :=
  fun t => (host_shuffle h t l, S t).
Definition execute (a : IAgent) (task : Task) : Eff nat TaskResult :=
  fun t => if hasMethods a then (host_execute h t a task, S t)
           else (Throw (TypeError "agent.execute is not a function"), t).
Definition serialize (a : IAgent) : Eff nat AgentSnapshot :=
  fun t => if hasMethods a then (host_serialize h t a, S t)
           else (Throw (TypeError "agent.serialize is not a function"), t).
Definition memoryUsage : Eff nat MemoryUsage := fun t => (host_memoryUsage h t, S t).
Definition cpuUsage : Eff nat CpuUsage := fun t => (host_cpuUsage h t, S t).
Definition stopRequested : Gen bool := fun t => (host_stopRequested h t, S t).
End HostAccess.

(** Rendering of an integer inside a template string. *)
Definition showZ (z : Z) : string :=
  NilZero.string_of_int (Z.to_int z).

Definition Qltb (x y : Q) : bool := negb (Qle_bool y x).

(** The comparator [(a, b) => b.fitness.overall - a.fitness.overall]. *)
Definition byFitnessDesc (a b : PopulationAgent) : Q :=
  overall (fitness b) - overall (fitness a).

(** ** core/evolution/SelectionStrategy.ts *)

Module SelectionStrategy.
Section WithHost.
Variable h : Host.

Definition selectRandomAgents (agents : list PopulationAgent) (count : Z)
  : Gen (list PopulationAgent) :=
  (shuffled <~ shuffle h agents ;;
   gret (slice 0 count shuffled))%gen.

(** The reducer of the tournament: a strictly fitter [current] replaces
    [best]. *)
Definition fitter (best current : PopulationAgent) : PopulationAgent :=
  if Qltb (overall (fitness best)) (overall (fitness current))
  then current else best.

Fixpoint tournamentRounds (rounds : nat) (agents : list PopulationAgent)
    (tournamentSize : Z) : Eff nat (list IAgent) :=
  match rounds with
  | O => ret []
  | S n =>
      (tournament <- liftGen (selectRandomAgents agents tournamentSize) ;;
       winner <- (fun t => (reduce1 fitter tournament, t)) ;;
       rest <- tournamentRounds n agents tournamentSize ;;
       ret (agent winner :: rest))%eff
  end.

Definition tournamentSelection (agents : list PopulationAgent) (count : Z)
  : Eff nat (list IAgent) :=
  let tournamentSize := Z.max 2 (floorMul (length agents) (1 # 10)) in
  tournamentRounds (Z.to_nat count) agents tournamentSize.

(** The inner loop of the wheel: walk the agents, subtracting each
    fitness, and stop at the first agent that brings the value to 0 or
    below.  [None] when the walk ends without a pick: with negative
    fitness values here, and in the code also when the rounded
    subtractions leave a residue above 0 at the last agent. *)
Fixpoint spin (agents : list PopulationAgent) (randomValue : Q) : option IAgent :=
  match agents with
  | [] => None
  | a :: rest =>
      let randomValue' := (randomValue - overall (fitness a))%Q in
      if Qle_bool randomValue' 0 then Some (agent a) else spin rest randomValue'
  end.

Fixpoint rouletteRounds (rounds : nat) (agents : list PopulationAgent)
    (totalFitness : Q) : Gen (list IAgent) :=
  match rounds with
  | O => gret []
  | S n =>
      (r <~ random h ;;
       rest <~ rouletteRounds n agents totalFitness ;;
       gret (match spin agents (r * totalFitness)%Q with
             | Some a => a :: rest
             | None => rest
             end))%gen
  end.

Definition totalFitnessOf (agents : list PopulationAgent) : Q :=
  reduce (fun sum a => (sum + overall (fitness a))%Q) 0%Q agents.

Definition rouletteWheelSelection (agents : list PopulationAgent) (count : Z)
  : Gen (list IAgent) :=
  rouletteRounds (Z.to_nat count) agents (totalFitnessOf agents).

Definition rankSelection (agents : list PopulationAgent) (count : Z)
  : list IAgent :=
  let sortedAgents := sort byFitnessDesc agents in
  map agent (slice 0 count sortedAgents).

Definition select (config : EvolutionConfig) (agents : list PopulationAgent)
    (count : Z) : Eff nat (list IAgent) :=
  match selectionStrategy config with
  | Tournament => tournamentSelection agents count
  | RouletteWheel => liftGen (rouletteWheelSelection agents count)
  | Rank => ret (rankSelection agents count)
  | _ => tournamentSelection agents count
  end.

End WithHost.
End SelectionStrategy.

(** ** core/evolution/CrossoverOperator.ts *)

Module CrossoverOperator.
Section WithHost.
Variable h : Host.

Definition generateChildId : Gen string :=
  (time <~ now h ;;
   suffix <~ randomSuffix h ;;
   gret ("child_" ++ showZ time ++ "_" ++ suffix)%string)%gen.

(** The child is an object literal: the spread copies the parent's own
    fields and none of the methods of its class. *)
Definition createChild (primaryParent secondaryParent : IAgent)
    (primaryWeight secondaryWeight : Q) : Gen IAgent :=
  (id <~ generateChildId ;;
   gret {| agent_id := id;
           agent_type := agent_type primaryParent;
           agent_version := "1.0.0";
           capabilities :=
             capabilities primaryParent
               ++ slice 0 1 (capabilities secondaryParent);
           agent_state := agent_state primaryParent;
           metadata :=
             {| createdAt := createdAt (metadata primaryParent);
                updatedAt := updatedAt (metadata primaryParent);
                parentId := Some (agent_id primaryParent);
                meta_generation :=
                  Z.max (meta_generation (metadata primaryParent))
                        (meta_generation (metadata secondaryParent)) + 1;
                mutationHistory := [];
                meta_tags := ["crossover"] |};
           hasMethods := false |})%gen.

Definition crossover (parent1 parent2 : IAgent) : Gen (list IAgent) :=
  (child1 <~ createChild parent1 parent2 (7 # 10) (3 # 10) ;;
   child2 <~ createChild parent2 parent1 (7 # 10) (3 # 10) ;;
   gret [child1; child2])%gen.

End WithHost.
End CrossoverOperator.

(** ** MutationGenerator (same source file as SelectionStrategy) *)

Module MutationGenerator.

Definition mutationTypeName (t : option MutationType) : string :=
  match t with
  | Some ParameterTuning => "parameter-tuning"
  | Some MethodModification => "method-modification"
  | Some StructuralChange => "structural-change"
  | Some BehaviorAlteration => "behavior-alteration"
  | Some CapabilityAddition => "capability-addition"
  | Some OptimizationRefactor => "optimization-refactor"
  | None => "undefined"
  end.

(** [version.split('.')] *)
Fixpoint splitDot (s : string) : list string :=
  match s with
  | EmptyString => [EmptyString]
  | String c rest =>
      if Ascii.eqb c "."%char then EmptyString :: splitDot rest
      else match splitDot rest with
           | [] => [String c EmptyString]
           | p :: ps => String c p :: ps
           end
  end.

(** The value of a character as a digit of the radix: 0-9, then the
    letters in either case. *)
Definition digitOf (radix : Z) (c : ascii) : option Z :=
  let n := Z.of_nat (nat_of_ascii c) in
  let value := if (48 <=? n) && (n <=? 57) then Some (n - 48)
               else if (97 <=? n) && (n <=? 122) then Some (n - 87)
               else if (65 <=? n) && (n <=? 90) then Some (n - 55)
               else None in
  match value with
  | Some d => if d <? radix then Some d else None
  | None => None
  end.

Fixpoint leadingDigits (radix : Z) (s : string) (acc : option Z) : option Z :=
  match s with
  | EmptyString => acc
  | String c rest =>
      match digitOf radix c with
      | Some d => leadingDigits radix rest
                    (Some (radix * match acc with Some a => a | None => 0 end + d))
      | None => acc
      end
  end.

(** White space that [parseInt] skips: tab, line feed, vertical tab,
    form feed, carriage return, space, no-break space. *)
Definition isBlank (c : ascii) : bool :=
  let n := Z.of_nat (nat_of_ascii c) in
  ((9 <=? n) && (n <=? 13)) || (n =? 32) || (n =? 160).

Fixpoint skipBlanks (s : string) : string :=
  match s with
  | EmptyString => EmptyString
  | String c rest => if isBlank c then skipBlanks rest else s
  end.

Definition stripSign (s : string) : bool * string :=
  match s with
  | String c rest =>
      if Ascii.eqb c "-" then (true, rest)
      else if Ascii.eqb c "+" then (false, rest)
      else (false, s)
  | EmptyString => (false, s)
  end.

Definition stripPrefix (s : string) : Z * string :=
  match s with
  | String c1 (String c2 rest) =>
      if Ascii.eqb c1 "0" && (Ascii.eqb c2 "x" || Ascii.eqb c2 "X")
      then (16, rest) else (10, s)
  | _ => (10, s)
  end.

(** [parseInt(s)] without a radix: leading white space is skipped, a
    sign is read, a prefix [0x] or [0X] switches to radix 16, and the
    digits up to the first other character are taken; [None] is NaN.
    The value is the exact integer.  A JavaScript number holds an
    integer exactly up to 2^53 in absolute value and rounds beyond; the
    statements about versions keep to that range. *)
Definition parseInt (s : string) : option Z :=
  let (negative, unsigned) := stripSign (skipBlanks s) in
  let (radix, digits) := stripPrefix unsigned in
  option_map (fun n => if negative : bool then - n else n)
             (leadingDigits radix digits None).

Definition incrementVersion (version : string) : string :=
  let parts := splitDot version in
  let part (i : nat) := match nth_error parts i with
                        | Some p => p
                        | None => "undefined"
                        end in
  let third := match nth_error parts 2 with
               | Some EmptyString | None => "0"
               | Some p => p
               end in
  let patch := match parseInt third with
               | Some n => showZ (n + 1)
               | None => "NaN"
               end in
  (part 0%nat ++ "." ++ part 1%nat ++ "." ++ patch)%string.

Section WithHost.
Variable h : Host.

Definition selectMutationType : Gen (option MutationType) :=
  (r <~ random h ;;
   let i := Qfloor (r * 6) in
   gret (if i <? 0 then None else nth_error mutationTypes (Z.to_nat i)))%gen.

Definition selectMutationTarget (a : IAgent) : MutationTarget :=
  {| target_agentId := agent_id a;
     target_agentType := agent_type a;
     componentPath := "capabilities";
     targetType := "method" |}.

Definition generateChanges (a : IAgent) (type : option MutationType)
  : list string :=
  [("Applied " ++ mutationTypeName type ++ " mutation")%string].

Definition generateMutationId : Gen string :=
  (time <~ now h ;;
   suffix <~ randomSuffix h ;;
   gret ("mut_" ++ showZ time ++ "_" ++ suffix)%string)%gen.

Definition generateAgentId : Gen string :=
  (time <~ now h ;;
   suffix <~ randomSuffix h ;;
   gret ("agent_" ++ showZ time ++ "_" ++ suffix)%string)%gen.

Definition generateMutation (a : IAgent) : Gen Mutation :=
  (mutationType <~ selectMutationType ;;
   id <~ generateMutationId ;;
   created <~ now h ;;
   gret {| mutation_id := id;
           mutation_type := mutationType;
           mutation_target := selectMutationTarget a;
           mutation_changes := generateChanges a mutationType;
           expectedFitnessChange := 1 # 10;
           mutation_createdAt := created |})%gen.

(** The mutant is an object literal built by spread, like a child of
    crossover: it has the fields of the agent and no methods. *)
Definition applyMutation (a : IAgent) (mutation : Mutation) : Gen IAgent :=
  (id <~ generateAgentId ;;
   gret {| agent_id := id;
           agent_type := agent_type a;
           agent_version := incrementVersion (agent_version a);
           capabilities := capabilities a;
           agent_state := agent_state a;
           metadata :=
             {| createdAt := createdAt (metadata a);
                updatedAt := updatedAt (metadata a);
                parentId := Some (agent_id a);
                meta_generation := meta_generation (metadata a) + 1;
                mutationHistory :=
                  mutationHistory (metadata a) ++ [mutation_id mutation];
                meta_tags := meta_tags (metadata a) |};
           hasMethods := false |})%gen.

Definition mutate (config : EvolutionConfig) (a : IAgent) : Eff nat IAgent :=
  liftGen
    (r <~ random h ;;
     if Qltb (mutationRate config) r then gret a
     else (mutation <~ generateMutation a ;;
           applyMutation a mutation))%gen.

End WithHost.
End MutationGenerator.

(** ** PopulationManager *)

Module PopulationManager.
Section WithHost.
Variable h : Host.

Definition generatePopulationId : Gen string :=
  (time <~ now h ;;
   suffix <~ randomSuffix h ;;
   gret ("pop_" ++ showZ time ++ "_" ++ suffix)%string)%gen.

Definition generateAgentId : Gen string :=
  (time <~ now h ;;
   suffix <~ randomSuffix h ;;
   gret ("agent_" ++ showZ time ++ "_" ++ suffix)%string)%gen.

(** [BaseAgent.createInitialFitness]: the fitness a fresh agent holds in
    its own state. *)
Definition baseAgentFitness : Gen FitnessScore :=
  (time <~ now h ;;
   gret {| overall := 1 # 2;
           components := {| codeQuality := 1 # 2; performance := 1 # 2;
                            reliability := 1 # 2; userSatisfaction := 1 # 2;
                            resourceEfficiency := 1 # 2 |};
           fitness_timestamp := time |})%gen.

(** [new BaseAgent(generateAgentId(), type, '1.0.0')] *)
Definition createRandomAgent (type : AgentType) : Gen IAgent :=
  (id <~ generateAgentId ;;
   initial <~ baseAgentFitness ;;
   created <~ now h ;;
   updated <~ now h ;;
   gret {| agent_id := id;
           agent_type := type;
           agent_version := "1.0.0";
           capabilities := [];
           agent_state := {| isActive := true; isEvolving := false;
                             executionCount := 0; errorCount := 0;
                             state_fitness := initial |};
           metadata := {| createdAt := created; updatedAt := updated;
                          parentId := None; meta_generation := 0;
                          mutationHistory := [];
                          meta_tags := [agentTypeName type] |};
           hasMethods := true |})%gen.

(** Random initial fitness: [overall] in 0.3 .. 0.7 (the rounded sum
    of the code can be 0.7 itself), every component jittered around it
    by its own draw. *)
Definition createInitialFitness : Gen FitnessScore :=
  (r <~ random h ;;
   let overall := ((3 # 10) + r * (4 # 10))%Q in
   r1 <~ random h ;;
   r2 <~ random h ;;
   r3 <~ random h ;;
   r4 <~ random h ;;
   r5 <~ random h ;;
   time <~ now h ;;
   gret {| overall := overall;
           components :=
             {| codeQuality := (overall + (r1 - (1 # 2)) * (2 # 10))%Q;
                performance := (overall + (r2 - (1 # 2)) * (2 # 10))%Q;
                reliability := (overall + (r3 - (1 # 2)) * (2 # 10))%Q;
                userSatisfaction := (overall + (r4 - (1 # 2)) * (2 # 10))%Q;
                resourceEfficiency := (overall + (r5 - (1 # 2)) * (2 # 10))%Q |};
           fitness_timestamp := time |})%gen.

Definition countOf (type : AgentType) (typeCounts : list (AgentType * Z)) : Z :=
  match find (fun kv => AgentType_eqb (fst kv) type) typeCounts with
  | Some kv => snd kv
  | None => 0
  end.

(** [typeCounts.set(type, count)] on an insertion-ordered Map. *)
Fixpoint setCount (type : AgentType) (count : Z)
    (typeCounts : list (AgentType * Z)) : list (AgentType * Z) :=
  match typeCounts with
  | [] => [(type, count)]
  | kv :: rest => if AgentType_eqb (fst kv) type then (type, count) :: rest
                  else kv :: setCount type count rest
  end.

Definition calculateDiversity (agents : list PopulationAgent) : Q :=
  if (length agents <? 2)%nat then 1%Q
  else
    let typeCounts :=
      fold_left (fun counts a =>
                   let count := countOf (agent_type (agent a)) counts in
                   setCount (agent_type (agent a)) (count + 1) counts)
                agents [] in
    let total := inject_Z (Z.of_nat (length agents)) in
    let diversity :=
      fold_left (fun d kv =>
                   let proportion := (inject_Z (snd kv) / total)%Q in
                   if Qltb 0 proportion
                   then (d - proportion * host_log2 h proportion)%Q else d)
                typeCounts 0%Q in
    let maxDiversity :=
      host_log2 h (inject_Z (Z.min (Z.of_nat (length agents))
                                   (Z.of_nat (length agentTypes)))) in
    if Qltb 0 maxDiversity then (diversity / maxDiversity)%Q else 0%Q.

Definition calculateStatistics (agents : list PopulationAgent)
  : PopulationStatistics :=
  match agents with
  | [] => {| stat_size := 0; averageFitness := 0; bestFitness := 0;
             worstFitness := 0; diversity := 0; convergence := 0;
             mutationSuccessRate := 0 |}
  | _ =>
      let fitnessValues := map (fun a => overall (fitness a)) agents in
      let count := inject_Z (Z.of_nat (length fitnessValues)) in
      let sum := reduce Qplus 0%Q fitnessValues in
      let averageFitness := (sum / count)%Q in
      let bestFitness := maxOf fitnessValues in
      let worstFitness := minOf fitnessValues in
      let diversity := calculateDiversity agents in
      let variance :=
        (reduce (fun acc val => acc + (val - averageFitness) ^ 2) 0 fitnessValues
         / count)%Q in
      let range := (bestFitness - worstFitness)%Q in
      let convergence :=
        (1 - host_sqrt h variance / (if Qeq_bool range 0 then 1 else range))%Q in
      {| stat_size := Z.of_nat (length agents);
         averageFitness := averageFitness;
         bestFitness := bestFitness;
         worstFitness := worstFitness;
         diversity := diversity;
         convergence := Qmax 0 (Qmin 1 convergence);
         mutationSuccessRate := 1 # 2 |}
  end.

(** One member per agent, in order, each with a fresh random fitness;
    [index] is the member's position and [total] the array length. *)
Fixpoint populationAgentsFrom (agentList : list IAgent) (index : Z) (total : nat)
  : Gen (list PopulationAgent) :=
  match agentList with
  | [] => gret []
  | a :: rest =>
      (initial <~ createInitialFitness ;;
       more <~ populationAgentsFrom rest (index + 1) total ;;
       gret ({| agent := a; fitness := initial; age := 0;
                isElite := index <? floorMul total (1 # 10) |} :: more))%gen
  end.

Definition createPopulation (agentList : list IAgent) (generation : Z)
  : Gen Population :=
  (populationAgents <~ populationAgentsFrom agentList 0 (length agentList) ;;
   id <~ generatePopulationId ;;
   time <~ now h ;;
   gret {| population_id := id;
           population_generation := generation;
           agents := populationAgents;
           statistics := calculateStatistics populationAgents;
           population_timestamp := time |})%gen.

Definition initialMembers (type : AgentType) (count : Z)
  : Gen (list PopulationAgent) :=
  grepeat (Z.to_nat count)
    (a <~ createRandomAgent type ;;
     initial <~ createInitialFitness ;;
     gret {| agent := a; fitness := initial; age := 0; isElite := false |})%gen.

Fixpoint initialMembersByType (types : list AgentType) (i : Z)
    (agentsPerType remainder : Z) : Gen (list PopulationAgent) :=
  match types with
  | [] => gret []
  | type :: rest =>
      (members <~ initialMembers type
                    (agentsPerType + (if i <? remainder then 1 else 0)) ;;
       more <~ initialMembersByType rest (i + 1) agentsPerType remainder ;;
       gret (members ++ more))%gen
  end.

Definition createInitialPopulation (size : Z) : Gen Population :=
  (let typeCount := Z.of_nat (length agentTypes) in
   members <~ initialMembersByType agentTypes 0
                (size / typeCount) (Z.rem size typeCount) ;;
   id <~ generatePopulationId ;;
   time <~ now h ;;
   gret {| population_id := id;
           population_generation := 0;
           agents := members;
           statistics := calculateStatistics members;
           population_timestamp := time |})%gen.

(** The same population object with other members and another time
    stamp: [{ ...population, agents, timestamp: Date.now() }]. *)
Definition withMembers (population : Population) (members : list PopulationAgent)
    (stats : PopulationStatistics) (time : Z) : Population :=
  {| population_id := population_id population;
     population_generation := population_generation population;
     agents := members;
     statistics := stats;
     population_timestamp := time |}.

Definition updateAgentAges (population : Population) : Gen Population :=
  (let updatedAgents :=
     map (fun a => {| agent := agent a; fitness := fitness a;
                      age := age a + 1; isElite := isElite a |})
         (agents population) in
   time <~ now h ;;
   gret (withMembers population updatedAgents (statistics population) time))%gen.

(** [markElites(population, eliteRatio = 0.1)] *)
Definition markElites (population : Population) (eliteRatio : Q)
  : Gen Population :=
  (let eliteCount := floorMul (length (agents population)) eliteRatio in
   let sortedAgents := sort byFitnessDesc (agents population) in
   let updatedAgents :=
     mapIndexed (fun a index => {| agent := agent a; fitness := fitness a;
                                   age := age a; isElite := index <? eliteCount |})
                0 sortedAgents in
   time <~ now h ;;
   gret (withMembers population updatedAgents (statistics population) time))%gen.

End WithHost.
End PopulationManager.

(** ** FitnessEvaluator *)

Module FitnessEvaluator.

Record FitnessWeights : Type := {
  w_codeQuality : Q;
  w_performance : Q;
  w_reliability : Q;
  w_userSatisfaction : Q;
  w_resourceEfficiency : Q
}.

(** The [weights] field as the constructor leaves it. *)
Definition weights : FitnessWeights := {|
  w_codeQuality := 25 # 100;
  w_performance := 20 # 100;
  w_reliability := 25 # 100;
  w_userSatisfaction := 15 # 100;
  w_resourceEfficiency := 15 # 100
|}.

Definition calculateOverallFitness (w : FitnessWeights) (c : FitnessComponents) : Q :=
  (codeQuality c * w_codeQuality w +
   performance c * w_performance w +
   reliability c * w_reliability w +
   userSatisfaction c * w_userSatisfaction w +
   resourceEfficiency c * w_resourceEfficiency w)%Q.

Definition mkTask (id : string) (type : TaskType) (priority : TaskPriority)
    (folder : string) (language : option string) (timeout : option Z) : Task :=
  {| task_id := id; task_type := type; task_priority := priority;
     task_workspaceFolder := folder; task_language := language;
     task_timeout := timeout |}.

Definition createCodeQualityTasks : list Task :=
  [ mkTask "code-quality-1" GenerateCode Medium "/tmp/test" (Some "typescript") None;
    mkTask "code-quality-2" Refactor Medium "/tmp/test" (Some "typescript") None ].

Definition createPerformanceTasks : list Task :=
  [ mkTask "performance-1" OptimizePerformance High "/tmp/test" None (Some 5000) ].

Definition createReliabilityTasks : list Task :=
  [ mkTask "reliability-1" WriteTests Medium "/tmp/test" None None;
    mkTask "reliability-2" FixBug High "/tmp/test" None None ].

(** A number used as a condition: defined and not zero. *)
Definition truthy (q : option Q) : bool :=
  match q with
  | Some v => negb (Qeq_bool v 0)
  | None => false
  end.

Definition scoreCodeQuality (result : TaskResult) : Q :=
  let quality := match result_metrics result with
                 | Some m => qualityScore m
                 | None => None
                 end in
  if truthy quality
  then match quality with Some q => q | None => 0%Q end
  else
    let time := option_map executionTime (result_metrics result) in
    let score := (1 # 2)%Q in
    let score := if truthy time
                    && match time with
                       | Some t => Qltb t 1000
                       | None => false
                       end
                 then (score + (2 # 10))%Q else score in
    let score := match result_error result with
                 | None => (score + (3 # 10))%Q
                 | Some _ => score
                 end in
    Qmin 1 score.

Definition scorePerformance (result : TaskResult) (executionTime : Z) : Q :=
  let baseScore := if success result then (7 # 10)%Q else (3 # 10)%Q in
  let timeScore := Qmax 0 (1 - inject_Z executionTime / 5000)%Q in
  ((baseScore + timeScore) / 2)%Q.

Definition createMinimalFitness (time : Z) : FitnessScore :=
  {| overall := 1 # 10;
     components := {| codeQuality := 1 # 10; performance := 1 # 10;
                      reliability := 1 # 10; userSatisfaction := 1 # 10;
                      resourceEfficiency := 1 # 10 |};
     fitness_timestamp := time |}.

Record BenchmarkSuite : Type := {
  suite_name : string;
  suite_tasks : list Task;
  suite_weight : Q
}.

Definition scoreTaskResult (result : TaskResult) : Q :=
  if negb (success result) then 0%Q
  else
    let time := option_map executionTime (result_metrics result) in
    let memory := option_map memoryUsed (result_metrics result) in
    let score := (7 # 10)%Q in
    let score := if truthy time
                    && match time with
                       | Some t => Qltb t 1000
                       | None => false
                       end
                 then (score + (2 # 10))%Q else score in
    let score := if truthy memory
                    && match memory with
                       | Some m => Qltb m (inject_Z (100 * 1024 * 1024))
                       | None => false
                       end
                 then (score + (1 # 10))%Q else score in
    Qmin 1 score.

(** The suites [initializeBenchmarkSuites] adds, in order. *)
Definition standardSuites : list BenchmarkSuite :=
  [ {| suite_name := "code-generation";
       suite_tasks :=
         createCodeQualityTasks
           ++ [mkTask "generate-function" GenerateCode Medium "/tmp/benchmark"
                      (Some "typescript") None];
       suite_weight := 1 |};
    {| suite_name := "performance";
       suite_tasks := createPerformanceTasks;
       suite_weight := 8 # 10 |};
    {| suite_name := "reliability";
       suite_tasks := createReliabilityTasks;
       suite_weight := 9 # 10 |} ].

(** [results[name] = score] on an object used as a map, and
    [map.set(key, value)]: a key that is present keeps its place. *)
Fixpoint setKey {V : Type} (key : string) (value : V) (m : list (string * V))
  : list (string * V) :=
  match m with
  | [] => [(key, value)]
  | (k, v) :: rest => if String.eqb k key then (key, value) :: rest
                      else (k, v) :: setKey key value rest
  end.

Fixpoint getKey {V : Type} (key : string) (m : list (string * V)) : option V :=
  match m with
  | [] => None
  | (k, v) :: rest => if String.eqb k key then Some v else getKey key rest
  end.

Section WithHost.
Variable h : Host.

(** [performanceMonitor.startTrace]: the trace is known by its start
    time; its id costs one clock read and one random draw. *)
Definition startTrace : Gen Z :=
  (_ <~ now h ;;
   _ <~ randomSuffix h ;;
   startTime <~ now h ;;
   gret startTime)%gen.

(** [performanceMonitor.endTrace]: the duration of the trace. *)
Definition endTrace (startTime : Z) : Gen Z :=
  (endTime <~ now h ;;
   gret (endTime - startTime))%gen.

(** [performanceMonitor.getSystemMetrics()], the two figures used:
    memory percentage and cpu usage. *)
Definition getSystemMetrics : Eff nat (Q * Q) :=
  (mem <- memoryUsage h ;;
   cpu <- cpuUsage h ;;
   ret ((inject_Z (rss mem) / inject_Z (rss mem + external mem) * 100)%Q,
        (inject_Z (cpu_user cpu + cpu_system cpu) / 1000000)%Q))%eff.

(** The task loop of [evaluateCodeQuality]: a task that throws is
    counted as completed with no score. *)
Fixpoint codeQualityLoop (a : IAgent) (tasks : list Task)
    (totalScore : Q) (completedTasks : Z) : Eff nat (Q * Z) :=
  match tasks with
  | [] => ret (totalScore, completedTasks)
  | task :: rest =>
      (step <- tryCatch
                 (result <- execute h a task ;;
                  ret (if success result
                       then (totalScore + scoreCodeQuality result)%Q
                       else totalScore, completedTasks + 1))
                 (fun _ => ret (totalScore, completedTasks + 1)) ;;
       codeQualityLoop a rest (fst step) (snd step))%eff
  end.

Definition evaluateCodeQuality (a : IAgent) : Eff nat Q :=
  (acc <- codeQualityLoop a createCodeQualityTasks 0%Q 0 ;;
   ret (if 0 <? snd acc then (fst acc / inject_Z (snd acc))%Q else 0%Q))%eff.

Fixpoint performanceLoop (a : IAgent) (tasks : list Task)
    (totalScore : Q) (completedTasks : Z) : Eff nat (Q * Z) :=
  match tasks with
  | [] => ret (totalScore, completedTasks)
  | task :: rest =>
      (taskTrace <- liftGen startTrace ;;
       step <- tryCatch
                 (result <- execute h a task ;;
                  executionTime <- liftGen (endTrace taskTrace) ;;
                  ret (if success result
                       then (totalScore + scorePerformance result executionTime)%Q
                       else totalScore, completedTasks + 1))
                 (fun _ =>
                    _ <- liftGen (endTrace taskTrace) ;;
                    ret (totalScore, completedTasks + 1)) ;;
       performanceLoop a rest (fst step) (snd step))%eff
  end.

Definition evaluatePerformance (a : IAgent) : Eff nat Q :=
  (acc <- performanceLoop a createPerformanceTasks 0%Q 0 ;;
   ret (if 0 <? snd acc then (fst acc / inject_Z (snd acc))%Q else 0%Q))%eff.

Fixpoint reliabilityLoop (a : IAgent) (tasks : list Task) (successCount : Z)
  : Eff nat Z :=
  match tasks with
  | [] => ret successCount
  | task :: rest =>
      (count <- tryCatch
                  (result <- execute h a task ;;
                   ret (if success result then successCount + 1
                        else successCount))
                  (fun _ => ret successCount) ;;
       reliabilityLoop a rest count)%eff
  end.

Definition evaluateReliability (a : IAgent) : Eff nat Q :=
  (let reliabilityTasks := createReliabilityTasks in
   let totalTasks := Z.of_nat (length reliabilityTasks) in
   successCount <- reliabilityLoop a reliabilityTasks 0 ;;
   ret (if 0 <? totalTasks
        then (inject_Z successCount / inject_Z totalTasks)%Q else 0%Q))%eff.

(** [agent.state.fitness] is an object, hence always taken as true by
    the [if]; the base score alone is never returned. *)
Definition evaluateUserSatisfaction (a : IAgent) : Eff nat Q :=
  let baseScore := (7 # 10)%Q in
  let fitnessHistory := state_fitness (agent_state a) in
  ret (Qmin 1 (baseScore + (overall fitnessHistory - (1 # 2)) * (4 # 10)))%Q.

Definition evaluateResourceEfficiency (a : IAgent) : Eff nat Q :=
  (metrics <- getSystemMetrics ;;
   let memoryEfficiency := (1 - fst metrics / 100)%Q in
   let cpuEfficiency := (1 - snd metrics / 100)%Q in
   ret ((memoryEfficiency + cpuEfficiency) / 2)%Q)%eff.

(** The five evaluations of [Promise.all], taken in order. *)
Definition evaluateComponents (a : IAgent) : Eff nat FitnessComponents :=
  (codeQuality <- evaluateCodeQuality a ;;
   performance <- evaluatePerformance a ;;
   reliability <- evaluateReliability a ;;
   userSatisfaction <- evaluateUserSatisfaction a ;;
   resourceEfficiency <- evaluateResourceEfficiency a ;;
   ret {| codeQuality := codeQuality; performance := performance;
          reliability := reliability; userSatisfaction := userSatisfaction;
          resourceEfficiency := resourceEfficiency |})%eff.

(** The body of the [try] in [evaluate]. *)
Definition evaluateBody (w : FitnessWeights) (a : IAgent) (trace : Z)
  : Eff nat FitnessScore :=
  (components <- evaluateComponents a ;;
   let overall := calculateOverallFitness w components in
   time <- liftGen (now h) ;;
   _ <- liftGen (endTrace trace) ;;
   ret {| overall := overall; components := components;
          fitness_timestamp := time |})%eff.

Definition evaluateWith (w : FitnessWeights) (a : IAgent) : Eff nat FitnessScore :=
  (trace <- liftGen startTrace ;;
   tryCatch (evaluateBody w a trace)
            (fun _ =>
               _ <- liftGen (endTrace trace) ;;
               time <- liftGen (now h) ;;
               ret (createMinimalFitness time)))%eff.

Definition evaluate (a : IAgent) : Eff nat FitnessScore := evaluateWith weights a.

(** [evaluateBatch]: the agents are evaluated five at a time and the
    scores stored under the agents' ids in the order of the agents; the
    evaluations of a batch are taken in order, and the pause between
    batches only takes time. *)
Fixpoint evaluateAll (agentList : list IAgent)
    (results : list (string * FitnessScore))
  : Eff nat (list (string * FitnessScore)) :=
  match agentList with
  | [] => ret results
  | a :: rest =>
      (score <- evaluate a ;;
       evaluateAll rest (setKey (agent_id a) score results))%eff
  end.

Definition evaluateBatch (agentList : list IAgent)
  : Eff nat (list (string * FitnessScore)) :=
  (batch <- liftGen startTrace ;;
   tryCatch
     (results <- evaluateAll agentList [] ;;
      _ <- liftGen (endTrace batch) ;;
      ret results)
     (fun error =>
        _ <- liftGen (endTrace batch) ;;
        throw error))%eff.

(** The task loop of [runBenchmarkSuite]. *)
Fixpoint benchmarkLoop (a : IAgent) (tasks : list Task)
    (totalScore : Q) (completedTasks : Z) : Eff nat (Q * Z) :=
  match tasks with
  | [] => ret (totalScore, completedTasks)
  | task :: rest =>
      (step <- tryCatch
                 (result <- execute h a task ;;
                  ret (if success result
                       then (totalScore + scoreTaskResult result)%Q
                       else totalScore, completedTasks + 1))
                 (fun _ => ret (totalScore, completedTasks + 1)) ;;
       benchmarkLoop a rest (fst step) (snd step))%eff
  end.

Definition runBenchmarkSuite (a : IAgent) (suite : BenchmarkSuite) : Eff nat Q :=
  (acc <- benchmarkLoop a (suite_tasks suite) 0%Q 0 ;;
   ret (if 0 <? snd acc then (fst acc / inject_Z (snd acc))%Q else 0%Q))%eff.

(** The suite loop of [benchmarkAgent]. *)
Fixpoint suiteLoop (a : IAgent) (suites : list BenchmarkSuite)
    (results : list (string * Q)) (totalScore totalWeight : Q)
  : Eff nat (list (string * Q) * Q * Q) :=
  match suites with
  | [] => ret (results, totalScore, totalWeight)
  | suite :: rest =>
      (suiteScore <- runBenchmarkSuite a suite ;;
       suiteLoop a rest (setKey (suite_name suite) suiteScore results)
         (totalScore + suiteScore * suite_weight suite)%Q
         (totalWeight + suite_weight suite)%Q)%eff
  end.

(** [benchmarkAgent(agent, suiteName?)] over the suites added so far.  A
    name that is absent or empty selects every suite. *)
Definition benchmarkAgent (benchmarkSuites : list BenchmarkSuite) (a : IAgent)
    (suiteName : option string) : Eff nat (Q * list (string * Q)) :=
  let named := match suiteName with
               | Some name => negb (String.eqb name "")
               | None => false
               end in
  let suites :=
    if named
    then filter (fun s => String.eqb (suite_name s)
                            match suiteName with Some name => name | None => "" end)
                benchmarkSuites
    else benchmarkSuites in
  match suites with
  | [] => throw (Err ("Benchmark suite not found: "
                      ++ match suiteName with
                         | Some name => name
                         | None => "undefined"
                         end))
  | _ =>
      (acc <- suiteLoop a suites [] 0%Q 0%Q ;;
       let totalScore := snd (fst acc) in
       let totalWeight := snd acc in
       ret (if Qltb 0 totalWeight then (totalScore / totalWeight)%Q else 0%Q,
            fst (fst acc)))%eff
  end.

End WithHost.
End FitnessEvaluator.

(** ** ArchiveManager *)

Record ArchiveEntry : Type := {
  entry_id : string;
  entry_parentId : option string;
  agentSnapshot : AgentSnapshot;
  fitnessMetrics : FitnessScore;
  entry_timestamp : Z;
  entry_reason : string;
  entry_tags : list string
}.

Inductive SortCriteria : Type :=
| FitnessDesc | FitnessAsc | DateDesc | DateAsc | GenerationDesc | GenerationAsc.

Record DateRange : Type := { range_start : Z; range_end : Z }.

Record ArchiveQuery : Type := {
  q_agentType : option string;
  minFitness : option Q;
  maxFitness : option Q;
  q_tags : option (list string);
  q_parentId : option string;
  dateRange : option DateRange;
  limit : option Z;
  offset : option Z;
  sortBy : option SortCriteria
}.

Record ArchiveSearchResult : Type := {
  result_entries : list ArchiveEntry;
  totalCount : Z;
  hasMore : bool;
  result_query : ArchiveQuery
}.

Record ArchiveIndex : Type := {
  byFitness : list (Q * list string);
  byGeneration : list (Z * list string);
  byAgentType : list (string * list string);
  byTag : list (string * list string)
}.

Record ArchiveStatistics : Type := {
  totalEntries : Z;
  uniqueAgents : Z;
  archive_averageFitness : Q;
  archive_bestFitness : Q
}.

(** [entries] is a [Map]: insertion-ordered, one value per key. *)
Record Archive : Type := {
  entries : list (string * ArchiveEntry);
  index : ArchiveIndex;
  archive_statistics : ArchiveStatistics;
  archive_updatedAt : Z
}.

Module ArchiveManager.

(** [Map.prototype.get] and [Map.prototype.set] on an insertion-ordered
    association list with key equality [eqb]. *)
Fixpoint mapGet {K V : Type} (eqb : K -> K -> bool) (k : K) (m : list (K * V))
  : option V :=
  match m with
  | [] => None
  | (k', v) :: rest => if eqb k' k then Some v else mapGet eqb k rest
  end.

Fixpoint mapSet {K V : Type} (eqb : K -> K -> bool) (k : K) (v : V)
    (m : list (K * V)) : list (K * V) :=
  match m with
  | [] => [(k, v)]
  | (k', v') :: rest => if eqb k' k then (k, v) :: rest
                        else (k', v') :: mapSet eqb k v rest
  end.

(** [m.get(k) || []] followed by [push] and [set]. *)
Definition pushIndex {K : Type} (eqb : K -> K -> bool) (k : K) (id : string)
    (m : list (K * list string)) : list (K * list string) :=
  let ids := match mapGet eqb k m with Some l => l | None => [] end in
  mapSet eqb k (ids ++ [id]) m.

Definition includes (l : list string) (s : string) : bool :=
  existsb (String.eqb s) l.

Definition emptyArchive (time : Z) : Archive :=
  {| entries := [];
     index := {| byFitness := []; byGeneration := [];
                 byAgentType := []; byTag := [] |};
     archive_statistics := {| totalEntries := 0; uniqueAgents := 0;
                              archive_averageFitness := 0;
                              archive_bestFitness := 0 |};
     archive_updatedAt := time |}.

Definition values (a : Archive) : list ArchiveEntry := map snd (entries a).

Definition updateIndices (entry : ArchiveEntry) (ix : ArchiveIndex) : ArchiveIndex :=
  let fitnessKey :=
    (inject_Z (Qfloor (overall (fitnessMetrics entry) * 10)) / 10)%Q in
  let generation :=
    match snap_generation (agentSnapshot entry) with
    | Some g => g
    | None => 0
    end in
  {| byFitness := pushIndex Qeq_bool fitnessKey (entry_id entry) (byFitness ix);
     byAgentType :=
       pushIndex String.eqb (agentTypeName (snap_type (agentSnapshot entry)))
                 (entry_id entry) (byAgentType ix);
     byTag :=
       fold_left (fun m tag => pushIndex String.eqb tag (entry_id entry) m)
                 (entry_tags entry) (byTag ix);
     byGeneration := pushIndex Z.eqb generation (entry_id entry) (byGeneration ix) |}.

(** [new Set(ids).size] *)
Fixpoint distinctCount (ids : list string) : Z :=
  match ids with
  | [] => 0
  | id :: rest => (if includes rest id then 0 else 1) + distinctCount rest
  end.

Definition updateStatistics (a : Archive) (time : Z) : Archive :=
  let all := values a in
  let stats := archive_statistics a in
  let fitnessValues := map (fun e => overall (fitnessMetrics e)) all in
  {| entries := entries a;
     index := index a;
     archive_statistics :=
       {| totalEntries := Z.of_nat (length all);
          uniqueAgents := distinctCount (map (fun e => snap_id (agentSnapshot e)) all);
          archive_averageFitness :=
            match all with
            | [] => archive_averageFitness stats
            | _ => (reduce Qplus 0%Q fitnessValues
                    / inject_Z (Z.of_nat (length fitnessValues)))%Q
            end;
          archive_bestFitness :=
            match all with
            | [] => archive_bestFitness stats
            | _ => maxOf fitnessValues
            end |};
     archive_updatedAt := time |}.

Definition sortEntries (l : list ArchiveEntry) (sortBy : option SortCriteria)
  : list ArchiveEntry :=
  match sortBy with
  | Some FitnessAsc =>
      sort (fun a b => overall (fitnessMetrics a) - overall (fitnessMetrics b))%Q l
  | None | Some FitnessDesc =>
      sort (fun a b => overall (fitnessMetrics b) - overall (fitnessMetrics a))%Q l
  | Some DateAsc =>
      sort (fun a b => inject_Z (entry_timestamp a - entry_timestamp b)) l
  | Some DateDesc =>
      sort (fun a b => inject_Z (entry_timestamp b - entry_timestamp a)) l
  | Some _ => l
  end.

(** [value || fallback] on an optional number: 0 and undefined both
    give the fallback. *)
Definition orElse (value : option Z) (fallback : Z) : Z :=
  match value with
  | Some v => if v =? 0 then fallback else v
  | None => fallback
  end.

Definition search (a : Archive) (query : ArchiveQuery) : ArchiveSearchResult :=
  let found := values a in
  let found :=
    match q_agentType query with
    | Some type =>
        if String.eqb type "" then found
        else
          let typeEntries :=
            match mapGet String.eqb type (byAgentType (index a)) with
            | Some ids => ids
            | None => []
            end in
          filter (fun e => includes typeEntries (entry_id e)) found
    | None => found
    end in
  let found :=
    match minFitness query with
    | Some lo => filter (fun e => Qle_bool lo (overall (fitnessMetrics e))) found
    | None => found
    end in
  let found :=
    match maxFitness query with
    | Some hi => filter (fun e => Qle_bool (overall (fitnessMetrics e)) hi) found
    | None => found
    end in
  let found :=
    match q_tags query with
    | Some (tag :: tags) =>
        filter (fun e => existsb (fun t => includes (entry_tags e) t) (tag :: tags))
               found
    | _ => found
    end in
  let found :=
    match dateRange query with
    | Some range =>
        filter (fun e => (range_start range <=? entry_timestamp e)
                         && (entry_timestamp e <=? range_end range)) found
    | None => found
    end in
  let found := sortEntries found (sortBy query) in
  let totalCount := Z.of_nat (length found) in
  let offset := orElse (offset query) 0 in
  let limit := orElse (limit query) 50 in
  {| result_entries := slice offset (offset + limit) found;
     totalCount := totalCount;
     hasMore := offset + limit <? totalCount;
     result_query := query |}.

Definition getBestAgents (a : Archive) (limit : Z) : list ArchiveEntry :=
  slice 0 limit
    (sort (fun x y => overall (fitnessMetrics y) - overall (fitnessMetrics x))%Q
          (values a)).

Section WithHost.
Variable h : Host.

Definition generateEntryId : Gen string :=
  (time <~ now h ;;
   suffix <~ randomSuffix h ;;
   gret ("entry_" ++ showZ time ++ "_" ++ suffix)%string)%gen.

(** The entry is built field by field: the id, the snapshot, the time
    stamp, then [process.memoryUsage()] for the metadata (the figure
    itself is not kept in the model); nothing is stored when one of them
    throws. *)
Definition archiveAgent (a : IAgent) (score : FitnessScore) (reason : string)
  : Eff (Archive * nat) ArchiveEntry :=
  fun st =>
    let (archive, t) := st in
    let (id, t) := generateEntryId t in
    match serialize h a t with
    | (Throw e, t) => (Throw e, (archive, t))
    | (Return snapshot, t) =>
        let (time, t) := now h t in
        match memoryUsage h t with
        | (Throw e, t) => (Throw e, (archive, t))
        | (Return _, t) =>
        let entry := {| entry_id := id; entry_parentId := None;
                        agentSnapshot := snapshot; fitnessMetrics := score;
                        entry_timestamp := time; entry_reason := reason;
                        entry_tags := [agentTypeName (agent_type a); reason] |} in
        let stored :=
          {| entries := mapSet String.eqb id entry (entries archive);
             index := updateIndices entry (index archive);
             archive_statistics := archive_statistics archive;
             archive_updatedAt := archive_updatedAt archive |} in
        let (updated, t) := now h t in
        (Return entry, (updateStatistics stored updated, t))
        end
    end.

End WithHost.
End ArchiveManager.

(** ** core/evolution/EvolutionEngine.ts *)

Inductive EvolutionPhase : Type :=
| Initialization | Evaluation | Selection | Crossover | MutationPhase
| Replacement | Completed.

Record CycleResults : Type := {
  improved : Z;
  degraded : Z;
  unchanged : Z;
  failed : Z;
  averageFitnessChange : Q
}.

Record EvolutionCycle : Type := {
  cycle_id : string;
  cycle_generation : Z;
  startTime : Z;
  endTime : option Z;
  phase : EvolutionPhase;
  cycle_population : Population;
  results : CycleResults
}.

Record EvolutionHistory : Type := {
  cycles : list EvolutionCycle;
  totalGenerations : Z;
  totalMutations : Z;
  successfulMutations : Z
}.

Record Engine : Type := {
  currentPopulation : option Population;
  currentCycle : option EvolutionCycle;
  history : EvolutionHistory;
  isRunning : bool;
  shouldStop : bool;
  archive : Archive;
  tick : nat
}.

Module EvolutionEngine.

Definition AlreadyRunning : Error := Err "Evolution is already running".

Definition undefinedPopulation : Error :=
  TypeError "Cannot read properties of undefined".

Definition setPopulation (p : option Population) (s : Engine) : Engine :=
  {| currentPopulation := p; currentCycle := currentCycle s;
     history := history s; isRunning := isRunning s;
     shouldStop := shouldStop s; archive := archive s; tick := tick s |}.

Definition setCycle (c : option EvolutionCycle) (s : Engine) : Engine :=
  {| currentPopulation := currentPopulation s; currentCycle := c;
     history := history s; isRunning := isRunning s;
     shouldStop := shouldStop s; archive := archive s; tick := tick s |}.

Definition setHistory (hist : EvolutionHistory) (s : Engine) : Engine :=
  {| currentPopulation := currentPopulation s; currentCycle := currentCycle s;
     history := hist; isRunning := isRunning s;
     shouldStop := shouldStop s; archive := archive s; tick := tick s |}.

Definition setFlags (running stop : bool) (s : Engine) : Engine :=
  {| currentPopulation := currentPopulation s; currentCycle := currentCycle s;
     history := history s; isRunning := running;
     shouldStop := stop; archive := archive s; tick := tick s |}.

Definition setArchiveTick (a : Archive) (t : nat) (s : Engine) : Engine :=
  {| currentPopulation := currentPopulation s; currentCycle := currentCycle s;
     history := history s; isRunning := isRunning s;
     shouldStop := shouldStop s; archive := a; tick := t |}.

Definition setTick (t : nat) (s : Engine) : Engine :=
  setArchiveTick (archive s) t s.

(** Component code runs on the engine's tick. *)
Definition onTick {A : Type} (m : Eff nat A) : Eff Engine A :=
  fun s => let (r, t) := m (tick s) in (r, setTick t s).

Definition onArchive {A : Type} (m : Eff (Archive * nat) A) : Eff Engine A :=
  fun s => match m (archive s, tick s) with
           | (r, (a, t)) => (r, setArchiveTick a t s)
           end.

Definition modify (f : Engine -> Engine) : Eff Engine unit :=
  fun s => (Return tt, f s).

Definition get : Eff Engine Engine := fun s => (Return s, s).

(** The cycle object is shared by the local variable and
    [this.currentCycle]; a phase change is seen through both. *)
Definition withPhase (p : EvolutionPhase) (c : EvolutionCycle) : EvolutionCycle :=
  {| cycle_id := cycle_id c; cycle_generation := cycle_generation c;
     startTime := startTime c; endTime := endTime c; phase := p;
     cycle_population := cycle_population c; results := results c |}.

Definition withEndTime (t : Z) (c : EvolutionCycle) : EvolutionCycle :=
  {| cycle_id := cycle_id c; cycle_generation := cycle_generation c;
     startTime := startTime c; endTime := Some t; phase := phase c;
     cycle_population := cycle_population c; results := results c |}.

Definition withPopulation (p : Population) (c : EvolutionCycle) : EvolutionCycle :=
  {| cycle_id := cycle_id c; cycle_generation := cycle_generation c;
     startTime := startTime c; endTime := endTime c; phase := phase c;
     cycle_population := p; results := results c |}.

Definition withResults (r : CycleResults) (c : EvolutionCycle) : EvolutionCycle :=
  {| cycle_id := cycle_id c; cycle_generation := cycle_generation c;
     startTime := startTime c; endTime := endTime c; phase := phase c;
     cycle_population := cycle_population c; results := r |}.

Definition withAgents (l : list PopulationAgent) (p : Population) : Population :=
  {| population_id := population_id p;
     population_generation := population_generation p;
     agents := l; statistics := statistics p;
     population_timestamp := population_timestamp p |}.

Definition withFitness (f : FitnessScore) (a : PopulationAgent) : PopulationAgent :=
  {| agent := agent a; fitness := f; age := age a; isElite := isElite a |}.

(** [getBestAgent]: the sort is in place and leaves the engine's
    population ranked. *)
Definition getBestAgent : Eff Engine (option IAgent) :=
  fun s =>
    match currentPopulation s with
    | None => (Return None, s)
    | Some p =>
        match agents p with
        | [] => (Return None, s)
        | _ =>
            let sorted := sort byFitnessDesc (agents p) in
            (match sorted with
             | best :: _ => Return (Some (agent best))
             | [] => Throw undefinedPopulation
             end,
             setPopulation (Some (withAgents sorted p)) s)
        end
    end.

Definition getAgentByType (type : AgentType) (s : Engine) : option IAgent :=
  match currentPopulation s with
  | None => None
  | Some p =>
      option_map agent
        (find (fun a => AgentType_eqb (agent_type (agent a)) type) (agents p))
  end.

Section WithHost.
Variable h : Host.
Variable config : EvolutionConfig.

Definition generateCycleId : Gen string :=
  (time <~ now h ;;
   suffix <~ randomSuffix h ;;
   gret ("cycle_" ++ showZ time ++ "_" ++ suffix)%string)%gen.

(** [evaluatePopulation]: every member gets the evaluator's score, then
    the statistics are recomputed, all on the current population
    object. *)
Definition evaluatePopulation : Eff Engine unit :=
  (s <- get ;;
   match currentPopulation s with
   | None => ret tt
   | Some p =>
       evaluated <- onTick
         (mapM (fun member =>
                  score <- FitnessEvaluator.evaluate h (agent member) ;;
                  ret (withFitness score member))
               (agents p)) ;;
       modify (setPopulation
                 (Some {| population_id := population_id p;
                          population_generation := population_generation p;
                          agents := evaluated;
                          statistics :=
                            PopulationManager.calculateStatistics h evaluated;
                          population_timestamp := population_timestamp p |}))
   end)%eff.

Definition selectParents : Eff Engine (list IAgent) :=
  (s <- get ;;
   match currentPopulation s with
   | None => ret []
   | Some p =>
       let numParents := floorMul (length (agents p)) (crossoverRate config) in
       onTick (SelectionStrategy.select h config (agents p) numParents)
   end)%eff.

(** Parents are paired off two by two; a last odd parent is left out. *)
Fixpoint crossoverPairs (parents : list IAgent) : Gen (list IAgent) :=
  match parents with
  | parent1 :: parent2 :: rest =>
      (children <~ CrossoverOperator.crossover h parent1 parent2 ;;
       more <~ crossoverPairs rest ;;
       gret (children ++ more))%gen
  | _ => gret []
  end.

Definition performCrossover (parents : list IAgent) : Eff Engine (list IAgent) :=
  onTick (liftGen (crossoverPairs parents)).

Definition countMutation (succeeded : bool) (s : Engine) : Engine :=
  let hist := history s in
  setHistory {| cycles := cycles hist;
                totalGenerations := totalGenerations hist;
                totalMutations := totalMutations hist + 1;
                successfulMutations :=
                  if succeeded then successfulMutations hist + 1
                  else successfulMutations hist |} s.

Fixpoint performMutation (agentList : list IAgent) : Eff Engine (list IAgent) :=
  match agentList with
  | [] => ret []
  | a :: rest =>
      (mutated <- tryCatch
                    (mutatedAgent <- onTick (MutationGenerator.mutate h config a) ;;
                     _ <- modify (countMutation true) ;;
                     ret mutatedAgent)
                    (fun _ =>
                       _ <- modify (countMutation false) ;;
                       ret a) ;;
       more <- performMutation rest ;;
       ret (mutated :: more))%eff
  end.

(** The agents [replacePopulation] hands to [createPopulation]: the
    elites of the fitness-sorted population, then the new agents, cut at
    [populationSize]. *)
Definition elitesOf (p : Population) : list IAgent :=
  let eliteCount := floorMul (length (agents p)) (elitismRate config) in
  map agent (slice 0 eliteCount (sort byFitnessDesc (agents p))).

Definition nextAgents (p : Population) (newAgents : list IAgent) : list IAgent :=
  let combinedAgents := elitesOf p ++ newAgents in
  slice 0 (populationSize config) combinedAgents.

(** Returns the old population object as the in-place sort leaves it. *)
Definition replacePopulation (newAgents : list IAgent)
  : Eff Engine (option Population) :=
  (s <- get ;;
   match currentPopulation s with
   | None => ret None
   | Some p =>
       next <- onTick (liftGen
                 (PopulationManager.createPopulation h (nextAgents p newAgents)
                    (population_generation p + 1))) ;;
       _ <- modify (setPopulation (Some next)) ;;
       ret (Some (withAgents (sort byFitnessDesc (agents p)) p))
   end)%eff.

Definition updateCycleResults (c : EvolutionCycle) : Gen EvolutionCycle :=
  (r1 <~ random h ;;
   r2 <~ random h ;;
   let improved := Qfloor (r1 * 5) in
   let degraded := Qfloor (r2 * 2) in
   gret (withResults
           {| improved := improved;
              degraded := degraded;
              unchanged := Z.of_nat (length (agents (cycle_population c)))
                           - improved - degraded;
              failed := failed (results c);
              averageFitnessChange := averageFitnessChange (results c) |}
           c))%gen.

Definition calculateVariance (values : list Q) : Q :=
  let count := inject_Z (Z.of_nat (length values)) in
  let mean := (reduce Qplus 0%Q values / count)%Q in
  let squaredDiffs := map (fun value => ((value - mean) ^ 2)%Q) values in
  (reduce Qplus 0%Q squaredDiffs / count)%Q.

Definition hasConverged (hist : EvolutionHistory) : bool :=
  if (length (cycles hist) <? 10)%nat then false
  else
    let recentCycles := slice (-10) (Z.of_nat (length (cycles hist))) (cycles hist) in
    let fitnessValues :=
      map (fun c => averageFitness (statistics (cycle_population c))) recentCycles in
    let variance := calculateVariance fitnessValues in
    match convergenceThreshold config with
    | Some threshold => Qltb variance threshold
    | None => false
    end.

(** Both names of the cycle object are updated together. *)
Definition share (c : EvolutionCycle) : Eff Engine EvolutionCycle :=
  (_ <- modify (setCycle (Some c)) ;; ret c)%eff.

Definition enterPhase (p : EvolutionPhase) (c : EvolutionCycle)
  : Eff Engine EvolutionCycle :=
  share (withPhase p c).

(** The synchronous part of [stopEvolution]. *)
Definition stopEvolution (s : Engine) : Engine :=
  if isRunning s then setFlags (isRunning s) true s else s.

(** While a generation awaits, another task may call [stopEvolution]. *)
Definition pollStop : Eff Engine unit :=
  (requested <- onTick (liftGen (stopRequested h)) ;;
   if requested : bool then modify stopEvolution else ret tt)%eff.

(** The [for] loop of [runEvolutionCycle]; [first] tells the first
    round, in which the cycle's population is still the object the
    engine evaluates and sorts. *)
Fixpoint generationLoop (remaining : nat) (first : bool) (c : EvolutionCycle)
  : Eff Engine EvolutionCycle :=
  match remaining with
  | O => ret c
  | S n =>
      (s <- get ;;
       if shouldStop s then ret c
       else
         c <- enterPhase Evaluation c ;;
         _ <- evaluatePopulation ;;
         c <- enterPhase Selection c ;;
         parents <- selectParents ;;
         c <- enterPhase Crossover c ;;
         offspring <- performCrossover parents ;;
         c <- enterPhase MutationPhase c ;;
         mutatedOffspring <- performMutation offspring ;;
         c <- enterPhase Replacement c ;;
         old <- replacePopulation mutatedOffspring ;;
         c <- share (match old with
                     | Some p => if first then withPopulation p c else c
                     | None => c
                     end) ;;
         c <- onTick (liftGen (updateCycleResults c)) ;;
         c <- share c ;;
         s <- get ;;
         if hasConverged (history s) then ret c
         else
           _ <- pollStop ;;
           generationLoop n false c)%eff
  end.

(** An engine without a population: [this.currentPopulation!] leaves
    [cycle.population] undefined and the first read of it, on every
    path through [evolve], raises a TypeError; the model raises it at
    once. *)
Definition runEvolutionCycle (maxGenerations : Z) : Eff Engine EvolutionCycle :=
  (cycleId <- onTick (liftGen generateCycleId) ;;
   start <- onTick (liftGen (now h)) ;;
   s <- get ;;
   match currentPopulation s with
   | None => throw undefinedPopulation
   | Some p =>
       tryFinally
         (c <- share {| cycle_id := cycleId;
                        cycle_generation := totalGenerations (history s) + 1;
                        startTime := start;
                        endTime := None;
                        phase := Initialization;
                        cycle_population := p;
                        results := {| improved := 0; degraded := 0;
                                      unchanged := 0; failed := 0;
                                      averageFitnessChange := 0 |} |} ;;
          c <- generationLoop (Z.to_nat maxGenerations) true c ;;
          c <- enterPhase Completed c ;;
          finish <- onTick (liftGen (now h)) ;;
          share (withEndTime finish c))
         (setCycle None)
   end)%eff.

Fixpoint archiveAll (members : list PopulationAgent) (reason : string)
  : Eff Engine unit :=
  match members with
  | [] => ret tt
  | member :: rest =>
      (_ <- onArchive (ArchiveManager.archiveAgent h (agent member)
                         (fitness member) reason) ;;
       archiveAll rest reason)%eff
  end.

(** The sort is in place: the cycle gets its population back sorted,
    and so does the engine when the cycle still holds the engine's
    population object (no replacement happened, the generation numbers
    agree). *)
Definition archiveBestAgents (c : EvolutionCycle) : Eff Engine EvolutionCycle :=
  (let sorted := sort byFitnessDesc (agents (cycle_population c)) in
   let bestAgents := slice 0 5 sorted in
   s <- get ;;
   _ <- match currentPopulation s with
        | Some p =>
            if population_generation p
               =? population_generation (cycle_population c)
            then modify (setPopulation (Some (withAgents sorted p)))
            else ret tt
        | None => ret tt
        end ;;
   _ <- archiveAll bestAgents
          ("Generation " ++ showZ (cycle_generation c) ++ " top performer")%string ;;
   ret (withPopulation (withAgents sorted (cycle_population c)) c))%eff.

Definition recordCycle (c : EvolutionCycle) (generations : Z) (s : Engine) : Engine :=
  let hist := history s in
  setHistory {| cycles := cycles hist ++ [c];
                totalGenerations := totalGenerations hist + generations;
                totalMutations := totalMutations hist;
                successfulMutations := successfulMutations hist |} s.

(** What [evolve] does once it holds the running flag. *)
Definition evolveBody (generations : Z) : Eff Engine EvolutionCycle :=
  (c <- runEvolutionCycle generations ;;
   c <- archiveBestAgents c ;;
   _ <- modify (recordCycle c generations) ;;
   ret c)%eff.

Definition evolve (generations : Z) : Eff Engine EvolutionCycle :=
  fun s =>
    if isRunning s then (Throw AlreadyRunning, s)
    else tryFinally (evolveBody generations)
                    (fun s' => setFlags false (shouldStop s') s')
                    (setFlags true false s).

(** The engine as its constructor leaves it. *)
Definition newEngine : Engine :=
  {| currentPopulation := None;
     currentCycle := None;
     history := {| cycles := []; totalGenerations := 0;
                   totalMutations := 0; successfulMutations := 0 |};
     isRunning := false;
     shouldStop := false;
     archive := ArchiveManager.emptyArchive 0;
     tick := 0%nat |}.

Definition createInitialPopulation : Eff Engine unit :=
  (p <- onTick (liftGen (PopulationManager.createInitialPopulation h
                           (populationSize config))) ;;
   _ <- modify (setPopulation (Some p)) ;;
   evaluatePopulation)%eff.

End WithHost.
End EvolutionEngine.

(** ** A concrete host for examples

    The methods of [BaseAgent]: every task succeeds with quality 0.7,
    [serialize] returns a snapshot; the clock advances with the tick. *)

Definition snapshotOf (time : Z) (a : IAgent) : AgentSnapshot :=
  {| snap_id := agent_id a; snap_type := agent_type a;
     snap_version := agent_version a; snap_capabilities := capabilities a;
     snap_generation := None; snap_hash := "0"; snap_timestamp := time |}.

Definition okResult : TaskResult :=
  {| success := true; result_error := None;
     result_metrics := Some {| executionTime := 120; memoryUsed := 1000;
                               qualityScore := Some (7 # 10) |} |}.

Definition exampleHost : Host :=
  {| host_random := fun t => (inject_Z (Z.of_nat (t mod 10)) / 10)%Q;
     host_now := fun t => 1000 + Z.of_nat t;
     host_randomSuffix := fun t => showZ (Z.of_nat t);
     host_shuffle := fun _ l => l;
     host_execute := fun _ _ _ => Return okResult;
     host_serialize := fun t a => Return (snapshotOf (1000 + Z.of_nat t) a);
     host_memoryUsage := fun _ => Return {| rss := 300; external := 100;
                                            heapUsed := 50; heapTotal := 100 |};
     host_cpuUsage := fun _ => Return {| cpu_user := 20000000; cpu_system := 10000000 |};
     host_log2 := fun q => (q - 1)%Q;
     host_sqrt := fun q => q;
     host_stopRequested := fun _ => false |}.

Definition exampleConfig : EvolutionConfig :=
  {| populationSize := 10;
     mutationRate := 1 # 10;
     crossoverRate := 7 # 10;
     elitismRate := 1 # 10;
     selectionStrategy := Tournament;
     convergenceThreshold := None |}.

(** The engine after [initialize] on the example host. *)
Definition exampleEngine : Engine :=
  snd (EvolutionEngine.createInitialPopulation exampleHost exampleConfig
         EvolutionEngine.newEngine).

(** Hand-made agents and members for the examples: instances of
    [BaseAgent]. *)
Definition agentNamed (id : string) (type : AgentType) : IAgent :=
  {| agent_id := id; agent_type := type; agent_version := "1.0.0";
     capabilities := [];
     agent_state := {| isActive := true; isEvolving := false;
                       executionCount := 0; errorCount := 0;
                       state_fitness := FitnessEvaluator.createMinimalFitness 0 |};
     metadata := {| createdAt := 0; updatedAt := 0; parentId := None;
                    meta_generation := 0; mutationHistory := [];
                    meta_tags := [agentTypeName type] |};
     hasMethods := true |}.

Definition scoreOf (q : Q) : FitnessScore :=
  {| overall := q;
     components := {| codeQuality := q; performance := q; reliability := q;
                      userSatisfaction := q; resourceEfficiency := q |};
     fitness_timestamp := 0 |}.

Definition memberOf (a : IAgent) (q : Q) : PopulationAgent :=
  {| agent := a; fitness := scoreOf q; age := 0; isElite := false |}.

Definition rankConfig : EvolutionConfig :=
  {| populationSize := 10; mutationRate := 1 # 10; crossoverRate := 7 # 10;
     elitismRate := 1 # 10; selectionStrategy := Rank;
     convergenceThreshold := None |}.

Definition rouletteConfig : EvolutionConfig :=
  {| populationSize := 10; mutationRate := 1 # 10; crossoverRate := 7 # 10;
     elitismRate := 1 # 10; selectionStrategy := RouletteWheel;
     convergenceThreshold := None |}.

Definition agentA : IAgent := agentNamed "agent_a" Testing.
Definition agentB : IAgent := agentNamed "agent_b" Deployment.

Definition someCapability : AgentCapability :=
  {| cap_name := "generate"; cap_description := "code generation";
     cap_requiredPermissions := []; cap_version := "1.0.0" |}.

Definition skilledAgent : IAgent :=
  {| agent_id := "child_1000_1"; agent_type := CodeGeneration;
     agent_version := "1.0.0"; capabilities := [someCapability];
     agent_state := agent_state agentA; metadata := metadata agentA;
     hasMethods := true |}.

(** An archive filled by [archiveAgent] itself: [n] snapshots of the same
    agent, all with fitness 1/2. *)
Fixpoint archiveTimes (n : nat) (st : Archive * nat) : Archive * nat :=
  match n with
  | O => st
  | S k => archiveTimes k
             (snd (ArchiveManager.archiveAgent exampleHost agentA
                     (scoreOf (1 # 2)) "top performer" st))
  end.

Definition fullArchive : Archive :=
  fst (archiveTimes 51 (ArchiveManager.emptyArchive 0, 0%nat)).

(** An engine that holds a given population. *)
Definition populationOf (members : list PopulationAgent) : Population :=
  {| population_id := "pop_0_0"; population_generation := 0;
     agents := members;
     statistics := PopulationManager.calculateStatistics exampleHost members;
     population_timestamp := 0 |}.

Definition engineWith (members : list PopulationAgent) : Engine :=
  EvolutionEngine.setPopulation (Some (populationOf members))
    EvolutionEngine.newEngine.

Definition halfEliteConfig : EvolutionConfig :=
  {| populationSize := 10; mutationRate := 1 # 10; crossoverRate := 7 # 10;
     elitismRate := 1 # 2; selectionStrategy := Tournament;
     convergenceThreshold := None |}.

(** Two members tied at fitness 0.9, the one with the higher id first. *)
Definition tiedPair : list PopulationAgent :=
  [memberOf agentB (9 # 10); memberOf agentA (9 # 10)].

(** A host whose process metrics cannot be read. *)
Definition failingHost : Host :=
  {| host_random := host_random exampleHost;
     host_now := host_now exampleHost;
     host_randomSuffix := host_randomSuffix exampleHost;
     host_shuffle := host_shuffle exampleHost;
     host_execute := host_execute exampleHost;
     host_serialize := host_serialize exampleHost;
     host_memoryUsage := fun _ => Throw (Err "memoryUsage failed");
     host_cpuUsage := host_cpuUsage exampleHost;
     host_log2 := host_log2 exampleHost;
     host_sqrt := host_sqrt exampleHost;
     host_stopRequested := host_stopRequested exampleHost |}.


(** A small initialised engine: four members, nothing run yet. *)
Definition smallEngine : Engine :=
  engineWith [memberOf agentA (1 # 2); memberOf agentB (3 # 4);
              memberOf agentA (1 # 4); memberOf agentB (1 # 3)].

(** An engine with ten past cycles of equal average fitness, and a
    configuration with a convergence threshold: the convergence check
    ends every cycle after its first generation. *)
Definition pastCycle : EvolutionCycle :=
  {| cycle_id := "cycle_0_0"; cycle_generation := 1; startTime := 0;
     endTime := Some 1; phase := Completed;
     cycle_population := populationOf [memberOf agentA (1 # 2)];
     results := {| improved := 0; degraded := 0; unchanged := 1; failed := 0;
                   averageFitnessChange := 0 |} |}.

Definition settledEngine : Engine :=
  EvolutionEngine.setHistory
    {| cycles := repeat pastCycle 10; totalGenerations := 10;
       totalMutations := 0; successfulMutations := 0 |}
    smallEngine.

Definition convergingConfig : EvolutionConfig :=
  {| populationSize := 10; mutationRate := 1 # 10; crossoverRate := 7 # 10;
     elitismRate := 1 # 10; selectionStrategy := Tournament;
     convergenceThreshold := Some (1 # 100) |}.

(** A host on which [stopEvolution] is called during every generation. *)
Definition stoppingHost : Host :=
  {| host_random := host_random exampleHost;
     host_now := host_now exampleHost;
     host_randomSuffix := host_randomSuffix exampleHost;
     host_shuffle := host_shuffle exampleHost;
     host_execute := host_execute exampleHost;
     host_serialize := host_serialize exampleHost;
     host_memoryUsage := host_memoryUsage exampleHost;
     host_cpuUsage := host_cpuUsage exampleHost;
     host_log2 := host_log2 exampleHost;
     host_sqrt := host_sqrt exampleHost;
     host_stopRequested := fun _ => true |}.

(** ** Vocabulary of the statements *)

(** What [createChild] makes of a primary and a secondary parent. *)
Record ChildOf (primary secondary child : IAgent) : Prop := {
  child_type : agent_type child = agent_type primary;
  child_state : agent_state child = agent_state primary;
  child_capabilities :
    capabilities child
    = capabilities primary
        ++ match capabilities secondary with
           | [] => []
           | borrowed :: _ => [borrowed]
           end;
  child_created : createdAt (metadata child) = createdAt (metadata primary);
  child_updated : updatedAt (metadata child) = updatedAt (metadata primary);
  child_parent : parentId (metadata child) = Some (agent_id primary);
  child_generation :
    meta_generation (metadata child)
    = Z.max (meta_generation (metadata primary))
            (meta_generation (metadata secondary)) + 1;
  child_history : mutationHistory (metadata child) = [];
  child_tags : meta_tags (metadata child) = ["crossover"];
  child_version : agent_version child = "1.0.0";
  child_id_generated : String.prefix "child_" (agent_id child) = true
}.

(** A query that filters on the fitness range only; sorting and paging
    stay free. *)
Definition fitnessRangeQuery (lo hi : Q) (limit offset : option Z)
    (sortBy : option SortCriteria) : ArchiveQuery :=
  {| q_agentType := None; minFitness := Some lo; maxFitness := Some hi;
     q_tags := None; q_parentId := None; dateRange := None;
     limit := limit; offset := offset; sortBy := sortBy |}.

(** The brute-force filter over all stored entries. *)
Definition inFitnessRange (lo hi : Q) (e : ArchiveEntry) : bool :=
  Qle_bool lo (overall (fitnessMetrics e))
  && Qle_bool (overall (fitnessMetrics e)) hi.

Definition bruteForce (a : Archive) (lo hi : Q) : list ArchiveEntry :=
  filter (inFitnessRange lo hi) (ArchiveManager.values a).

(** The fitness of a member that [createPopulation] has just made: drawn
    at random, 0.3 <= overall <= 0.7, whatever the agent scored before. *)
Definition freshlyDrawn (m : PopulationAgent) : Prop :=
  age m = 0 /\ (3 # 10 <= overall (fitness m))%Q /\ (overall (fitness m) <= 7 # 10)%Q.

Definition sizeOfPopulation (s : Engine) : option nat :=
  option_map (fun p => length (agents p)) (currentPopulation s).

(** [a] may stand before [b] in a ranking by descending fitness. *)
Definition ranksBefore (a b : PopulationAgent) : Prop :=
  (overall (fitness b) <= overall (fitness a))%Q.

(** The minimal fitness: 0.1 overall and in every component. *)
Definition isMinimalFitness (score : FitnessScore) : Prop :=
  overall score = 1 # 10
  /\ codeQuality (components score) = 1 # 10
  /\ performance (components score) = 1 # 10
  /\ reliability (components score) = 1 # 10
  /\ userSatisfaction (components score) = 1 # 10
  /\ resourceEfficiency (components score) = 1 # 10.

(** [overall] is the weighted sum of the components, weights
    0.25 / 0.20 / 0.25 / 0.15 / 0.15. *)
Definition weightedSum (c : FitnessComponents) : Q :=
  ((25 # 100) * codeQuality c + (20 # 100) * performance c
   + (25 # 100) * reliability c + (15 # 100) * userSatisfaction c
   + (15 # 100) * resourceEfficiency c)%Q.

Definition isWeighted (score : FitnessScore) : Prop :=
  (overall score == weightedSum (components score))%Q.

Definition inUnit (q : Q) : Prop := (0 <= q)%Q /\ (q <= 1)%Q.

Definition componentsInUnit (c : FitnessComponents) : Prop :=
  inUnit (codeQuality c) /\ inUnit (performance c) /\ inUnit (reliability c)
  /\ inUnit (userSatisfaction c) /\ inUnit (resourceEfficiency c).



(** The part of the engine that no phase of a run writes: the running
    flag, the generation total and the list of past cycles. *)
Record Frame (s s' : Engine) : Prop := {
  frame_running : isRunning s' = isRunning s;
  frame_generations :
    totalGenerations (history s') = totalGenerations (history s);
  frame_cycles : cycles (history s') = cycles (history s)
}.

(** An engine operation that keeps the frame, whatever its outcome. *)
Definition Framed {A : Type} (m : Eff Engine A) : Prop :=
  forall s r s', m s = (r, s') -> Frame s s'.

(** An operation that cannot throw. *)
Definition Total {A : Type} (m : Eff Engine A) : Prop :=
  forall s, exists a s', m s = (Return a, s').

(** What the value returned by an operation satisfies. *)
Definition Keeps {A : Type} (P : A -> Prop) (m : Eff Engine A) : Prop :=
  forall s a s', m s = (Return a, s') -> P a.

Definition numbered (g : Z) (c : EvolutionCycle) : Prop := cycle_generation c = g.

(** A cycle that [runEvolutionCycle] returns is completed, stamped and
    numbered [g]. *)
Definition completedAs (g : Z) (c : EvolutionCycle) : Prop :=
  phase c = Completed /\ (exists t, endTime c = Some t) /\ cycle_generation c = g.

(** The body of [serialize] returns: what archiving needs of an agent
    that has the method. *)
Definition SerializeOK (h : Host) : Prop :=
  forall t a, exists snapshot, host_serialize h t a = Return snapshot.

(** [process.memoryUsage()] returns. *)
Definition MemoryOK (h : Host) : Prop :=
  forall t, exists usage, host_memoryUsage h t = Return usage.

(** Every member's agent is a class instance. *)
Definition allInstances (members : list PopulationAgent) : Prop :=
  Forall (fun m => hasMethods (agent m) = true) members.

(** Generations counted against generations run: the number of
    replacements shows in the population's own generation counter. *)
Definition generationsRun (before after : Engine) : option Z :=
  match currentPopulation before, currentPopulation after with
  | Some p, Some p' => Some (population_generation p' - population_generation p)
  | _, _ => None
  end.

(** The member counts [createInitialPopulation] hands out, type by
    type. *)
Fixpoint shareOut (types : list AgentType) (i agentsPerType remainder : Z) : nat :=
  match types with
  | [] => 0%nat
  | _ :: rest =>
      Nat.add (Z.to_nat (agentsPerType + (if i <? remainder then 1 else 0)))
              (shareOut rest (i + 1) agentsPerType remainder)
  end.

(** [a] may stand before [b] when archive entries are ranked by
    descending fitness. *)
Definition entryRanksBefore (a b : ArchiveEntry) : Prop :=
  (overall (fitnessMetrics b) <= overall (fitnessMetrics a))%Q.

(** The filters of a query taken together, the agent type aside: fitness
    bounds (inclusive), any of the tags, timestamp range (inclusive). *)
Definition satisfiesFilters (query : ArchiveQuery) (e : ArchiveEntry) : bool :=
  match minFitness query with
  | Some lo => Qle_bool lo (overall (fitnessMetrics e))
  | None => true
  end
  && match maxFitness query with
     | Some hi => Qle_bool (overall (fitnessMetrics e)) hi
     | None => true
     end
  && match q_tags query with
     | Some (tag :: tags) =>
         existsb (fun t => ArchiveManager.includes (entry_tags e) t) (tag :: tags)
     | _ => true
     end
  && match dateRange query with
     | Some range => (range_start range <=? entry_timestamp e)
                     && (entry_timestamp e <=? range_end range)
     | None => true
     end.

(** No filter on the agent type: the field is absent or empty. *)
Definition anyAgentType (query : ArchiveQuery) : Prop :=
  q_agentType query = None \/ q_agentType query = Some "".

(** A query for the entries that carry one of the given tags. *)
Definition tagQuery (tags : list string) (limit : option Z) : ArchiveQuery :=
  {| q_agentType := None; minFitness := None; maxFitness := None;
     q_tags := Some tags; q_parentId := None; dateRange := None;
     limit := limit; offset := None; sortBy := None |}.

(** A query that asks for one page of everything. *)
Definition pageQuery (from count : Z) : ArchiveQuery :=
  {| q_agentType := None; minFitness := None; maxFitness := None;
     q_tags := None; q_parentId := None; dateRange := None;
     limit := Some count; offset := Some from; sortBy := None |}.

(** A member apart from its elite mark. *)
Definition unmarked (m : PopulationAgent) : IAgent * FitnessScore * Z :=
  (agent m, fitness m, age m).

(** A version part: a string without a dot. *)
Fixpoint dotFree (s : string) : bool :=
  match s with
  | EmptyString => true
  | String c rest => negb (Ascii.eqb c "."%char) && dotFree rest
  end.

(** What [applyMutation] makes of an agent.  The version is described
    for versions of the form [major.minor.patch] with a decimal patch
    below 2^53, as the engine's own agents have them. *)
Record MutantOf (original mutant : IAgent) : Prop := {
  mutant_type : agent_type mutant = agent_type original;
  mutant_capabilities : capabilities mutant = capabilities original;
  mutant_state : agent_state mutant = agent_state original;
  mutant_plain : hasMethods mutant = false;
  mutant_version :
    forall (major minor : string) (patch : Z),
      dotFree major = true -> dotFree minor = true -> 0 <= patch < 2 ^ 53 ->
      agent_version original
      = (major ++ "." ++ minor ++ "." ++ showZ patch)%string ->
      agent_version mutant
      = (major ++ "." ++ minor ++ "." ++ showZ (patch + 1))%string;
  mutant_parent : parentId (metadata mutant) = Some (agent_id original);
  mutant_generation :
    meta_generation (metadata mutant) = meta_generation (metadata original) + 1;
  mutant_history :
    exists mutationId,
      String.prefix "mut_" mutationId = true
      /\ mutationHistory (metadata mutant)
         = mutationHistory (metadata original) ++ [mutationId];
  mutant_tags : meta_tags (metadata mutant) = meta_tags (metadata original);
  mutant_created : createdAt (metadata mutant) = createdAt (metadata original);
  mutant_id_generated : String.prefix "agent_" (agent_id mutant) = true
}.

(** The suites a benchmark run is about: all of them, or those of the
    given name. *)
Definition selectedSuites (suites : list FitnessEvaluator.BenchmarkSuite)
    (suiteName : option string) : list FitnessEvaluator.BenchmarkSuite :=
  match suiteName with
  | None | Some EmptyString => suites
  | Some name =>
      filter (fun s => String.eqb (FitnessEvaluator.suite_name s) name) suites
  end.

(** A host on which the evaluator's figures stay in range: quality
    scores reported by tasks lie in [0, 1], the clock does not run
    backwards, the process has memory in use and has spent at most 100
    seconds of cpu time. *)
Record CalmHost (h : Host) : Prop := {
  quality_in_unit :
    forall t a task result metrics q,
      host_execute h t a task = Return result ->
      result_metrics result = Some metrics ->
      qualityScore metrics = Some q -> inUnit q;
  clock_monotone :
    forall t t', (t <= t')%nat -> host_now h t <= host_now h t';
  memory_in_use :
    forall t usage, host_memoryUsage h t = Return usage ->
                    0 < rss usage /\ 0 <= external usage;
  cpu_moderate :
    forall t usage, host_cpuUsage h t = Return usage ->
                    0 <= cpu_user usage + cpu_system usage <= 100000000
}.

(** The number of members of a population that are not fitter than [m],
    [m] itself included when it is a member. *)
Definition notFitterThan (m : PopulationAgent) (population : list PopulationAgent)
  : nat :=
  length (filter (fun o => Qle_bool (overall (fitness o)) (overall (fitness m)))
                 population).

(** Total correctness of an engine operation: from a state that
    satisfies [P] it returns, with a value and a state that satisfy
    [Q]. *)
Definition Triple {A : Type} (P : Engine -> Prop) (m : Eff Engine A)
    (Q : A -> Engine -> Prop) : Prop :=
  forall s, P s -> exists a s', m s = (Return a, s') /\ Q a s'.

(** An engine that holds a population with a given property. *)
Definition Populated (R : Population -> Prop) (s : Engine) : Prop :=
  exists p, currentPopulation s = Some p /\ R p.

(** An engine whose population has [n] members and generation number
    [g]. *)
Definition Holds (n : nat) (g : Z) (s : Engine) : Prop :=
  Populated (fun p => length (agents p) = n /\ population_generation p = g) s.

(** An engine operation that leaves the population alone, whatever its
    outcome. *)
Definition KeepsPopulation {A : Type} (m : Eff Engine A) : Prop :=
  forall s r s', m s = (r, s') -> currentPopulation s' = currentPopulation s.

(** A cycle whose population holds class instances only. *)
Definition cycleOfInstances (c : EvolutionCycle) : Prop :=
  allInstances (agents (cycle_population c)).

(** A cycle that carries a population of generation [g]. *)
Definition fromGeneration (g : Z) (c : EvolutionCycle) : Prop :=
  population_generation (cycle_population c) = g.

(** The size one generation leaves to a population of [n] members when
    [parents] parents were selected: the elites and two children for
    each pair of parents, cut at [populationSize]. *)
Definition sizeAfterGeneration (config : EvolutionConfig) (n parents : nat) : nat :=
  let elites := Z.to_nat (floorMul n (elitismRate config)) in
  Nat.min (Z.to_nat (populationSize config)) (elites + 2 * (parents / 2)).

(** What is known of the number of parents selected in a population of
    [n] members: at most floor(n x crossoverRate) of them, and exactly
    as many unless the wheel selects. *)
Definition parentsOf (config : EvolutionConfig) (n parents : nat) : Prop :=
  (parents <= Z.to_nat (floorMul n (crossoverRate config)))%nat
  /\ (selectionStrategy config <> RouletteWheel ->
      parents = Z.to_nat (floorMul n (crossoverRate config))).

(** [count] is floor([n] x [rate]) up to the rounding of the product. *)
Definition aboutFloor (n : nat) (rate : Q) (count : nat) : Prop :=
  (inject_Z (Z.of_nat n) * rate - 2 < inject_Z (Z.of_nat count))%Q
  /\ (inject_Z (Z.of_nat count) < inject_Z (Z.of_nat n) * rate + 1)%Q.

(** The members [createInitialPopulation] hands to one type. *)
Fixpoint shareOf (wanted : AgentType) (types : list AgentType)
    (i agentsPerType remainder : Z) : nat :=
  match types with
  | [] => 0%nat
  | type :: rest =>
      Nat.add (if AgentType_eqb type wanted
               then Z.to_nat (agentsPerType + (if i <? remainder then 1 else 0))
               else 0%nat)
              (shareOf wanted rest (i + 1) agentsPerType remainder)
  end.

(** The members of a given agent type. *)
Definition ofType (type : AgentType) (members : list PopulationAgent)
  : list PopulationAgent :=
  filter (fun m => AgentType_eqb (agent_type (agent m)) type) members.

(** An agent apart from its state.  [execute] advances the counters in
    [agent.state]; the model does not follow them, and statements about
    what evaluation leaves alone are made about the other fields. *)
Definition apartFromState (a : IAgent)
  : string * AgentType * string * list AgentCapability * AgentMetadata * bool :=
  (agent_id a, agent_type a, agent_version a, capabilities a, metadata a,
   hasMethods a).

(** A decimal digit, and a string of decimal digits. *)
Definition isDecimalDigit (c : ascii) : bool :=
  let n := Z.of_nat (nat_of_ascii c) in (48 <=? n) && (n <=? 57).

Fixpoint digitsOnly (s : string) : bool :=
  match s with
  | EmptyString => true
  | String c rest => isDecimalDigit c && digitsOnly rest
  end.

(** * Properties *)

(** ** Arrays: slice and sort *)

Section ArrayFacts.
Context {A : Type}.

Lemma firstn_min_length (n : nat) (l : list A) :
  firstn (Nat.min n (length l)) l = firstn n l.
Proof.
  destruct (Nat.le_ge_cases n (length l)) as [Hle | Hge].
  - now rewrite Nat.min_l.
  - rewrite Nat.min_r by assumption.
    now rewrite firstn_all, firstn_all2.
Qed.

Lemma slice_prefix (n : Z) (l : list A) :
  0 <= n -> slice 0 n l = firstn (Z.to_nat n) l.
Proof.
  intros Hn. unfold slice.
  replace (0 <? 0) with false by reflexivity.
  destruct (Z.ltb_spec n 0) as [Hneg | _]; [lia |].
  replace (Z.min 0 (Z.of_nat (length l))) with 0 by lia.
  cbn [Z.to_nat skipn].
  replace (Z.to_nat (Z.max (Z.min n (Z.of_nat (length l)) - 0) 0))
    with (Nat.min (Z.to_nat n) (length l)) by lia.
  apply firstn_min_length.
Qed.

Lemma slice_prefix_length (n : Z) (l : list A) :
  0 <= n -> length (slice 0 n l) = Nat.min (Z.to_nat n) (length l).
Proof.
  intros Hn. rewrite slice_prefix by assumption. apply length_firstn.
Qed.

Lemma slice_length_le (a b : Z) (l : list A) :
  (length (slice a b l) <= length l)%nat.
Proof.
  unfold slice. rewrite length_firstn, length_skipn. lia.
Qed.

Lemma in_firstn (n : nat) (l : list A) (x : A) : In x (firstn n l) -> In x l.
Proof.
  intros Hin. rewrite <- (firstn_skipn n l). apply in_or_app. now left.
Qed.

Lemma in_skipn (n : nat) (l : list A) (x : A) : In x (skipn n l) -> In x l.
Proof.
  intros Hin. rewrite <- (firstn_skipn n l). apply in_or_app. now right.
Qed.

Lemma slice_incl (a b : Z) (l : list A) (x : A) :
  In x (slice a b l) -> In x l.
Proof.
  unfold slice. intros Hin.
  apply in_firstn in Hin. eapply in_skipn; eassumption.
Qed.

Variable cmp : A -> A -> Q.

Lemma insert_perm (x : A) (l : list A) : Permutation (insert cmp x l) (x :: l).
Proof.
  induction l as [| y ys IH]; cbn.
  - apply Permutation_refl.
  - destruct (Qle_bool (cmp x y) 0).
    + apply Permutation_refl.
    + eapply perm_trans; [apply perm_skip, IH | apply perm_swap].
Qed.

Lemma sort_perm (l : list A) : Permutation (sort cmp l) l.
Proof.
  induction l as [| x xs IH]; cbn.
  - apply perm_nil.
  - eapply perm_trans; [apply insert_perm | apply perm_skip, IH].
Qed.

Lemma sort_length (l : list A) : length (sort cmp l) = length l.
Proof. apply Permutation_length, sort_perm. Qed.

End ArrayFacts.
Lemma exampleHost_ok : HostOK exampleHost.
Proof.
  split.
  - intros t. cbn [host_random exampleHost].
    assert (Hb : 0 <= Z.of_nat (t mod 10) < 10).
    { pose proof (Nat.mod_upper_bound t 10). lia. }
    set (k := Z.of_nat (t mod 10)) in *.
    assert (H0 : (0 <= inject_Z k)%Q) by (unfold Qle; cbn; lia).
    assert (H1 : (inject_Z k < 10)%Q) by (unfold Qlt; cbn; lia).
    split.
    + apply Qle_shift_div_l; lra.
    + apply Qlt_shift_div_r; lra.
  - intros t l. apply Permutation_refl.
Qed.

(** ** SelectionStrategy *)

Section SelectionFacts.
Variable h : Host.

Lemma fold_sum_shift (l : list PopulationAgent) (init : Q) :
  (fold_left (fun sum a => sum + overall (fitness a)) l init
   == init + fold_left (fun sum a => sum + overall (fitness a)) l 0)%Q.
Proof.
  revert init. induction l as [| a rest IH]; intros init; cbn.
  - lra.
  - rewrite IH. rewrite (IH (0 + overall (fitness a))%Q). lra.
Qed.

Lemma totalFitnessOf_cons (a : PopulationAgent) (rest : list PopulationAgent) :
  (SelectionStrategy.totalFitnessOf (a :: rest)
   == overall (fitness a) + SelectionStrategy.totalFitnessOf rest)%Q.
Proof.
  unfold SelectionStrategy.totalFitnessOf, reduce. cbn.
  rewrite fold_sum_shift. lra.
Qed.

(** The walk finds a member as soon as the drawn value does not exceed
    the total of the fitness values it walks over. *)
Lemma spin_finds (l : list PopulationAgent) (value : Q) :
  l <> [] ->
  (value <= SelectionStrategy.totalFitnessOf l)%Q ->
  exists a, SelectionStrategy.spin l value = Some a /\ In a (map agent l).
Proof.
  revert value. induction l as [| m rest IH]; intros value Hne Hle.
  - contradiction.
  - cbn [SelectionStrategy.spin].
    destruct (Qle_bool (value - overall (fitness m)) 0) eqn:Hstop.
    + exists (agent m). split; [reflexivity | now left].
    + rewrite totalFitnessOf_cons in Hle.
      destruct rest as [| m' rest'].
      * exfalso.
        assert (Hgt : ~ (value - overall (fitness m) <= 0)%Q).
        { intros Hc. apply Qle_bool_iff in Hc. congruence. }
        apply Hgt. unfold SelectionStrategy.totalFitnessOf, reduce in Hle.
        cbn in Hle. lra.
      * destruct (IH (value - overall (fitness m))%Q) as [a [Ha Hin]].
        -- discriminate.
        -- lra.
        -- exists a. split; [exact Ha | now right].
Qed.

Lemma spin_member (l : list PopulationAgent) (value : Q) (a : IAgent) :
  SelectionStrategy.spin l value = Some a -> In a (map agent l).
Proof.
  revert value. induction l as [| m rest IH]; intros value; cbn.
  - discriminate.
  - destruct (Qle_bool _ 0).
    + intros [= <-]. now left.
    + intros Hs. right. eapply IH; eassumption.
Qed.

Lemma rouletteRounds_length_le (n : nat) (l : list PopulationAgent) (total : Q) (t : nat) :
  (length (fst (SelectionStrategy.rouletteRounds h n l total t)) <= n)%nat.
Proof.
  revert t. induction n as [| n IH]; intros t; cbn.
  - lia.
  - unfold gbind, random. 
    specialize (IH (S t)).
    destruct (SelectionStrategy.rouletteRounds h n l total (S t)) as [rest t'].
    cbn in IH |- *. unfold gret.
    destruct (SelectionStrategy.spin l _); cbn; lia.
Qed.

(** Every round of the wheel selects an agent when no drawn value can
    exceed the total. *)
Lemma rouletteRounds_full (n : nat) (l : list PopulationAgent) (t : nat) :
  (forall k, (host_random h k * SelectionStrategy.totalFitnessOf l
              <= SelectionStrategy.totalFitnessOf l)%Q) ->
  l <> [] ->
  length (fst (SelectionStrategy.rouletteRounds h n l
                 (SelectionStrategy.totalFitnessOf l) t)) = n.
Proof.
  intros Hdraw Hne. revert t. induction n as [| n IH]; intros t; cbn.
  - reflexivity.
  - unfold gbind, random.
    specialize (IH (S t)).
    destruct (SelectionStrategy.rouletteRounds h n l _ (S t)) as [rest t'].
    cbn in IH |- *. unfold gret.
    destruct (spin_finds l (host_random h t * SelectionStrategy.totalFitnessOf l)%Q
                Hne (Hdraw t))
      as [a [Ha _]].
    rewrite Ha. cbn. now rewrite IH.
Qed.

Lemma fitter_choice (best current : PopulationAgent) :
  SelectionStrategy.fitter best current = best
  \/ SelectionStrategy.fitter best current = current.
Proof.
  unfold SelectionStrategy.fitter. destruct (Qltb _ _); auto.
Qed.

Lemma fold_fitter_in (l : list PopulationAgent) (start : PopulationAgent) :
  In (fold_left SelectionStrategy.fitter l start) (start :: l).
Proof.
  revert start. induction l as [| x xs IH]; intros start; cbn [fold_left].
  - now left.
  - destruct (IH (SelectionStrategy.fitter start x)) as [Heq | Hin].
    + rewrite <- Heq.
      destruct (fitter_choice start x) as [Hc | Hc]; rewrite Hc.
      * now left.
      * right. now left.
    + right. now right.
Qed.

Lemma tournamentRounds_returns (n : nat) (l : list PopulationAgent)
    (size : Z) (t : nat) :
  HostOK h -> l <> [] -> 1 <= size ->
  exists selected t',
    SelectionStrategy.tournamentRounds h n l size t = (Return selected, t')
    /\ length selected = n
    /\ Forall (fun a => In a (map agent l)) selected.
Proof.
  intros Hok Hne Hsize. revert t.
  induction n as [| n IH]; intros t; cbn [SelectionStrategy.tournamentRounds].
  - exists [], t. repeat split. constructor.
  - unfold bind at 1, liftGen, SelectionStrategy.selectRandomAgents,
      gbind, shuffle, gret.
    pose proof (shuffle_perm h Hok t l) as Hperm.
    rewrite slice_prefix by lia.
    destruct (host_shuffle h t l) as [| x xs] eqn:Hsh.
    { apply Permutation_nil in Hperm. contradiction. }
    destruct (Z.to_nat size) as [| k] eqn:Hk; [lia |].
    cbn [firstn]. unfold bind at 1. cbn [reduce1].
    destruct (IH (S t)) as [rest [t' [Hrun [Hlen Hall]]]].
    unfold bind at 1. rewrite Hrun. unfold ret.
    eexists _, _. split; [reflexivity |]. split; [cbn; congruence |].
    constructor; [| exact Hall].
    apply in_map.
    apply (Permutation_in _ Hperm). 
    pose proof (fold_fitter_in (firstn k xs) x) as [Heq | Hin].
    + rewrite <- Heq. now left.
    + right. eapply in_firstn; eassumption.
Qed.

Lemma rouletteRounds_members (n : nat) (l : list PopulationAgent) (total : Q)
    (t : nat) :
  Forall (fun a => In a (map agent l))
         (fst (SelectionStrategy.rouletteRounds h n l total t)).
Proof.
  revert t. induction n as [| n IH]; intros t; cbn.
  - constructor.
  - unfold gbind, random. specialize (IH (S t)).
    destruct (SelectionStrategy.rouletteRounds h n l total (S t)) as [rest t'].
    cbn in IH |- *. unfold gret.
    destruct (SelectionStrategy.spin l _) eqn:Hs; cbn; [| exact IH].
    constructor; [eapply spin_member; eassumption | exact IH].
Qed.

End SelectionFacts.

(** C5, amended: [select] knows no InsufficientPopulation error, and what
    it returns for [0 <= count] depends on the algorithm.  Every agent
    returned is a member of the population.
    - Rank selection never throws and returns min(count, size) agents:
      the whole population when [count] is larger.
    - The wheel never throws and returns at most [count] agents; a round
      in which the walk over the members ends above 0 selects nobody.
    - Tournament (also taken for the other strategy names) returns
      exactly [count] agents from a non-empty population, with
      repetitions when [count] is larger than the size; on an empty
      population it returns no agent for [count = 0] and throws the
      TypeError of [reduce] on an empty array for [count >= 1]. *)
Theorem select_returns_count (h : Host) (config : EvolutionConfig)
    (population : list PopulationAgent) (count : Z) (t : nat) :
  HostOK h ->
  0 <= count ->
  let size := Z.of_nat (length population) in
  let outcome := SelectionStrategy.select h config population count t in
  let members selected := Forall (fun a => In a (map agent population)) selected in
  match selectionStrategy config with
  | Rank =>
      exists selected,
        outcome = (Return selected, t)
        /\ members selected
        /\ Z.of_nat (length selected) = Z.min count size
  | RouletteWheel =>
      exists selected t',
        outcome = (Return selected, t')
        /\ members selected
        /\ Z.of_nat (length selected) <= count
  | _ =>
      (population <> [] ->
       exists selected t',
         outcome = (Return selected, t')
         /\ members selected
         /\ Z.of_nat (length selected) = count)
      /\ (population = [] -> 1 <= count ->
          fst outcome
          = Throw (TypeError "Reduce of empty array with no initial value"))
      /\ (count = 0 -> fst outcome = Return [])
  end.
Proof.
  intros Hok Hcount size outcome members. subst size outcome members.
  assert (Htour :
            (population <> [] ->
             exists selected t',
               SelectionStrategy.tournamentSelection h population count t
               = (Return selected, t')
               /\ Forall (fun a => In a (map agent population)) selected
               /\ Z.of_nat (length selected) = count)
            /\ (population = [] -> 1 <= count ->
                fst (SelectionStrategy.tournamentSelection h population count t)
                = Throw (TypeError "Reduce of empty array with no initial value"))
            /\ (count = 0 ->
                fst (SelectionStrategy.tournamentSelection h population count t)
                = Return [])).
  { unfold SelectionStrategy.tournamentSelection. split; [| split].
    - intros Hne.
      destruct (tournamentRounds_returns h (Z.to_nat count) population
                  (Z.max 2 (floorMul (length population) (1 # 10))) t Hok Hne)
        as [selected [t' [Hrun [Hlen Hall]]]]; [lia |].
      exists selected, t'. repeat split; [exact Hrun | exact Hall | lia].
    - intros -> Hone.
      destruct (Z.to_nat count) as [| rounds] eqn:Hrounds; [lia |].
      cbn [SelectionStrategy.tournamentRounds].
      unfold bind at 1, liftGen, SelectionStrategy.selectRandomAgents, gbind,
        shuffle, gret.
      pose proof (shuffle_perm h Hok t []) as Hperm.
      apply Permutation_sym, Permutation_nil in Hperm. rewrite Hperm.
      reflexivity.
    - intros ->. reflexivity. }
  unfold SelectionStrategy.select.
  destruct (selectionStrategy config) eqn:Hstrategy; try exact Htour.
  - (* roulette wheel *)
    unfold liftGen, SelectionStrategy.rouletteWheelSelection.
    pose proof (rouletteRounds_members h (Z.to_nat count) population
                  (SelectionStrategy.totalFitnessOf population) t) as Hall.
    pose proof (rouletteRounds_length_le h (Z.to_nat count) population
                  (SelectionStrategy.totalFitnessOf population) t) as Hlen.
    destruct (SelectionStrategy.rouletteRounds h _ _ _ t) as [selected t'].
    cbn in Hall, Hlen. exists selected, t'. repeat split; auto; lia.
  - (* rank *)
    unfold ret, SelectionStrategy.rankSelection.
    eexists. split; [reflexivity |].
    split.
    + apply Forall_forall. intros a Hin.
      apply in_map_iff in Hin. destruct Hin as [m [<- Hin]].
      apply in_map. apply slice_incl in Hin.
      eapply Permutation_in; [apply sort_perm | exact Hin].
    + rewrite length_map, slice_prefix_length, sort_length by assumption. lia.
Qed.

(** A witness: three from a population of three, by tournament. *)
Lemma select_returns_count_witness :
  exists selected t',
    SelectionStrategy.select exampleHost exampleConfig
      [memberOf agentA (1 # 2); memberOf agentB (3 # 4); memberOf agentA (1 # 4)]
      3 0%nat
    = (Return selected, t')
    /\ Z.of_nat (length selected) = 3.
Proof.
  destruct (select_returns_count exampleHost exampleConfig
              [memberOf agentA (1 # 2); memberOf agentB (3 # 4);
               memberOf agentA (1 # 4)] 3 0%nat exampleHost_ok ltac:(lia))
    as [Hreturns _].
  destruct (Hreturns ltac:(discriminate)) as [selected [t' [Hrun [_ Hlen]]]].
  exists selected, t'. split; [exact Hrun | exact Hlen].
Defined.

(** C5 as stated fails on both counts.  Asking for 2 agents from a
    population of 1 is no error: rank selection returns the one agent,
    tournament and wheel return it twice.  Asking for 1 agent from an
    empty population fails in the tournament, but with the TypeError of
    [reduce], not with InsufficientPopulation.  And with [count] equal to
    the population size the wheel can return fewer agents: a member of
    negative fitness (the evaluator can produce one) is never reached by
    the walk. *)
Lemma select_beyond_population_size :
  SelectionStrategy.select exampleHost rankConfig [memberOf agentA (1 # 2)] 2 0%nat
    = (Return [agentA], 0%nat)
  /\ SelectionStrategy.select exampleHost exampleConfig [memberOf agentA (1 # 2)] 2 0%nat
    = (Return [agentA; agentA], 2%nat)
  /\ SelectionStrategy.select exampleHost rouletteConfig [memberOf agentA (1 # 2)] 2 0%nat
    = (Return [agentA; agentA], 2%nat)
  /\ SelectionStrategy.select exampleHost exampleConfig [] 1 0%nat
    = (Throw (TypeError "Reduce of empty array with no initial value"), 1%nat)
  /\ SelectionStrategy.select exampleHost rouletteConfig
       [memberOf agentA (- (1 # 2))] 1 0%nat
    = (Return [], 1%nat).
Proof. repeat split; vm_compute; reflexivity. Qed.

Lemma rouletteRounds_first (h : Host) (n : nat) (first : PopulationAgent)
    (rest : list PopulationAgent) (total : Q) (t : nat) :
  (0 <= overall (fitness first))%Q ->
  (total == 0)%Q ->
  fst (SelectionStrategy.rouletteRounds h n (first :: rest) total t)
  = repeat (agent first) n.
Proof.
  intros Hfirst Htotal. revert t. induction n as [| n IH]; intros t; cbn.
  - reflexivity.
  - unfold gbind, random. specialize (IH (S t)).
    destruct (SelectionStrategy.rouletteRounds h n (first :: rest) total (S t))
      as [more t'].
    cbn in IH |- *. unfold gret.
    replace (Qle_bool (host_random h t * total - overall (fitness first)) 0)
      with true.
    + cbn. now rewrite IH.
    + symmetry. apply Qle_bool_iff. rewrite Htotal. lra.
Qed.

(** C6, amended: on a non-empty population whose total fitness is 0 the
    wheel ends and returns exactly [count] agents (for [0 <= count]),
    whatever numbers the host draws.  There is no uniform fallback: when
    the first member's fitness is not negative (as when all fitness
    values are 0), every agent selected is that first member. *)
Theorem roulette_zero_total_picks_first (h : Host) (first : PopulationAgent)
    (rest : list PopulationAgent) (count : Z) (t : nat) :
  (SelectionStrategy.totalFitnessOf (first :: rest) == 0)%Q ->
  0 <= count ->
  let selected :=
    fst (SelectionStrategy.rouletteWheelSelection h (first :: rest) count t) in
  Z.of_nat (length selected) = count
  /\ ((0 <= overall (fitness first))%Q ->
      selected = repeat (agent first) (Z.to_nat count)).
Proof.
  intros Htotal Hcount selected. subst selected.
  unfold SelectionStrategy.rouletteWheelSelection. split.
  - rewrite rouletteRounds_full; [lia | | discriminate].
    intros k. rewrite Htotal. lra.
  - intros Hfirst. now apply rouletteRounds_first.
Qed.

Lemma roulette_zero_total_picks_first_witness :
  fst (SelectionStrategy.rouletteWheelSelection exampleHost
         [memberOf agentA 0; memberOf agentB 0] 3 0%nat)
  = [agentA; agentA; agentA].
Proof.
  apply (roulette_zero_total_picks_first exampleHost (memberOf agentA 0)
           [memberOf agentB 0] 3 0%nat).
  - vm_compute. reflexivity.
  - lia.
  - cbn. lra.
Defined.

(** C6 as stated fails: with two members of fitness 0 the second one is
    never selected, for any host and any draw, so the choice is not uniform over
    the population. *)
Lemma roulette_zero_total_not_uniform :
  agentB <> agentA
  /\ ~ exists (h : Host) (t : nat),
         In agentB (fst (SelectionStrategy.rouletteWheelSelection h
                           [memberOf agentA 0; memberOf agentB 0] 2 t)).
Proof.
  split; [discriminate |].
  intros [h [t Hin]].
  unfold SelectionStrategy.rouletteWheelSelection in Hin.
  rewrite rouletteRounds_first in Hin.
  - cbn in Hin. destruct Hin as [H | [H | []]]; discriminate.
  - cbn. lra.
  - vm_compute. reflexivity.
Qed.
(** ** CrossoverOperator *)

Lemma slice_first {A : Type} (l : list A) :
  slice 0 1 l = match l with [] => [] | x :: _ => [x] end.
Proof.
  rewrite slice_prefix by lia. now destruct l.
Qed.

Lemma createChild_spec (h : Host) (primary secondary : IAgent) (w1 w2 : Q) (t : nat) :
  ChildOf primary secondary
    (fst (CrossoverOperator.createChild h primary secondary w1 w2 t))
  /\ snd (CrossoverOperator.createChild h primary secondary w1 w2 t) = S (S t).
Proof.
  unfold CrossoverOperator.createChild, CrossoverOperator.generateChildId,
    gbind, gret, now, randomSuffix. cbn [fst snd].
  split; [| reflexivity].
  constructor; cbn; try reflexivity.
  - now rewrite slice_first.
  - now destruct (showZ (host_now h t) ++ _)%string.
Qed.

Lemma prefix_differs (p s1 s2 : string) :
  String.prefix p s1 = true -> String.prefix p s2 = false -> s1 <> s2.
Proof. intros H1 H2 Heq. subst. congruence. Qed.

(** C8, amended: [crossover] returns exactly two children.  Each takes type,
    state and creation stamps from its primary parent, gets the primary's
    capabilities followed by the other parent's first capability when
    that parent has one (none is added otherwise), has generation
    max + 1, version 1.0.0, and an id built as child_<time>_<suffix> from
    the clock and a random draw; that id differs from every id that does
    not start with child_. *)
Theorem crossover_children (h : Host) (parent1 parent2 : IAgent) (t : nat) :
  exists child1 child2 : IAgent,
    CrossoverOperator.crossover h parent1 parent2 t = ([child1; child2], (t + 4)%nat)
    /\ ChildOf parent1 parent2 child1
    /\ ChildOf parent2 parent1 child2
    /\ forall other : IAgent,
         String.prefix "child_" (agent_id other) = false ->
         agent_id child1 <> agent_id other /\ agent_id child2 <> agent_id other.
Proof.
  destruct (createChild_spec h parent1 parent2 (7 # 10) (3 # 10) t) as [H1 T1].
  destruct (createChild_spec h parent2 parent1 (7 # 10) (3 # 10) (S (S t))) as [H2 T2].
  unfold CrossoverOperator.crossover, gbind, gret.
  destruct (CrossoverOperator.createChild h parent1 parent2 _ _ t) as [child1 t1].
  cbn [fst snd] in H1, T1. subst t1.
  destruct (CrossoverOperator.createChild h parent2 parent1 _ _ (S (S t)))
    as [child2 t2].
  cbn [fst snd] in H2, T2. subst t2.
  exists child1, child2. split.
  - f_equal. lia.
  - split; [exact H1 |]. split; [exact H2 |].
    intros other Hother. split.
    + exact (prefix_differs _ _ _ (child_id_generated _ _ _ H1) Hother).
    + exact (prefix_differs _ _ _ (child_id_generated _ _ _ H2) Hother).
Qed.

(** C8 as stated fails on two counts.  The second parent [agentB] has no
    capability, so the first child borrows none; and the first parent's
    id is the very string the host's clock and draw produce, so the first
    child's id is not distinct from it. *)
Lemma crossover_borrows_nothing_and_reuses_id :
  map capabilities (fst (CrossoverOperator.crossover exampleHost skilledAgent agentB 0%nat))
    = [capabilities skilledAgent; [someCapability]]
  /\ map agent_id (fst (CrossoverOperator.crossover exampleHost skilledAgent agentB 0%nat))
    = [agent_id skilledAgent; "child_1002_3"].
Proof. split; vm_compute; reflexivity. Qed.
(** ** ArchiveManager *)

Lemma filter_twice {A : Type} (f g : A -> bool) (l : list A) :
  filter g (filter f l) = filter (fun x => f x && g x) l.
Proof.
  induction l as [| x xs IH]; cbn; [reflexivity |].
  destruct (f x); cbn; [destruct (g x) |]; now rewrite IH.
Qed.

Lemma sortEntries_perm (l : list ArchiveEntry) (sortBy : option SortCriteria) :
  Permutation (ArchiveManager.sortEntries l sortBy) l.
Proof.
  unfold ArchiveManager.sortEntries.
  destruct sortBy as [[] |]; try apply sort_perm; apply Permutation_refl.
Qed.

(** C9, amended: for a fitness-range query, [totalCount] is the number of
    entries the brute-force filter keeps, and the returned entries are
    one page of them: the filtered entries sorted (by descending fitness
    unless asked otherwise), cut to [offset, offset + limit) with offset
    0 and limit 50 by default.  Every returned entry passes the filter;
    with default paging and at most 50 matches the page is the whole
    filtered set. *)
Theorem search_fitness_range (a : Archive) (lo hi : Q)
    (limit offset : option Z) (sortBy : option SortCriteria) :
  let found := ArchiveManager.search a (fitnessRangeQuery lo hi limit offset sortBy) in
  let matching := bruteForce a lo hi in
  let from := ArchiveManager.orElse offset 0 in
  let count := ArchiveManager.orElse limit 50 in
  totalCount found = Z.of_nat (length matching)
  /\ result_entries found
     = slice from (from + count) (ArchiveManager.sortEntries matching sortBy)
  /\ (forall e, In e (result_entries found) -> In e matching)
  /\ (limit = None -> offset = None -> (length matching <= 50)%nat ->
      Permutation (result_entries found) matching).
Proof.
  intros found matching from count.
  assert (Hentries : result_entries found
                     = slice from (from + count)
                         (ArchiveManager.sortEntries matching sortBy)).
  { subst found matching from count.
    unfold ArchiveManager.search, fitnessRangeQuery, bruteForce. cbn.
    now rewrite filter_twice. }
  assert (Hcount : totalCount found = Z.of_nat (length matching)).
  { subst found matching.
    unfold ArchiveManager.search, fitnessRangeQuery, bruteForce. cbn.
    rewrite filter_twice.
    f_equal. apply Permutation_length, sortEntries_perm. }
  split; [exact Hcount |]. split; [exact Hentries |]. split.
  - intros e Hin. rewrite Hentries in Hin. apply slice_incl in Hin.
    eapply Permutation_in; [apply sortEntries_perm | exact Hin].
  - intros Hlimit Hoffset Hsmall. rewrite Hentries.
    subst from count. rewrite Hlimit, Hoffset. cbn [ArchiveManager.orElse].
    rewrite slice_prefix by lia.
    rewrite firstn_all2.
    + apply sortEntries_perm.
    + rewrite (Permutation_length (sortEntries_perm matching sortBy)).
      change (Z.to_nat (0 + 50)) with 50%nat. exact Hsmall.
Qed.

(** C9 as stated fails: 51 stored entries lie in the range [0, 1], the
    brute-force filter keeps all 51 and [totalCount] says 51, yet
    [search] returns 50 entries. *)
Lemma search_returns_one_page :
  let found := ArchiveManager.search fullArchive
                 (fitnessRangeQuery 0 1 None None None) in
  length (bruteForce fullArchive 0 1) = 51%nat
  /\ totalCount found = 51
  /\ length (result_entries found) = 50%nat
  /\ hasMore found = true.
Proof. vm_compute. repeat split. Qed.
(** ** PopulationManager and the Replacement phase *)

Section PopulationFacts.
Variable h : Host.

Lemma createInitialFitness_overall (t : nat) :
  overall (fst (PopulationManager.createInitialFitness h t))
  = ((3 # 10) + host_random h t * (4 # 10))%Q.
Proof. reflexivity. Qed.

Lemma populationAgentsFrom_agents (l : list IAgent) (i : Z) (total t : nat) :
  map agent (fst (PopulationManager.populationAgentsFrom h l i total t)) = l.
Proof.
  revert i t. induction l as [| a rest IH]; intros i t;
    cbn [PopulationManager.populationAgentsFrom].
  - reflexivity.
  - unfold gbind, gret.
    destruct (PopulationManager.createInitialFitness h t) as [f t1].
    specialize (IH (i + 1) t1).
    destruct (PopulationManager.populationAgentsFrom h rest (i + 1) total t1)
      as [more t2].
    cbn in IH |- *. now rewrite IH.
Qed.

Lemma populationAgentsFrom_fresh (l : list IAgent) (i : Z) (total t : nat) :
  HostOK h ->
  Forall freshlyDrawn (fst (PopulationManager.populationAgentsFrom h l i total t)).
Proof.
  intros Hok. revert i t. induction l as [| a rest IH]; intros i t;
    cbn [PopulationManager.populationAgentsFrom].
  - constructor.
  - unfold gbind, gret.
    pose proof (createInitialFitness_overall t) as Hdraw.
    destruct (PopulationManager.createInitialFitness h t) as [f t1].
    specialize (IH (i + 1) t1).
    destruct (PopulationManager.populationAgentsFrom h rest (i + 1) total t1)
      as [more t2].
    cbn in IH, Hdraw |- *. constructor; [| exact IH].
    destruct (random_range h Hok t) as [H0 H1].
    unfold freshlyDrawn. cbn. rewrite Hdraw. repeat split; lra.
Qed.

Lemma createPopulation_spec (l : list IAgent) (generation : Z) (t : nat) :
  let p := fst (PopulationManager.createPopulation h l generation t) in
  map agent (agents p) = l
  /\ population_generation p = generation
  /\ (HostOK h -> Forall freshlyDrawn (agents p)).
Proof.
  unfold PopulationManager.createPopulation, gbind.
  pose proof (populationAgentsFrom_agents l 0 (length l) t) as Hagents.
  pose proof (populationAgentsFrom_fresh l 0 (length l) t) as Hfresh.
  destruct (PopulationManager.populationAgentsFrom h l 0 (length l) t)
    as [members t1].
  cbn in Hagents, Hfresh |- *. auto.
Qed.

End PopulationFacts.

Section ReplacementFacts.
Variable h : Host.
Variable config : EvolutionConfig.

(** What [replacePopulation] leaves behind. *)
Lemma replacePopulation_spec (newAgents : list IAgent) (s : Engine) (p : Population) :
  currentPopulation s = Some p ->
  exists (s' : Engine) (next : Population),
    EvolutionEngine.replacePopulation h config newAgents s
    = (Return (Some (EvolutionEngine.withAgents
                       (sort byFitnessDesc (agents p)) p)), s')
    /\ currentPopulation s' = Some next
    /\ map agent (agents next) = EvolutionEngine.nextAgents config p newAgents
    /\ population_generation next = population_generation p + 1
    /\ (HostOK h -> Forall freshlyDrawn (agents next))
    /\ history s' = history s /\ isRunning s' = isRunning s
    /\ shouldStop s' = shouldStop s /\ archive s' = archive s
    /\ currentCycle s' = currentCycle s.
Proof.
  intros Hp.
  unfold EvolutionEngine.replacePopulation, bind at 1, EvolutionEngine.get.
  rewrite Hp.
  unfold bind at 1, EvolutionEngine.onTick, liftGen.
  pose proof (createPopulation_spec h (EvolutionEngine.nextAgents config p newAgents)
                (population_generation p + 1) (tick s)) as Hspec.
  destruct (PopulationManager.createPopulation h _ _ (tick s)) as [next t1].
  cbn [fst] in Hspec. destruct Hspec as [Hagents [Hgen Hfresh]].
  cbn. eexists _, next. split; [reflexivity |].
  cbn. repeat split; auto.
Qed.

Lemma elitesOf_length (p : Population) :
  (0 <= elitismRate config)%Q ->
  length (EvolutionEngine.elitesOf config p)
  = Nat.min (Z.to_nat (floorMul (length (agents p)) (elitismRate config)))
            (length (agents p)).
Proof.
  intros Hrate. unfold EvolutionEngine.elitesOf.
  rewrite length_map, slice_prefix_length, sort_length; [reflexivity |].
  unfold floorMul.
  change 0 with (Qfloor 0). apply Qfloor_resp_le.
  apply Qmult_le_0_compat; [| exact Hrate].
  unfold Qle; cbn; lia.
Qed.

(** X5: Replacement never holds more than [populationSize] members: the
    new population is the elites followed by the offspring, cut at
    [populationSize], which makes min(populationSize, elites + offspring)
    members. *)
Theorem replacement_population_size (newAgents : list IAgent) (s : Engine)
    (p : Population) :
  currentPopulation s = Some p ->
  0 <= populationSize config ->
  exists (old : option Population) (s' : Engine) (next : Population),
    EvolutionEngine.replacePopulation h config newAgents s = (Return old, s')
    /\ currentPopulation s' = Some next
    /\ Z.of_nat (length (agents next))
       = Z.min (populationSize config)
               (Z.of_nat (length (EvolutionEngine.elitesOf config p)
                          + length newAgents))
    /\ Z.of_nat (length (agents next)) <= populationSize config.
Proof.
  intros Hp Hsize.
  destruct (replacePopulation_spec newAgents s p Hp)
    as [s' [next [Hrun [Hnext [Hagents _]]]]].
  eexists _, s', next. split; [exact Hrun |]. split; [exact Hnext |].
  assert (Hlen : Z.of_nat (length (agents next))
                 = Z.min (populationSize config)
                     (Z.of_nat (length (EvolutionEngine.elitesOf config p)
                                + length newAgents))).
  { rewrite <- (length_map agent), Hagents.
    unfold EvolutionEngine.nextAgents.
    rewrite slice_prefix_length, length_app by assumption. lia. }
  split; [exact Hlen | lia].
Qed.

End ReplacementFacts.

Lemma replacement_population_size_witness :
  exists (old : option Population) (s' : Engine) (next : Population),
    EvolutionEngine.replacePopulation exampleHost exampleConfig
      [agentA; agentB]
      (engineWith [memberOf agentA (1 # 2); memberOf agentB (3 # 4)])
    = (Return old, s')
    /\ currentPopulation s' = Some next
    /\ Z.of_nat (length (agents next)) = 2.
Proof.
  destruct (replacement_population_size exampleHost exampleConfig
              [agentA; agentB]
              (engineWith [memberOf agentA (1 # 2); memberOf agentB (3 # 4)])
              (populationOf [memberOf agentA (1 # 2); memberOf agentB (3 # 4)])
              eq_refl)
    as [old [s' [next [Hrun [Hnext [Hlen _]]]]]].
  - vm_compute. discriminate.
  - exists old, s', next. split; [exact Hrun |]. split; [exact Hnext |].
    rewrite Hlen. vm_compute. reflexivity.
Defined.

(** C1: the population is not kept at [populationSize]. With the target
    size 10 and a population of 10 members, Replacement with the 6
    offspring of 7 parents leaves 1 elite + 6 offspring = 7 members: the
    shortfall is not made up with new agents. A whole [evolve(1)] leaves
    7 as well, and [evolve(4)] leaves the population empty. *)
Lemma replacement_leaves_population_short :
  populationSize exampleConfig = 10
  /\ sizeOfPopulation exampleEngine = Some 10%nat
  /\ sizeOfPopulation
       (snd (EvolutionEngine.replacePopulation exampleHost exampleConfig
               (fst (EvolutionEngine.crossoverPairs exampleHost
                       (repeat agentA 7) 0%nat))
               exampleEngine)) = Some 7%nat
  /\ sizeOfPopulation
       (snd (EvolutionEngine.evolve exampleHost exampleConfig 1 exampleEngine))
     = Some 7%nat
  /\ sizeOfPopulation
       (snd (EvolutionEngine.evolve exampleHost exampleConfig 4 exampleEngine))
     = Some 0%nat.
Proof. vm_compute. repeat split. Qed.

(** ** Elitism *)

Lemma insert_ranked (x : PopulationAgent) (l : list PopulationAgent) :
  StronglySorted ranksBefore l ->
  StronglySorted ranksBefore (insert byFitnessDesc x l).
Proof.
  induction 1 as [| y ys Hsorted IH Hall]; cbn.
  - constructor; constructor.
  - unfold byFitnessDesc at 1.
    destruct (Qle_bool (overall (fitness y) - overall (fitness x)) 0) eqn:Hcmp.
    + apply Qle_bool_iff in Hcmp.
      constructor; [constructor; assumption |].
      constructor.
      * unfold ranksBefore. lra.
      * eapply Forall_impl; [| exact Hall].
        unfold ranksBefore. intros z Hz. lra.
    + assert (Hlt : (overall (fitness x) < overall (fitness y))%Q).
      { apply Qnot_le_lt. intros Hle.
        assert (Hc : Qle_bool (overall (fitness y) - overall (fitness x)) 0 = true)
          by (apply Qle_bool_iff; lra).
        congruence. }
      constructor; [exact IH |].
      eapply Permutation_Forall.
      * apply Permutation_sym, insert_perm.
      * constructor; [unfold ranksBefore; lra | exact Hall].
Qed.

Lemma sort_ranked (l : list PopulationAgent) :
  StronglySorted ranksBefore (sort byFitnessDesc l).
Proof.
  induction l as [| x xs IH]; cbn.
  - constructor.
  - now apply insert_ranked.
Qed.

Lemma ranked_split (l1 l2 : list PopulationAgent) :
  StronglySorted ranksBefore (l1 ++ l2) ->
  forall a b, In a l1 -> In b l2 -> ranksBefore a b.
Proof.
  induction l1 as [| x xs IH]; cbn; intros Hsorted a b Ha Hb.
  - contradiction.
  - apply StronglySorted_inv in Hsorted. destruct Hsorted as [Hrest Hall].
    destruct Ha as [<- | Ha].
    + rewrite Forall_forall in Hall. apply Hall, in_or_app. now right.
    + now apply IH.
Qed.

(** Equal fitness: the sort keeps the order the population had. *)
Lemma sort_ties_keep_order (x : PopulationAgent) (l : list PopulationAgent) :
  Forall (fun y => (overall (fitness y) == overall (fitness x))%Q) l ->
  sort byFitnessDesc (x :: l) = x :: sort byFitnessDesc l.
Proof.
  intros Hties. cbn [sort].
  assert (Hsorted : Forall (fun y => (overall (fitness y) == overall (fitness x))%Q)
                           (sort byFitnessDesc l)).
  { eapply Permutation_Forall; [apply Permutation_sym, sort_perm | exact Hties]. }
  destruct (sort byFitnessDesc l) as [| y ys]; [reflexivity |].
  cbn. unfold byFitnessDesc at 1.
  inversion Hsorted as [| ? ? Hy _]; subst.
  replace (Qle_bool (overall (fitness y) - overall (fitness x)) 0) with true;
    [reflexivity |].
  symmetry. apply Qle_bool_iff. lra.
Qed.

Section ElitismFacts.
Variable h : Host.
Variable config : EvolutionConfig.

(** C2, amended: the elites are the first floor(size * elitismRate) members
    of the population sorted by descending fitness.overall with a stable
    sort (no member outside ranks above one inside).  When that count
    lies between 0 and [populationSize], the same agents, hence the
    same ids, are the leading members of the next generation, in rank
    order.  Their fitness is not carried over: every member of the new
    population has age 0 and a freshly drawn fitness with
    0.3 <= overall <= 0.7. *)
Theorem elites_lead_next_generation (newAgents : list IAgent) (s : Engine)
    (p : Population) :
  HostOK h ->
  currentPopulation s = Some p ->
  0 <= floorMul (length (agents p)) (elitismRate config) <= populationSize config ->
  let eliteCount := Z.to_nat (floorMul (length (agents p)) (elitismRate config)) in
  let ranked := sort byFitnessDesc (agents p) in
  exists (old : option Population) (s' : Engine) (next : Population),
    EvolutionEngine.replacePopulation h config newAgents s = (Return old, s')
    /\ currentPopulation s' = Some next
    /\ population_generation next = population_generation p + 1
    /\ EvolutionEngine.elitesOf config p = map agent (firstn eliteCount ranked)
    /\ (forall inside outside,
          In inside (firstn eliteCount ranked) ->
          In outside (skipn eliteCount ranked) ->
          (overall (fitness outside) <= overall (fitness inside))%Q)
    /\ firstn (length (EvolutionEngine.elitesOf config p)) (map agent (agents next))
       = EvolutionEngine.elitesOf config p
    /\ Forall freshlyDrawn (agents next).
Proof.
  intros Hok Hp [Hlow Hhigh] eliteCount ranked.
  destruct (replacePopulation_spec h config newAgents s p Hp)
    as [s' [next [Hrun [Hnext [Hagents [Hgen [Hfresh _]]]]]]].
  assert (Helites : EvolutionEngine.elitesOf config p
                    = map agent (firstn eliteCount ranked)).
  { unfold EvolutionEngine.elitesOf. now rewrite slice_prefix. }
  eexists _, s', next.
  split; [exact Hrun |]. split; [exact Hnext |]. split; [exact Hgen |].
  split; [exact Helites |]. split; [| split; [| auto]].
  - intros inside outside Hin Hout.
    apply (ranked_split (firstn eliteCount ranked) (skipn eliteCount ranked));
      [| exact Hin | exact Hout].
    rewrite firstn_skipn. apply sort_ranked.
  - rewrite Hagents. unfold EvolutionEngine.nextAgents.
    assert (Hshort : (length (EvolutionEngine.elitesOf config p)
                      <= Z.to_nat (populationSize config))%nat).
    { rewrite Helites, length_map, length_firstn. subst eliteCount. lia. }
    rewrite slice_prefix by lia.
    rewrite firstn_firstn, Nat.min_l by exact Hshort.
    rewrite firstn_app, firstn_all, Nat.sub_diag, firstn_0.
    apply app_nil_r.
Qed.

End ElitismFacts.

Lemma elites_lead_next_generation_witness :
  exists (s' : Engine) (next : Population),
    snd (EvolutionEngine.replacePopulation exampleHost halfEliteConfig []
           (engineWith tiedPair)) = s'
    /\ currentPopulation s' = Some next
    /\ map agent (agents next) = [agentB]
    /\ Forall freshlyDrawn (agents next).
Proof.
  destruct (elites_lead_next_generation exampleHost halfEliteConfig []
              (engineWith tiedPair) (populationOf tiedPair) exampleHost_ok eq_refl)
    as [old [s' [next [Hrun [Hnext [_ [Helites [_ [Hlead Hfresh]]]]]]]]].
  - vm_compute. split; discriminate.
  - exists s', next. rewrite Hrun. split; [reflexivity |].
    split; [exact Hnext |]. split; [| exact Hfresh].
    assert (Hmap : map agent (agents next)
                   = EvolutionEngine.nextAgents halfEliteConfig
                       (populationOf tiedPair) []).
    { clear - Hrun Hnext. vm_compute in Hrun. injection Hrun as _ <-.
      vm_compute in Hnext. injection Hnext as <-. vm_compute. reflexivity. }
    rewrite Hmap. vm_compute. reflexivity.
Defined.

(** C2 as stated fails.  Of two members tied at 0.9 the elite is the one
    standing first in the population, [agent_b], not the one with the
    lower id, [agent_a]; and in the next generation that elite's fitness is 0.3,
    not the 0.9 it had. *)
Lemma elite_tie_and_fitness_not_kept :
  String.ltb (agent_id agentA) (agent_id agentB) = true
  /\ map agent_id (EvolutionEngine.elitesOf halfEliteConfig (populationOf tiedPair))
     = [agent_id agentB]
  /\ option_map
       (fun next => map (fun m => (agent_id (agent m), Qred (overall (fitness m))))
                        (agents next))
       (currentPopulation
          (snd (EvolutionEngine.replacePopulation exampleHost halfEliteConfig []
                  (engineWith tiedPair))))
     = Some [(agent_id agentB, 3 # 10)].
Proof. vm_compute. repeat split. Qed.
(** ** FitnessEvaluator *)

Lemma weights_sum_to_one :
  let w := FitnessEvaluator.weights in
  (FitnessEvaluator.w_codeQuality w + FitnessEvaluator.w_performance w
   + FitnessEvaluator.w_reliability w + FitnessEvaluator.w_userSatisfaction w
   + FitnessEvaluator.w_resourceEfficiency w == 1)%Q.
Proof. reflexivity. Qed.

Lemma calculateOverallFitness_weighted (c : FitnessComponents) :
  (FitnessEvaluator.calculateOverallFitness FitnessEvaluator.weights c
   == weightedSum c)%Q.
Proof.
  unfold FitnessEvaluator.calculateOverallFitness, weightedSum. cbn. ring.
Qed.

Lemma weightedSum_in_unit (c : FitnessComponents) :
  componentsInUnit c -> inUnit (weightedSum c).
Proof.
  unfold componentsInUnit, inUnit, weightedSum.
  intros [[? ?] [[? ?] [[? ?] [[? ?] [? ?]]]]]. split; lra.
Qed.

Section EvaluatorFacts.
Variable h : Host.

(** How [evaluate] ends, in terms of the body of its [try]: the body's
    score when the body returns, the minimal fitness when it throws. *)
Lemma evaluateWith_cases (w : FitnessEvaluator.FitnessWeights) (a : IAgent)
    (t : nat) :
  let started := FitnessEvaluator.startTrace h t in
  match FitnessEvaluator.evaluateBody h w a (fst started) (snd started) with
  | (Return score, t') =>
      FitnessEvaluator.evaluateWith h w a t = (Return score, t')
  | (Throw _, t') =>
      FitnessEvaluator.evaluateWith h w a t
      = (Return (FitnessEvaluator.createMinimalFitness (host_now h (S t'))),
         S (S t'))
  end.
Proof.
  unfold FitnessEvaluator.evaluateWith, bind, liftGen, tryCatch.
  destruct (FitnessEvaluator.startTrace h t) as [trace t1]. cbn [fst snd].
  destruct (FitnessEvaluator.evaluateBody h w a trace t1) as [[score | e] t'];
    reflexivity.
Qed.

Lemma evaluateWith_returns (w : FitnessEvaluator.FitnessWeights) (a : IAgent)
    (t : nat) :
  exists score t', FitnessEvaluator.evaluateWith h w a t = (Return score, t').
Proof.
  pose proof (evaluateWith_cases w a t) as Hcases. cbn zeta in Hcases.
  destruct (FitnessEvaluator.evaluateBody h w a _ _) as [[score | e] t'];
    eauto.
Qed.

(** A score the body returns carries the weighted sum of its own
    components. *)
Lemma evaluateBody_overall (w : FitnessEvaluator.FitnessWeights) (a : IAgent)
    (trace : Z) (t t' : nat) (score : FitnessScore) :
  FitnessEvaluator.evaluateBody h w a trace t = (Return score, t') ->
  overall score = FitnessEvaluator.calculateOverallFitness w (components score).
Proof.
  unfold FitnessEvaluator.evaluateBody, bind at 1.
  destruct (FitnessEvaluator.evaluateComponents h a t) as [[c | e] t1];
    [| discriminate].
  unfold bind, liftGen, now, FitnessEvaluator.endTrace, gbind, gret, ret.
  intros [= <- _]. reflexivity.
Qed.

(** C7: [evaluate] returns a FitnessScore for every agent and every host,
    whatever the agent's tasks and the process metrics do; when the
    body of its [try] throws, the score returned is the minimal one,
    0.1 overall and 0.1 in each of the five components. *)
Theorem evaluate_never_throws (a : IAgent) (t : nat) :
  exists (score : FitnessScore) (t' : nat),
    FitnessEvaluator.evaluate h a t = (Return score, t')
    /\ (forall e t1,
          FitnessEvaluator.evaluateBody h FitnessEvaluator.weights a
            (fst (FitnessEvaluator.startTrace h t))
            (snd (FitnessEvaluator.startTrace h t)) = (Throw e, t1) ->
          isMinimalFitness score).
Proof.
  unfold FitnessEvaluator.evaluate.
  pose proof (evaluateWith_cases FitnessEvaluator.weights a t) as Hcases.
  cbn zeta in Hcases.
  destruct (FitnessEvaluator.evaluateBody h FitnessEvaluator.weights a _ _)
    as [[score | e] t'].
  - exists score, t'. split; [exact Hcases |]. intros e t1 [=].
  - eexists _, _. split; [exact Hcases |]. intros _ _ _.
    repeat split.
Qed.

End EvaluatorFacts.

(** The failure path is taken: on [failingHost] the body throws and
    [evaluate] answers with the minimal fitness. *)
Example evaluate_on_failing_host :
  fst (FitnessEvaluator.evaluateBody failingHost FitnessEvaluator.weights agentA
         (fst (FitnessEvaluator.startTrace failingHost 0%nat))
         (snd (FitnessEvaluator.startTrace failingHost 0%nat)))
  = Throw (Err "memoryUsage failed")
  /\ fst (FitnessEvaluator.evaluate failingHost agentA 0%nat)
     = Return (FitnessEvaluator.createMinimalFitness 1014).
Proof. vm_compute. split; reflexivity. Qed.
(** ** Fitness scores *)



(** ** EvolutionEngine: what a run leaves alone *)

Lemma bind_inv {S A B : Type} (m : Eff S A) (k : A -> Eff S B)
    (s s' : S) (r : Outcome B) :
  bind m k s = (r, s') ->
  (exists a s1, m s = (Return a, s1) /\ k a s1 = (r, s'))
  \/ (exists e, m s = (Throw e, s') /\ r = Throw e).
Proof.
  unfold bind. destruct (m s) as [[a | e] s1]; intros H.
  - left. eauto.
  - right. injection H as <- <-. eauto.
Qed.

Lemma mapM_returns {S A B : Type} (f : A -> Eff S B) (l : list A) :
  (forall x s, exists y s', f x s = (Return y, s')) ->
  forall s, exists ys s', mapM f l s = (Return ys, s').
Proof.
  intros Hf. induction l as [| x xs IH]; intros s; cbn [mapM].
  - eexists _, _. reflexivity.
  - destruct (Hf x s) as [y [s1 Hy]]. destruct (IH s1) as [ys [s2 Hys]].
    exists (y :: ys), s2. unfold bind. rewrite Hy, Hys. reflexivity.
Qed.

Lemma Frame_refl (s : Engine) : Frame s s.
Proof. now constructor. Qed.

Lemma Frame_trans (s1 s2 s3 : Engine) : Frame s1 s2 -> Frame s2 s3 -> Frame s1 s3.
Proof.
  intros [? ? ?] [? ? ?]. constructor; congruence.
Qed.

Create HintDb frame.
#[local] Hint Resolve Frame_refl : frame.

Section Combinators.
Context {A B : Type}.

Lemma Framed_ret (a : A) : Framed (ret a).
Proof. intros s r s' [= _ <-]. apply Frame_refl. Qed.

Lemma Framed_throw (e : Error) : Framed (@throw Engine A e).
Proof. intros s r s' [= _ <-]. apply Frame_refl. Qed.

Lemma Framed_bind (m : Eff Engine A) (k : A -> Eff Engine B) :
  Framed m -> (forall a, Framed (k a)) -> Framed (bind m k).
Proof.
  intros Hm Hk s r s' H. apply bind_inv in H.
  destruct H as [[a [s1 [H1 H2]]] | [e [H1 _]]].
  - eapply Frame_trans; [eapply Hm | eapply Hk]; eassumption.
  - eapply Hm; eassumption.
Qed.

Lemma Framed_tryCatch (m : Eff Engine A) (k : Error -> Eff Engine A) :
  Framed m -> (forall e, Framed (k e)) -> Framed (tryCatch m k).
Proof.
  intros Hm Hk s r s'. unfold tryCatch.
  destruct (m s) as [[a | e] s1] eqn:H1; intros H.
  - injection H as <- <-. eapply Hm; eassumption.
  - eapply Frame_trans; [eapply Hm | eapply Hk]; eassumption.
Qed.

Lemma Framed_onTick (m : Eff nat A) : Framed (EvolutionEngine.onTick m).
Proof.
  intros s r s'. unfold EvolutionEngine.onTick.
  destruct (m (tick s)) as [r1 t]. intros [= _ <-]. now constructor.
Qed.

Lemma Framed_onArchive (m : Eff (Archive * nat) A) :
  Framed (EvolutionEngine.onArchive m).
Proof.
  intros s r s'. unfold EvolutionEngine.onArchive.
  destruct (m (archive s, tick s)) as [r1 [a t]]. intros [= _ <-].
  now constructor.
Qed.

Lemma Total_ret (a : A) : Total (ret a).
Proof. intros s. eexists _, _. reflexivity. Qed.

Lemma Total_bind (m : Eff Engine A) (k : A -> Eff Engine B) :
  Total m -> (forall a, Total (k a)) -> Total (bind m k).
Proof.
  intros Hm Hk s. destruct (Hm s) as [a [s1 H1]].
  destruct (Hk a s1) as [b [s2 H2]].
  exists b, s2. unfold bind. now rewrite H1.
Qed.

Lemma Total_tryCatch (m : Eff Engine A) (k : Error -> Eff Engine A) :
  (forall e, Total (k e)) -> Total (tryCatch m k).
Proof.
  intros Hk s. unfold tryCatch.
  destruct (m s) as [[a | e] s1]; [eexists _, _; reflexivity | apply Hk].
Qed.

Lemma Total_onTick_gen (g : Gen A) : Total (EvolutionEngine.onTick (liftGen g)).
Proof.
  intros s. unfold EvolutionEngine.onTick, liftGen.
  destruct (g (tick s)) as [a t]. eexists _, _. reflexivity.
Qed.

Lemma Total_onTick (m : Eff nat A) :
  (forall t, exists a t', m t = (Return a, t')) ->
  Total (EvolutionEngine.onTick m).
Proof.
  intros Hm s. unfold EvolutionEngine.onTick.
  destruct (Hm (tick s)) as [a [t' H]]. rewrite H. eexists _, _. reflexivity.
Qed.

End Combinators.

Lemma Framed_get : Framed EvolutionEngine.get.
Proof. intros s r s' [= _ <-]. apply Frame_refl. Qed.

Lemma Total_get : Total EvolutionEngine.get.
Proof. intros s. eexists _, _. reflexivity. Qed.

Lemma Framed_modify (f : Engine -> Engine) :
  (forall s, Frame s (f s)) -> Framed (EvolutionEngine.modify f).
Proof. intros Hf s r s' [= _ <-]. apply Hf. Qed.

Lemma Total_modify (f : Engine -> Engine) : Total (EvolutionEngine.modify f).
Proof. intros s. eexists _, _. reflexivity. Qed.

Lemma Frame_setPopulation (p : option Population) (s : Engine) :
  Frame s (EvolutionEngine.setPopulation p s).
Proof. now constructor. Qed.

Lemma Frame_setCycle (c : option EvolutionCycle) (s : Engine) :
  Frame s (EvolutionEngine.setCycle c s).
Proof. now constructor. Qed.

Lemma Frame_countMutation (b : bool) (s : Engine) :
  Frame s (EvolutionEngine.countMutation b s).
Proof. now constructor. Qed.

Lemma Frame_stopEvolution (s : Engine) :
  Frame s (EvolutionEngine.stopEvolution s).
Proof.
  unfold EvolutionEngine.stopEvolution.
  destruct (isRunning s) eqn:Hrunning; constructor; cbn; congruence.
Qed.

#[local] Hint Resolve Framed_ret Framed_throw Framed_onTick Framed_onArchive
  Framed_get Framed_modify Frame_setPopulation Frame_setCycle
  Frame_countMutation Frame_stopEvolution : frame.
#[local] Hint Resolve Total_ret Total_onTick_gen Total_get Total_modify : frame.

(** Splits a sequence into its steps. *)
Ltac framed :=
  repeat first
    [ solve [auto with frame]
    | apply Framed_bind; [| intros ?]
    | apply Framed_tryCatch; [| intros ?]
    | match goal with
      | |- Framed (match ?x with _ => _ end) => destruct x
      | |- Framed (if ?x then _ else _) => destruct x
      end ].

Ltac total :=
  repeat first
    [ solve [auto with frame]
    | apply Total_bind; [| intros ?]
    | apply Total_tryCatch; intros ?
    | match goal with
      | |- Total (match ?x with _ => _ end) => destruct x
      | |- Total (if ?x then _ else _) => destruct x
      end ].

Section RunFacts.
Variable h : Host.
Variable config : EvolutionConfig.

Lemma Framed_evaluatePopulation : Framed (EvolutionEngine.evaluatePopulation h).
Proof. unfold EvolutionEngine.evaluatePopulation. framed. Qed.

Lemma Total_evaluatePopulation : Total (EvolutionEngine.evaluatePopulation h).
Proof.
  unfold EvolutionEngine.evaluatePopulation. total.
  apply Total_onTick. intros t. apply mapM_returns. intros member t0.
  destruct (evaluateWith_returns h FitnessEvaluator.weights (agent member) t0)
    as [score [t1 Hscore]].
  unfold bind, FitnessEvaluator.evaluate. rewrite Hscore.
  eexists _, _. reflexivity.
Qed.

Lemma Framed_selectParents : Framed (EvolutionEngine.selectParents h config).
Proof. unfold EvolutionEngine.selectParents. framed. Qed.

Lemma select_never_throws (members : list PopulationAgent) (count : Z) (t : nat) :
  HostOK h ->
  (members = [] -> Z.to_nat count = 0%nat) ->
  exists selected t',
    SelectionStrategy.select h config members count t = (Return selected, t').
Proof.
  intros Hok Hempty.
  assert (Htour : exists selected t',
             SelectionStrategy.tournamentSelection h members count t
             = (Return selected, t')).
  { unfold SelectionStrategy.tournamentSelection.
    destruct members as [| m rest].
    - rewrite (Hempty eq_refl). eexists _, _. reflexivity.
    - destruct (tournamentRounds_returns h (Z.to_nat count) (m :: rest)
                  (Z.max 2 (floorMul (length (m :: rest)) (1 # 10))) t Hok)
        as [selected [t' [Hrun _]]]; [discriminate | lia | eauto]. }
  unfold SelectionStrategy.select.
  destruct (selectionStrategy config); try exact Htour.
  - unfold liftGen.
    destruct (SelectionStrategy.rouletteWheelSelection h members count t).
    eexists _, _. reflexivity.
  - eexists _, _. reflexivity.
Qed.

Lemma floorMul_empty (rate : Q) : floorMul 0 rate = 0.
Proof.
  unfold floorMul. cbn [Z.of_nat].
  assert (Hz : (inject_Z 0 * rate == 0)%Q) by ring.
  rewrite Hz. reflexivity.
Qed.

Lemma Total_selectParents :
  HostOK h -> Total (EvolutionEngine.selectParents h config).
Proof.
  intros Hok. unfold EvolutionEngine.selectParents. total.
  apply Total_onTick. intros t. apply select_never_throws; [exact Hok |].
  intros Hempty. rewrite Hempty. cbn [length]. now rewrite floorMul_empty.
Qed.

Lemma Framed_performCrossover (parents : list IAgent) :
  Framed (EvolutionEngine.performCrossover h parents).
Proof. unfold EvolutionEngine.performCrossover. framed. Qed.

Lemma Total_performCrossover (parents : list IAgent) :
  Total (EvolutionEngine.performCrossover h parents).
Proof. unfold EvolutionEngine.performCrossover. total. Qed.

Lemma Framed_performMutation (l : list IAgent) :
  Framed (EvolutionEngine.performMutation h config l).
Proof.
  induction l as [| a rest IH]; cbn [EvolutionEngine.performMutation]; framed.
Qed.

Lemma Total_performMutation (l : list IAgent) :
  Total (EvolutionEngine.performMutation h config l).
Proof.
  induction l as [| a rest IH]; cbn [EvolutionEngine.performMutation]; total.
Qed.

Lemma Framed_replacePopulation (newAgents : list IAgent) :
  Framed (EvolutionEngine.replacePopulation h config newAgents).
Proof. unfold EvolutionEngine.replacePopulation. framed. Qed.

Lemma Total_replacePopulation (newAgents : list IAgent) :
  Total (EvolutionEngine.replacePopulation h config newAgents).
Proof. unfold EvolutionEngine.replacePopulation. total. Qed.

Lemma Framed_share (c : EvolutionCycle) : Framed (EvolutionEngine.share c).
Proof. unfold EvolutionEngine.share. framed. Qed.

Lemma Framed_pollStop : Framed (EvolutionEngine.pollStop h).
Proof. unfold EvolutionEngine.pollStop. framed. Qed.

Lemma Total_pollStop : Total (EvolutionEngine.pollStop h).
Proof. unfold EvolutionEngine.pollStop. total. Qed.

Lemma share_returns (c : EvolutionCycle) (s : Engine) :
  EvolutionEngine.share c s = (Return c, EvolutionEngine.setCycle (Some c) s).
Proof. reflexivity. Qed.

Lemma Total_share (c : EvolutionCycle) : Total (EvolutionEngine.share c).
Proof. intros s. rewrite share_returns. eauto. Qed.

Hint Resolve Framed_evaluatePopulation Framed_selectParents
  Framed_performCrossover Framed_performMutation Framed_replacePopulation
  Framed_share Framed_pollStop : frame.
Hint Resolve Total_evaluatePopulation Total_selectParents
  Total_performCrossover Total_performMutation Total_replacePopulation
  Total_share Total_pollStop : frame.

Lemma Framed_generationLoop (n : nat) (first : bool) (c : EvolutionCycle) :
  Framed (EvolutionEngine.generationLoop h config n first c).
Proof.
  revert first c. induction n as [| n IH]; intros first c;
    cbn [EvolutionEngine.generationLoop]; unfold EvolutionEngine.enterPhase;
    framed.
Qed.

Lemma Total_generationLoop (n : nat) (first : bool) (c : EvolutionCycle) :
  HostOK h -> Total (EvolutionEngine.generationLoop h config n first c).
Proof.
  intros Hok. revert first c. induction n as [| n IH]; intros first c;
    cbn [EvolutionEngine.generationLoop]; unfold EvolutionEngine.enterPhase;
    total.
Qed.

Lemma Keeps_bind {A B : Type} (Q : A -> Prop) (P : B -> Prop)
    (m : Eff Engine A) (k : A -> Eff Engine B) :
  Keeps Q m -> (forall a, Q a -> Keeps P (k a)) -> Keeps P (bind m k).
Proof.
  intros Hm Hk s b s' H. apply bind_inv in H.
  destruct H as [[a [s1 [H1 H2]]] | [e [_ [=]]]].
  eapply Hk; [eapply Hm |]; eassumption.
Qed.

Lemma Keeps_any {A : Type} (m : Eff Engine A) : Keeps (fun _ => True) m.
Proof. intros s a s' _. exact I. Qed.

Lemma Keeps_ret {A : Type} (P : A -> Prop) (a : A) : P a -> Keeps P (ret a).
Proof. intros Ha s a' s' [= <- _]. exact Ha. Qed.

Lemma Keeps_share (P : EvolutionCycle -> Prop) (c : EvolutionCycle) :
  P c -> Keeps P (EvolutionEngine.share c).
Proof. intros Hc s a s'. rewrite share_returns. intros [= <- _]. exact Hc. Qed.

Lemma Keeps_updateCycleResults (g : Z) (c : EvolutionCycle) :
  numbered g c ->
  Keeps (numbered g)
    (EvolutionEngine.onTick (liftGen (EvolutionEngine.updateCycleResults h c))).
Proof.
  intros Hc s a s'.
  unfold EvolutionEngine.onTick, liftGen, EvolutionEngine.updateCycleResults,
    gbind, gret, random.
  intros [= <- _]. exact Hc.
Qed.

(** The loop hands back the cycle it was given, as far as its
    generation number goes. *)
Lemma Keeps_generationLoop (g : Z) (n : nat) (first : bool) (c : EvolutionCycle) :
  numbered g c ->
  Keeps (numbered g) (EvolutionEngine.generationLoop h config n first c).
Proof.
  revert first c. induction n as [| n IH]; intros first c Hc;
    cbn [EvolutionEngine.generationLoop].
  - now apply Keeps_ret.
  - unfold EvolutionEngine.enterPhase.
    eapply Keeps_bind; [apply Keeps_any | intros s _].
    destruct (shouldStop s); [now apply Keeps_ret |].
    eapply (Keeps_bind (numbered g)); [apply Keeps_share; exact Hc | intros c1 H1].
    eapply Keeps_bind; [apply Keeps_any | intros _ _].
    eapply (Keeps_bind (numbered g)); [apply Keeps_share; exact H1 | intros c2 H2].
    eapply Keeps_bind; [apply Keeps_any | intros parents _].
    eapply (Keeps_bind (numbered g)); [apply Keeps_share; exact H2 | intros c3 H3].
    eapply Keeps_bind; [apply Keeps_any | intros offspring _].
    eapply (Keeps_bind (numbered g)); [apply Keeps_share; exact H3 | intros c4 H4].
    eapply Keeps_bind; [apply Keeps_any | intros mutated _].
    eapply (Keeps_bind (numbered g)); [apply Keeps_share; exact H4 | intros c5 H5].
    eapply Keeps_bind; [apply Keeps_any | intros old _].
    eapply (Keeps_bind (numbered g));
      [apply Keeps_share; destruct old, first; exact H5 | intros c6 H6].
    eapply (Keeps_bind (numbered g));
      [apply Keeps_updateCycleResults, H6 | intros c7 H7].
    eapply (Keeps_bind (numbered g)); [apply Keeps_share; exact H7 | intros c8 H8].
    eapply Keeps_bind; [apply Keeps_any | intros s1 _].
    destruct (EvolutionEngine.hasConverged config (history s1));
      [now apply Keeps_ret |].
    eapply Keeps_bind; [apply Keeps_any | intros _ _].
    now apply IH.
Qed.

Lemma Framed_tryFinally {A : Type} (m : Eff Engine A) (fin : Engine -> Engine) :
  Framed m -> (forall s, Frame s (fin s)) -> Framed (tryFinally m fin).
Proof.
  intros Hm Hfin s r s'. unfold tryFinally.
  destruct (m s) as [r1 s1] eqn:H1. intros [= _ <-].
  eapply Frame_trans; [eapply Hm; eassumption | apply Hfin].
Qed.

Lemma Total_tryFinally {A : Type} (m : Eff Engine A) (fin : Engine -> Engine) :
  Total m -> Total (tryFinally m fin).
Proof.
  intros Hm s. unfold tryFinally. destruct (Hm s) as [a [s1 H1]].
  rewrite H1. eauto.
Qed.

Lemma Keeps_tryFinally {A : Type} (P : A -> Prop) (m : Eff Engine A)
    (fin : Engine -> Engine) :
  Keeps P m -> Keeps P (tryFinally m fin).
Proof.
  intros Hm s a s'. unfold tryFinally.
  destruct (m s) as [r1 s1] eqn:H1. intros [= -> _].
  eapply Hm; eassumption.
Qed.

Lemma Framed_runEvolutionCycle (maxGenerations : Z) :
  Framed (EvolutionEngine.runEvolutionCycle h config maxGenerations).
Proof.
  unfold EvolutionEngine.runEvolutionCycle. framed.
  apply Framed_tryFinally; [| auto with frame].
  unfold EvolutionEngine.enterPhase. framed.
  apply Framed_generationLoop.
Qed.

Lemma Keeps_runEvolutionCycle (maxGenerations : Z) (s : Engine) (r : EvolutionCycle)
    (s' : Engine) :
  EvolutionEngine.runEvolutionCycle h config maxGenerations s = (Return r, s') ->
  completedAs (totalGenerations (history s) + 1) r.
Proof.
  unfold EvolutionEngine.runEvolutionCycle.
  unfold bind at 1, EvolutionEngine.onTick at 1, liftGen at 1.
  destruct (EvolutionEngine.generateCycleId h (tick s)) as [cycleId t1].
  unfold bind at 1, EvolutionEngine.onTick at 1, liftGen at 1.
  cbn [tick EvolutionEngine.setTick EvolutionEngine.setArchiveTick].
  destruct (now h t1) as [start t2].
  unfold bind at 1, EvolutionEngine.get at 1.
  cbn [currentPopulation EvolutionEngine.setTick EvolutionEngine.setArchiveTick
       history].
  destruct (currentPopulation s) as [p |]; [| discriminate].
  set (g := totalGenerations (history s) + 1).
  revert s'. generalize (EvolutionEngine.setTick t2 (EvolutionEngine.setTick t1 s)).
  intros s0 s'. revert s0 r s'.
  change (Keeps (completedAs g)
            (tryFinally
               (c <- EvolutionEngine.share
                       {| cycle_id := cycleId; cycle_generation := g;
                          startTime := start; endTime := None;
                          phase := Initialization; cycle_population := p;
                          results := {| improved := 0; degraded := 0;
                                        unchanged := 0; failed := 0;
                                        averageFitnessChange := 0 |} |} ;;
                c <- EvolutionEngine.generationLoop h config
                       (Z.to_nat maxGenerations) true c ;;
                c <- EvolutionEngine.enterPhase Completed c ;;
                finish <- EvolutionEngine.onTick (liftGen (now h)) ;;
                EvolutionEngine.share (EvolutionEngine.withEndTime finish c))%eff
               (EvolutionEngine.setCycle None))).
  apply Keeps_tryFinally.
  eapply (Keeps_bind (numbered g)); [apply Keeps_share; reflexivity | intros c1 H1].
  eapply (Keeps_bind (numbered g));
    [apply Keeps_generationLoop; exact H1 | intros c2 H2].
  unfold EvolutionEngine.enterPhase.
  eapply (Keeps_bind (fun c => numbered g c /\ phase c = Completed));
    [apply Keeps_share; split; [exact H2 | reflexivity] | intros c3 [H3 Hphase]].
  eapply Keeps_bind; [apply Keeps_any | intros finish _].
  apply Keeps_share. repeat split; [exact Hphase | eexists; reflexivity | exact H3].
Qed.

Lemma runEvolutionCycle_returns (maxGenerations : Z) (s : Engine) (p : Population) :
  HostOK h ->
  currentPopulation s = Some p ->
  exists c s',
    EvolutionEngine.runEvolutionCycle h config maxGenerations s = (Return c, s').
Proof.
  intros Hok Hp.
  unfold EvolutionEngine.runEvolutionCycle.
  unfold bind at 1, EvolutionEngine.onTick at 1, liftGen at 1.
  destruct (EvolutionEngine.generateCycleId h (tick s)) as [cycleId t1].
  unfold bind at 1, EvolutionEngine.onTick at 1, liftGen at 1.
  cbn [tick EvolutionEngine.setTick EvolutionEngine.setArchiveTick].
  destruct (now h t1) as [start t2].
  unfold bind at 1, EvolutionEngine.get at 1.
  cbn [currentPopulation EvolutionEngine.setTick EvolutionEngine.setArchiveTick
       history].
  rewrite Hp.
  apply Total_tryFinally. unfold EvolutionEngine.enterPhase. total.
  now apply Total_generationLoop.
Qed.

Lemma Framed_archiveAll (members : list PopulationAgent) (reason : string) :
  Framed (EvolutionEngine.archiveAll h members reason).
Proof.
  induction members as [| m rest IH]; cbn [EvolutionEngine.archiveAll]; framed.
Qed.

Lemma archiveAgent_returns (a : IAgent) (score : FitnessScore) (reason : string)
    (st : Archive * nat) :
  SerializeOK h -> MemoryOK h -> hasMethods a = true ->
  exists entry st', ArchiveManager.archiveAgent h a score reason st = (Return entry, st').
Proof.
  intros Hser Hmem Hinstance. unfold ArchiveManager.archiveAgent.
  destruct st as [arch t].
  destruct (ArchiveManager.generateEntryId h t) as [id t1].
  unfold serialize. rewrite Hinstance.
  destruct (Hser t1 a) as [snapshot Hsnap]. rewrite Hsnap.
  destruct (now h (S t1)) as [time t2].
  unfold memoryUsage. destruct (Hmem t2) as [usage Husage]. rewrite Husage.
  destruct (now h (S t2)) as [updated t3].
  eexists _, _. reflexivity.
Qed.

Lemma Total_archiveAll (members : list PopulationAgent) (reason : string) :
  SerializeOK h -> MemoryOK h -> allInstances members ->
  Total (EvolutionEngine.archiveAll h members reason).
Proof.
  intros Hser Hmem Hall.
  induction Hall as [| m rest Hm Hrest IH]; cbn [EvolutionEngine.archiveAll]; total.
  intros s. unfold EvolutionEngine.onArchive.
  destruct (archiveAgent_returns (agent m) (fitness m) reason (archive s, tick s)
              Hser Hmem Hm)
    as [entry [[arch t] Hentry]].
  rewrite Hentry. eexists _, _. reflexivity.
Qed.

Lemma Framed_archiveBestAgents (c : EvolutionCycle) :
  Framed (EvolutionEngine.archiveBestAgents h c).
Proof.
  unfold EvolutionEngine.archiveBestAgents. framed.
  apply Framed_archiveAll.
Qed.

Lemma Keeps_archiveBestAgents (g : Z) (c : EvolutionCycle) :
  completedAs g c -> Keeps (completedAs g) (EvolutionEngine.archiveBestAgents h c).
Proof.
  intros Hc. unfold EvolutionEngine.archiveBestAgents.
  eapply Keeps_bind; [apply Keeps_any | intros s _].
  eapply Keeps_bind; [apply Keeps_any | intros _ _].
  eapply Keeps_bind; [apply Keeps_any | intros _ _].
  apply Keeps_ret. exact Hc.
Qed.

(** [evolve] on an engine that is not running. *)
Lemma evolve_idle (generations : Z) (s : Engine) :
  isRunning s = false ->
  EvolutionEngine.evolve h config generations s
  = tryFinally (EvolutionEngine.evolveBody h config generations)
      (fun s' => EvolutionEngine.setFlags false (shouldStop s') s')
      (EvolutionEngine.setFlags true false s).
Proof. intros Hidle. unfold EvolutionEngine.evolve. now rewrite Hidle. Qed.

(** [evolve] on an engine that is running: the guard. *)
Lemma evolve_running (generations : Z) (s : Engine) :
  isRunning s = true ->
  EvolutionEngine.evolve h config generations s
  = (Throw EvolutionEngine.AlreadyRunning, s).
Proof. intros Hrunning. unfold EvolutionEngine.evolve. now rewrite Hrunning. Qed.

(** What a returning [evolveBody] has done. *)
Lemma evolveBody_spec (generations : Z) (s : Engine) (c : EvolutionCycle)
    (s' : Engine) :
  EvolutionEngine.evolveBody h config generations s = (Return c, s') ->
  completedAs (totalGenerations (history s) + 1) c
  /\ isRunning s' = isRunning s
  /\ totalGenerations (history s') = totalGenerations (history s) + generations
  /\ cycles (history s') = cycles (history s) ++ [c].
Proof.
  unfold EvolutionEngine.evolveBody. intros H.
  apply bind_inv in H. destruct H as [[c0 [s1 [Hrun H]]] | [e [_ [=]]]].
  apply bind_inv in H. destruct H as [[c1 [s2 [Harchive H]]] | [e [_ [=]]]].
  unfold bind, EvolutionEngine.modify, ret in H. injection H as <- <-.
  pose proof (Framed_runEvolutionCycle _ _ _ _ Hrun) as [R1 G1 C1].
  pose proof (Framed_archiveBestAgents _ _ _ _ Harchive) as [R2 G2 C2].
  pose proof (Keeps_runEvolutionCycle _ _ _ _ Hrun) as Hc0.
  pose proof (Keeps_archiveBestAgents _ _ Hc0 _ _ _ Harchive) as Hc1.
  cbn. repeat split; try apply Hc1; congruence.
Qed.

End RunFacts.

(** C10: when [evolve(n)] returns, [totalGenerations] has grown by exactly
    the requested [n], however many generations the loop ran before the
    convergence check or a stop request ended it; the returned cycle is
    numbered with the old total plus 1, and so the next cycle that
    returns is numbered with the new total plus 1. *)
Theorem evolve_counts_requested_generations (h : Host) (config : EvolutionConfig)
    (n : Z) (s : Engine) (cycle : EvolutionCycle) (s' : Engine) :
  EvolutionEngine.evolve h config n s = (Return cycle, s') ->
  totalGenerations (history s') = totalGenerations (history s) + n
  /\ cycle_generation cycle = totalGenerations (history s) + 1
  /\ forall (h2 : Host) (config2 : EvolutionConfig) (n2 : Z)
            (next : EvolutionCycle) (s2 : Engine),
       EvolutionEngine.evolve h2 config2 n2 s' = (Return next, s2) ->
       cycle_generation next = totalGenerations (history s) + n + 1.
Proof.
  assert (Hone : forall h0 config0 n0 s0 c0 s0',
             EvolutionEngine.evolve h0 config0 n0 s0 = (Return c0, s0') ->
             totalGenerations (history s0') = totalGenerations (history s0) + n0
             /\ cycle_generation c0 = totalGenerations (history s0) + 1).
  { intros h0 config0 n0 s0 c0 s0' Hrun.
    destruct (isRunning s0) eqn:Hflag.
    - rewrite evolve_running in Hrun by exact Hflag. discriminate.
    - rewrite evolve_idle in Hrun by exact Hflag.
      unfold tryFinally in Hrun.
      destruct (EvolutionEngine.evolveBody h0 config0 n0
                  (EvolutionEngine.setFlags true false s0)) as [r s1] eqn:Hbody.
      injection Hrun as -> <-.
      apply evolveBody_spec in Hbody.
      destruct Hbody as [[_ [_ Hnumber]] [_ [Htotal _]]].
      cbn in Hnumber, Htotal |- *. split; assumption. }
  intros Hrun. destruct (Hone _ _ _ _ _ _ Hrun) as [Htotal Hnumber].
  split; [exact Htotal |]. split; [exact Hnumber |].
  intros h2 config2 n2 next s2 Hnext.
  destruct (Hone _ _ _ _ _ _ Hnext) as [_ Hnumber2].
  rewrite Hnumber2, Htotal. reflexivity.
Qed.

Lemma exampleHost_serializes : SerializeOK exampleHost.
Proof. intros t a. eexists. reflexivity. Qed.

Lemma evolve_counts_requested_generations_witness :
  exists (cycle : EvolutionCycle) (s' : Engine),
    EvolutionEngine.evolve exampleHost convergingConfig 3 settledEngine
    = (Return cycle, s')
    /\ totalGenerations (history s') = totalGenerations (history settledEngine) + 3
    /\ cycle_generation cycle = 11.
Proof.
  destruct (EvolutionEngine.evolve exampleHost convergingConfig 3 settledEngine)
    as [[cycle | e] s'] eqn:Hrun.
  - exists cycle, s'. split; [reflexivity |].
    destruct (evolve_counts_requested_generations _ _ _ _ _ _ Hrun)
      as [Htotal [Hnumber _]].
    split; [exact Htotal | exact Hnumber].
  - vm_compute in Hrun. discriminate.
Defined.

(** Three generations requested: one is run when the convergence check
    fires, one when a stop request arrives, three otherwise; the total
    grows by three each time. *)
Example evolve_ends_early :
  (let after := snd (EvolutionEngine.evolve exampleHost convergingConfig 3
                       settledEngine) in
   generationsRun settledEngine after = Some 1
   /\ totalGenerations (history after) = 13)
  /\ (let after := snd (EvolutionEngine.evolve stoppingHost exampleConfig 3
                          smallEngine) in
      generationsRun smallEngine after = Some 1
      /\ totalGenerations (history after) = 3)
  /\ (let after := snd (EvolutionEngine.evolve exampleHost exampleConfig 3
                          smallEngine) in
      generationsRun smallEngine after = Some 3
      /\ totalGenerations (history after) = 3).
Proof. vm_compute. repeat split. Qed.

(** ** Further properties of the generation pipeline *)

Lemma crossover_pair (h : Host) (parent1 parent2 : IAgent) (t : nat) :
  exists child1 child2 t',
    CrossoverOperator.crossover h parent1 parent2 t = ([child1; child2], t').
Proof.
  unfold CrossoverOperator.crossover, CrossoverOperator.createChild,
    CrossoverOperator.generateChildId, gbind, gret, now, randomSuffix.
  eexists _, _, _. reflexivity.
Qed.

Lemma crossoverPairs_length (h : Host) (parents : list IAgent) :
  (forall t, length (fst (EvolutionEngine.crossoverPairs h parents t))
             = (2 * (length parents / 2))%nat)
  /\ (forall p t, length (fst (EvolutionEngine.crossoverPairs h (p :: parents) t))
                  = (2 * (length (p :: parents) / 2))%nat).
Proof.
  induction parents as [| p2 rest [IH0 IH1]].
  - split; reflexivity.
  - split; [apply IH1 |].
    intros p1 t. cbn [EvolutionEngine.crossoverPairs]. unfold gbind, gret.
    destruct (crossover_pair h p1 p2 t) as [c1 [c2 [t1 Hrun]]]. rewrite Hrun.
    specialize (IH0 t1).
    destruct (EvolutionEngine.crossoverPairs h rest t1) as [more t'].
    cbn [fst] in IH0 |- *. rewrite length_app, IH0.
    change (length (p1 :: p2 :: rest)) with (1 * 2 + length rest)%nat.
    rewrite (Nat.div_add_l 1 2 (length rest)) by lia.
    cbn [length]. lia.
Qed.

(** X1: [performCrossover] pairs the parents off two by two and returns
    two children per pair, 2 * floor(n / 2) offspring for n parents; a
    last parent without a partner has no offspring. *)
Theorem performCrossover_offspring_count (h : Host) (parents : list IAgent)
    (s : Engine) :
  exists (offspring : list IAgent) (s' : Engine),
    EvolutionEngine.performCrossover h parents s = (Return offspring, s')
    /\ length offspring = (2 * (length parents / 2))%nat.
Proof.
  unfold EvolutionEngine.performCrossover, EvolutionEngine.onTick, liftGen.
  pose proof (proj1 (crossoverPairs_length h parents) (tick s)) as Hlen.
  destruct (EvolutionEngine.crossoverPairs h parents (tick s)) as [offspring t'].
  eexists _, _. split; [reflexivity | exact Hlen].
Qed.

(** X2: tournament selection on a non-empty population returns exactly
    [count] agents, each of them a member of the population: no agent is
    made up. *)
Theorem tournament_selects_members (h : Host) (population : list PopulationAgent)
    (count : Z) (t : nat) :
  HostOK h ->
  population <> [] ->
  0 <= count ->
  exists (selected : list IAgent) (t' : nat),
    SelectionStrategy.tournamentSelection h population count t
    = (Return selected, t')
    /\ Z.of_nat (length selected) = count
    /\ Forall (fun a => In a (map agent population)) selected.
Proof.
  intros Hok Hne Hcount. unfold SelectionStrategy.tournamentSelection.
  destruct (tournamentRounds_returns h (Z.to_nat count) population
              (Z.max 2 (floorMul (length population) (1 # 10))) t Hok Hne)
    as [selected [t' [Hrun [Hlen Hall]]]]; [lia |].
  exists selected, t'. repeat split; [exact Hrun | lia | exact Hall].
Qed.

Lemma tournament_selects_members_witness :
  exists (selected : list IAgent) (t' : nat),
    SelectionStrategy.tournamentSelection exampleHost
      [memberOf agentA (1 # 2); memberOf agentB (3 # 4)] 5 0%nat
    = (Return selected, t')
    /\ Forall (fun a => In a [agentA; agentB]) selected.
Proof.
  destruct (tournament_selects_members exampleHost
              [memberOf agentA (1 # 2); memberOf agentB (3 # 4)] 5 0%nat
              exampleHost_ok)
    as [selected [t' [Hrun [_ Hall]]]].
  - discriminate.
  - lia.
  - exists selected, t'. split; [exact Hrun | exact Hall].
Defined.

Section MutationFacts.
Variable h : Host.
Variable config : EvolutionConfig.

Lemma mutation_step (a : IAgent) (s : Engine) :
  exists (mutated : IAgent) (s' : Engine),
    tryCatch
      (mutatedAgent <- EvolutionEngine.onTick (MutationGenerator.mutate h config a) ;;
       _ <- EvolutionEngine.modify (EvolutionEngine.countMutation true) ;;
       ret mutatedAgent)%eff
      (fun _ =>
         _ <- EvolutionEngine.modify (EvolutionEngine.countMutation false) ;;
         ret a)%eff s
    = (Return mutated, s')
    /\ totalMutations (history s') = totalMutations (history s) + 1.
Proof.
  unfold MutationGenerator.mutate.
  match goal with
  | |- context [liftGen ?g] => set (draw := g)
  end.
  unfold tryCatch, bind, EvolutionEngine.onTick, liftGen,
    EvolutionEngine.modify, ret.
  destruct (draw (tick s)) as [mutated t1].
  eexists _, _. split; reflexivity.
Qed.

(** X3: [performMutation] returns one agent per offspring and counts
    one attempted mutation per offspring in the history; it never
    throws. *)
Theorem performMutation_counts_attempts (offspring : list IAgent) (s : Engine) :
  exists (mutated : list IAgent) (s' : Engine),
    EvolutionEngine.performMutation h config offspring s = (Return mutated, s')
    /\ length mutated = length offspring
    /\ totalMutations (history s')
       = totalMutations (history s) + Z.of_nat (length offspring).
Proof.
  revert s. induction offspring as [| a rest IH]; intros s;
    cbn [EvolutionEngine.performMutation].
  - eexists _, _. split; [reflexivity |]. cbn. split; [reflexivity | lia].
  - destruct (mutation_step a s) as [m [s1 [Hstep Hone]]].
    destruct (IH s1) as [more [s2 [Hrun [Hlen Hcount]]]].
    unfold bind at 1. rewrite Hstep. unfold bind at 1. rewrite Hrun.
    eexists _, _. split; [reflexivity |]. split; [cbn; now rewrite Hlen |].
    rewrite Hcount, Hone. cbn [length]. lia.
Qed.

End MutationFacts.

Section InitialPopulationFacts.
Variable h : Host.

Lemma grepeat_length {A : Type} (n : nat) (body : Gen A) (t : nat) :
  length (fst (grepeat n body t)) = n.
Proof.
  revert t. induction n as [| n IH]; intros t; cbn [grepeat].
  - reflexivity.
  - unfold gbind, gret. destruct (body t) as [x t1].
    specialize (IH t1). destruct (grepeat n body t1) as [xs t2].
    cbn in IH |- *. now rewrite IH.
Qed.

Lemma initialMembersByType_length (types : list AgentType)
    (i agentsPerType remainder : Z) (t : nat) :
  length (fst (PopulationManager.initialMembersByType h types i
                 agentsPerType remainder t))
  = shareOut types i agentsPerType remainder.
Proof.
  revert i t. induction types as [| type rest IH]; intros i t;
    cbn [PopulationManager.initialMembersByType shareOut].
  - reflexivity.
  - unfold gbind, gret, PopulationManager.initialMembers.
    match goal with
    | |- context [grepeat ?n ?body t] =>
        pose proof (grepeat_length n body t) as Hhead;
        destruct (grepeat n body t) as [members t1]
    end.
    specialize (IH (i + 1) t1).
    destruct (PopulationManager.initialMembersByType h rest (i + 1)
                agentsPerType remainder t1) as [more t2].
    cbn [fst] in Hhead, IH |- *. rewrite length_app. congruence.
Qed.

Lemma grepeat_all {A : Type} (P : A -> Prop) (n : nat) (body : Gen A) (t : nat) :
  (forall t0, P (fst (body t0))) -> Forall P (fst (grepeat n body t)).
Proof.
  intros Hbody. revert t. induction n as [| n IH]; intros t; cbn [grepeat].
  - constructor.
  - unfold gbind, gret. specialize (Hbody t). destruct (body t) as [x t1].
    specialize (IH t1). destruct (grepeat n body t1) as [xs t2].
    cbn [fst] in *. now constructor.
Qed.

Lemma initialMembers_typed (type : AgentType) (count : Z) (t : nat) :
  Forall (fun m => agent_type (agent m) = type /\ hasMethods (agent m) = true)
         (fst (PopulationManager.initialMembers h type count t)).
Proof.
  unfold PopulationManager.initialMembers. apply grepeat_all. intros t0.
  unfold gbind, gret, PopulationManager.createRandomAgent,
    PopulationManager.generateAgentId, PopulationManager.baseAgentFitness,
    PopulationManager.createInitialFitness, now, randomSuffix, random.
  cbn. split; reflexivity.
Qed.

Lemma filter_typed (type wanted : AgentType) (l : list PopulationAgent) :
  Forall (fun m => agent_type (agent m) = type) l ->
  length (filter (fun m => AgentType_eqb (agent_type (agent m)) wanted) l)
  = if AgentType_eqb type wanted then length l else 0%nat.
Proof.
  induction 1 as [| m rest Hm Hrest IH]; cbn [filter].
  - now destruct (AgentType_eqb type wanted).
  - rewrite Hm. destruct (AgentType_eqb type wanted); cbn [length]; now rewrite IH.
Qed.

Lemma initialMembers_length (type : AgentType) (count : Z) (t : nat) :
  length (fst (PopulationManager.initialMembers h type count t)) = Z.to_nat count.
Proof. unfold PopulationManager.initialMembers. apply grepeat_length. Qed.

Lemma initialMembersByType_typed (wanted : AgentType) (types : list AgentType)
    (i agentsPerType remainder : Z) (t : nat) :
  let members := fst (PopulationManager.initialMembersByType h types i
                        agentsPerType remainder t) in
  length (ofType wanted members) = shareOf wanted types i agentsPerType remainder
  /\ allInstances members.
Proof.
  revert i t. induction types as [| type rest IH]; intros i t;
    cbn [PopulationManager.initialMembersByType shareOf].
  - split; [reflexivity | constructor].
  - unfold gbind, gret.
    pose proof (initialMembers_typed type
                  (agentsPerType + (if i <? remainder then 1 else 0)) t) as Htyped.
    pose proof (initialMembers_length type
                  (agentsPerType + (if i <? remainder then 1 else 0)) t) as Hlen.
    destruct (PopulationManager.initialMembers h type _ t) as [members t1].
    specialize (IH (i + 1) t1).
    destruct (PopulationManager.initialMembersByType h rest (i + 1)
                agentsPerType remainder t1) as [more t2].
    cbn [fst] in *. destruct IH as [IHcount IHall]. split.
    + unfold ofType in *. rewrite filter_app, length_app, IHcount.
      rewrite (filter_typed type wanted members).
      * rewrite Hlen. reflexivity.
      * eapply Forall_impl; [| exact Htyped]. now intros m [Hm _].
    + apply Forall_app. split; [| exact IHall].
      eapply Forall_impl; [| exact Htyped]. now intros m [_ Hm].
Qed.

(** X4: for [size >= 0], [createInitialPopulation] builds exactly [size]
    members at generation 0, all of them instances of [BaseAgent]:
    [floor(size / 5)] members of each agent type and one more of each of
    the first [size mod 5] types. *)
Theorem createInitialPopulation_size (size : Z) (t : nat) :
  0 <= size ->
  let p := fst (PopulationManager.createInitialPopulation h size t) in
  Z.of_nat (length (agents p)) = size
  /\ population_generation p = 0
  /\ (forall (i : nat) (type : AgentType),
        nth_error agentTypes i = Some type ->
        Z.of_nat (length (ofType type (agents p)))
        = size / 5 + (if Z.of_nat i <? size mod 5 then 1 else 0))
  /\ allInstances (agents p).
Proof.
  intros Hsize. unfold PopulationManager.createInitialPopulation, gbind, gret.
  pose proof (initialMembersByType_length agentTypes 0
                (size / Z.of_nat (length agentTypes))
                (Z.rem size (Z.of_nat (length agentTypes))) t) as Hlen.
  pose proof (fun wanted =>
                initialMembersByType_typed wanted agentTypes 0
                  (size / Z.of_nat (length agentTypes))
                  (Z.rem size (Z.of_nat (length agentTypes))) t) as Htyped.
  destruct (PopulationManager.initialMembersByType h agentTypes 0 _ _ t)
    as [members t1].
  destruct (PopulationManager.generatePopulationId h t1) as [id t2].
  destruct (now h t2) as [time t3].
  cbn [fst agents population_generation] in Hlen, Htyped |- *.
  change (Z.of_nat (length agentTypes)) with 5 in *.
  rewrite Z.rem_mod_nonneg in * by lia.
  pose proof (Z.div_mod size 5 ltac:(lia)) as Hdiv.
  pose proof (Z.mod_pos_bound size 5 ltac:(lia)) as Hmod.
  assert (Hq : 0 <= size / 5) by (apply Z.div_pos; lia).
  set (q := size / 5) in *. set (r := size mod 5) in *.
  split; [| split; [reflexivity | split]].
  - rewrite Hlen. cbn [shareOut agentTypes]. cbn [Z.add Pos.add Pos.succ].
    destruct (Z.ltb_spec 0 r), (Z.ltb_spec 1 r), (Z.ltb_spec 2 r),
      (Z.ltb_spec 3 r), (Z.ltb_spec 4 r); lia.
  - intros i type Hi. destruct (Htyped type) as [Hcount _]. rewrite Hcount.
    do 5 (destruct i as [| i]; [injection Hi as <-; cbn; 
                                 destruct (Z.ltb_spec 0 r), (Z.ltb_spec 1 r),
                                   (Z.ltb_spec 2 r), (Z.ltb_spec 3 r),
                                   (Z.ltb_spec 4 r); lia |]).
    destruct i; discriminate.
  - exact (proj2 (Htyped Requirements)).
Qed.

End InitialPopulationFacts.

Lemma createInitialPopulation_size_witness :
  let p := fst (PopulationManager.createInitialPopulation exampleHost 12 0%nat) in
  Z.of_nat (length (agents p)) = 12
  /\ map (fun type => length (ofType type (agents p))) agentTypes
     = [3; 3; 2; 2; 2]%nat.
Proof.
  destruct (createInitialPopulation_size exampleHost 12 0%nat ltac:(lia))
    as [Hsize [_ [Hshare _]]].
  split; [exact Hsize |].
  cbn [map agentTypes].
  pose proof (Hshare 0%nat Requirements eq_refl) as H0.
  pose proof (Hshare 1%nat Architecture eq_refl) as H1.
  pose proof (Hshare 2%nat CodeGeneration eq_refl) as H2.
  pose proof (Hshare 3%nat Testing eq_refl) as H3.
  pose proof (Hshare 4%nat Deployment eq_refl) as H4.
  cbn in H0, H1, H2, H3, H4.
  repeat f_equal; lia.
Defined.
(** ** Rankings *)

Section RankingFacts.
Context {A : Type}.
Variable key : A -> Q.

Lemma insert_by_key (x : A) (l : list A) :
  StronglySorted (fun a b => key b <= key a)%Q l ->
  StronglySorted (fun a b => key b <= key a)%Q
    (insert (fun a b => key b - key a)%Q x l).
Proof.
  induction 1 as [| y ys Hsorted IH Hall]; cbn.
  - constructor; constructor.
  - destruct (Qle_bool (key y - key x) 0) eqn:Hcmp.
    + apply Qle_bool_iff in Hcmp.
      constructor; [constructor; assumption |].
      constructor; [lra |].
      eapply Forall_impl; [| exact Hall]. cbn. intros z Hz. lra.
    + assert (Hlt : ~ (key y - key x <= 0)%Q).
      { intros Hle. apply Qle_bool_iff in Hle. congruence. }
      constructor; [exact IH |].
      eapply Permutation_Forall; [apply Permutation_sym, insert_perm |].
      constructor; [lra | exact Hall].
Qed.

Lemma sort_by_key (l : list A) :
  StronglySorted (fun a b => key b <= key a)%Q
    (sort (fun a b => key b - key a)%Q l).
Proof.
  induction l as [| x xs IH]; cbn; [constructor | now apply insert_by_key].
Qed.

(** The first [n] of a ranking and what it leaves out. *)
Lemma top_of_ranking (n : nat) (l : list A) :
  let ranked := sort (fun a b => key b - key a)%Q l in
  Permutation (firstn n ranked ++ skipn n ranked) l
  /\ StronglySorted (fun a b => key b <= key a)%Q (firstn n ranked)
  /\ (forall inside outside,
        In inside (firstn n ranked) -> In outside (skipn n ranked) ->
        (key outside <= key inside)%Q).
Proof.
  intros ranked. pose proof (sort_by_key l) as Hsorted. fold ranked in Hsorted.
  rewrite <- (firstn_skipn n ranked) in Hsorted.
  split; [rewrite firstn_skipn; apply sort_perm |].
  split.
  - clear -Hsorted. induction (firstn n ranked) as [| x xs IH]; [constructor |].
    cbn in Hsorted. inversion Hsorted as [| ? ? Hrest Hall]; subst.
    constructor; [now apply IH |].
    apply Forall_app in Hall. tauto.
  - clear -Hsorted. induction (firstn n ranked) as [| x xs IH];
      intros inside outside Hin Hout; [contradiction |].
    cbn in Hsorted. inversion Hsorted as [| ? ? Hrest Hall]; subst.
    destruct Hin as [<- | Hin].
    + rewrite Forall_forall in Hall. apply Hall, in_or_app. now right.
    + now apply IH.
Qed.

End RankingFacts.

(** X6: rank selection is truncation.  For [count >= 0] it returns the
    agents of the first min(count, size) members of the population ranked
    by descending [fitness.overall]: the members it takes are in ranking
    order, they and the members it leaves make up the population, and no
    member left out is fitter than a member taken. *)
Theorem rankSelection_takes_the_fittest (population : list PopulationAgent)
    (count : Z) :
  0 <= count ->
  exists taken left : list PopulationAgent,
    SelectionStrategy.rankSelection population count = map agent taken
    /\ length taken = Nat.min (Z.to_nat count) (length population)
    /\ Permutation (taken ++ left) population
    /\ StronglySorted ranksBefore taken
    /\ (forall inside outside, In inside taken -> In outside left ->
          (overall (fitness outside) <= overall (fitness inside))%Q).
Proof.
  intros Hcount.
  exists (firstn (Z.to_nat count) (sort byFitnessDesc population)),
         (skipn (Z.to_nat count) (sort byFitnessDesc population)).
  destruct (top_of_ranking (fun m => overall (fitness m)) (Z.to_nat count) population)
    as [Hperm [Hsorted Hbest]].
  split; [| split; [| split; [exact Hperm | split; [exact Hsorted | exact Hbest]]]].
  - unfold SelectionStrategy.rankSelection. now rewrite slice_prefix.
  - now rewrite length_firstn, sort_length.
Qed.

Lemma rankSelection_takes_the_fittest_witness :
  SelectionStrategy.rankSelection
    [memberOf agentA (1 # 4); memberOf agentB (3 # 4); memberOf agentA (1 # 2)] 2
  = [agentB; agentA].
Proof.
  destruct (rankSelection_takes_the_fittest
              [memberOf agentA (1 # 4); memberOf agentB (3 # 4); memberOf agentA (1 # 2)]
              2 ltac:(lia)) as [taken [left [Hsel _]]].
  reflexivity.
Defined.

(** ** ArchiveManager: best agents, paging and filters *)

(** X7: for [limit >= 0], [getBestAgents] returns min(limit, size) stored
    entries in order of descending fitness; together with the entries it
    leaves out they are the archive's entries, and no entry left out has a
    higher fitness than a returned one. *)
Theorem getBestAgents_takes_the_fittest (a : Archive) (limit : Z) :
  0 <= limit ->
  let best := ArchiveManager.getBestAgents a limit in
  exists left : list ArchiveEntry,
    length best = Nat.min (Z.to_nat limit) (length (entries a))
    /\ Permutation (best ++ left) (ArchiveManager.values a)
    /\ StronglySorted entryRanksBefore best
    /\ (forall inside outside, In inside best -> In outside left ->
          (overall (fitnessMetrics outside) <= overall (fitnessMetrics inside))%Q).
Proof.
  intros Hlimit best. subst best. unfold ArchiveManager.getBestAgents.
  rewrite slice_prefix by assumption.
  destruct (top_of_ranking (fun e => overall (fitnessMetrics e)) (Z.to_nat limit)
              (ArchiveManager.values a)) as [Hperm [Hsorted Hbest]].
  eexists. split; [| split; [exact Hperm | split; [exact Hsorted | exact Hbest]]].
  rewrite length_firstn, sort_length. unfold ArchiveManager.values.
  now rewrite length_map.
Qed.

Lemma getBestAgents_takes_the_fittest_witness :
  length (ArchiveManager.getBestAgents fullArchive 10) = 10%nat.
Proof.
  destruct (getBestAgents_takes_the_fittest fullArchive 10 ltac:(lia))
    as [left [Hlen _]].
  rewrite Hlen. vm_compute. reflexivity.
Defined.

Lemma slice_window_length {A : Type} (from count : Z) (l : list A) :
  0 <= from -> 0 <= count ->
  Z.of_nat (length (slice from (from + count) l))
  = Z.max 0 (Z.min count (Z.of_nat (length l) - from)).
Proof.
  intros Hfrom Hcount. unfold slice.
  destruct (Z.ltb_spec from 0); [lia |].
  destruct (Z.ltb_spec (from + count) 0); [lia |].
  rewrite length_firstn, length_skipn. lia.
Qed.

(** X9: paging in [search].  With an offset [>= 0] and a limit [> 0] the
    page holds min(limit, totalCount - offset) entries (none when the
    offset is past the end), never more than [limit], and [hasMore] tells
    exactly whether matching entries remain after the page.  A limit of 0
    is taken as absent: the page size is then the default, 50. *)
Theorem search_pages (a : Archive) (query : ArchiveQuery) (from count : Z) :
  offset query = Some from -> limit query = Some count ->
  0 <= from -> 0 <= count ->
  let pageSize := if count =? 0 then 50 else count in
  let found := ArchiveManager.search a query in
  Z.of_nat (length (result_entries found))
  = Z.max 0 (Z.min pageSize (totalCount found - from))
  /\ Z.of_nat (length (result_entries found)) <= pageSize
  /\ (hasMore found = true <->
      from + Z.of_nat (length (result_entries found)) < totalCount found)
  /\ totalCount found <= Z.of_nat (length (entries a)).
Proof.
  intros Hoffset Hlimit Hfrom Hcount pageSize found.
  assert (Hpage : 0 < pageSize) by (subst pageSize; destruct (Z.eqb_spec count 0); lia).
  assert (HorElse : ArchiveManager.orElse (limit query) 50 = pageSize).
  { rewrite Hlimit. reflexivity. }
  assert (Hstart : ArchiveManager.orElse (offset query) 0 = from).
  { rewrite Hoffset. cbn. destruct (Z.eqb_spec from 0); congruence. }
  subst found. unfold ArchiveManager.search.
  rewrite HorElse, Hstart.
  cbn [result_entries totalCount hasMore].
  match goal with
  | |- context [slice from (from + pageSize) ?l] => set (matching := l)
  end.
  pose proof (slice_window_length from pageSize matching Hfrom ltac:(lia)) as Hlen.
  rewrite Hlen.
  split; [reflexivity |]. split; [lia |]. split.
  - rewrite Z.ltb_lt. lia.
  - subst matching. rewrite (Permutation_length (sortEntries_perm _ _)).
    unfold ArchiveManager.values.
    rewrite <- (length_map snd (entries a)).
    repeat match goal with
           | |- context [match ?x with _ => _ end] => destruct x
           | |- context [if ?x then _ else _] => destruct x
           end;
      repeat (etransitivity; [apply inj_le, filter_length_le |]); lia.
Qed.

Lemma filter_all {A : Type} (l : list A) : filter (fun _ => true) l = l.
Proof. induction l as [| x xs IH]; cbn; congruence. Qed.

(** The filters of [search], applied one after the other, select what
    the conjunction of the filters selects. *)
Lemma search_matching (a : Archive) (query : ArchiveQuery) :
  anyAgentType query ->
  let from := ArchiveManager.orElse (offset query) 0 in
  let count := ArchiveManager.orElse (limit query) 50 in
  let matching := filter (satisfiesFilters query) (ArchiveManager.values a) in
  let ranked := ArchiveManager.sortEntries matching (sortBy query) in
  result_entries (ArchiveManager.search a query) = slice from (from + count) ranked
  /\ totalCount (ArchiveManager.search a query) = Z.of_nat (length ranked).
Proof.
  intros Hany from count matching ranked.
  subst ranked from count matching. unfold ArchiveManager.search, satisfiesFilters.
  destruct query as [type lo hi tags parent range lim off sorting].
  cbn [q_agentType minFitness maxFitness q_tags dateRange limit offset sortBy
       result_entries totalCount] in *.
  assert (Htype : type = None \/ type = Some "") by exact Hany.
  destruct Htype as [-> | ->]; cbn [String.eqb];
    destruct lo, hi, tags as [[| tag tags] |], range;
    match goal with
    | |- slice ?from ?to (ArchiveManager.sortEntries ?l1 ?s)
         = slice ?from ?to (ArchiveManager.sortEntries ?l2 ?s) /\ _ =>
        enough (Heq : l1 = l2)
          by (split;
              [ exact (f_equal (fun l => slice from to (ArchiveManager.sortEntries l s)) Heq)
              | exact (f_equal (fun l => Z.of_nat (length (ArchiveManager.sortEntries l s)))
                         Heq) ])
    end;
    rewrite ?filter_twice;
    match goal with
    | |- filter _ _ = _ => idtac
    | |- _ => etransitivity; [symmetry; apply filter_all |]
    end;
    apply filter_ext; intros e;
    cbv beta iota; rewrite ?andb_true_r, ?andb_true_l, ?andb_assoc; reflexivity.
Qed.

(** X10: the filters of [search] combine by conjunction.  For a query
    without an agent type, the entries found are exactly the stored
    entries that satisfy the fitness bounds (both inclusive), carry at
    least one of the tags asked for (an empty tag list asks for nothing)
    and lie in the timestamp range (inclusive): [totalCount] counts them,
    and the page returned is cut from them after sorting. *)
Theorem search_applies_all_filters (a : Archive) (query : ArchiveQuery) :
  anyAgentType query ->
  let found := ArchiveManager.search a query in
  let matching := filter (satisfiesFilters query) (ArchiveManager.values a) in
  let from := ArchiveManager.orElse (offset query) 0 in
  let count := ArchiveManager.orElse (limit query) 50 in
  totalCount found = Z.of_nat (length matching)
  /\ result_entries found
     = slice from (from + count) (ArchiveManager.sortEntries matching (sortBy query))
  /\ (forall e, In e (result_entries found) ->
        In e (ArchiveManager.values a) /\ satisfiesFilters query e = true)
  /\ (from = 0 -> Z.of_nat (length matching) <= count ->
      Permutation (result_entries found) matching).
Proof.
  intros Hany found matching from count.
  destruct (search_matching a query Hany) as [Hentries Hcount].
  fold found matching from count in Hentries, Hcount.
  split; [| split; [exact Hentries | split]].
  - rewrite Hcount. f_equal. apply Permutation_length, sortEntries_perm.
  - intros e Hin. rewrite Hentries in Hin. apply slice_incl in Hin.
    apply (Permutation_in _ (sortEntries_perm _ _)) in Hin.
    apply filter_In in Hin. exact Hin.
  - intros Hfrom Hfits. rewrite Hentries, Hfrom.
    assert (Hcount0 : 0 <= count) by lia.
    rewrite slice_prefix by lia.
    rewrite firstn_all2; [apply sortEntries_perm |].
    rewrite (Permutation_length (sortEntries_perm _ _)). lia.
Qed.

Lemma search_pages_witness :
  let found := ArchiveManager.search fullArchive (pageQuery 50 10) in
  Z.of_nat (length (result_entries found)) = 1 /\ hasMore found = false.
Proof.
  destruct (search_pages fullArchive (pageQuery 50 10) 50 10
              eq_refl eq_refl ltac:(lia) ltac:(lia)) as [Hlen [_ [Hmore _]]].
  split.
  - rewrite Hlen. vm_compute. reflexivity.
  - vm_compute. reflexivity.
Defined.

Lemma search_applies_all_filters_witness :
  totalCount (ArchiveManager.search fullArchive (tagQuery ["top performer"] None)) = 51.
Proof.
  destruct (search_applies_all_filters fullArchive (tagQuery ["top performer"] None))
    as [Hcount _].
  - left. reflexivity.
  - rewrite Hcount. vm_compute. reflexivity.
Defined.

(** ** ArchiveManager: archiving *)

Lemma mapSet_stores {V : Type} (k : string) (v : V) (m : list (string * V)) :
  In v (map snd (ArchiveManager.mapSet String.eqb k v m))
  /\ (length m <= length (ArchiveManager.mapSet String.eqb k v m) <= S (length m))%nat
  /\ (1 <= length (ArchiveManager.mapSet String.eqb k v m))%nat.
Proof.
  induction m as [| [k' v'] rest [IHin [IHlen IHone]]]; cbn.
  - split; [now left | lia].
  - destruct (String.eqb k' k); cbn; [split; [now left | lia] |].
    split; [now right | lia].
Qed.

Lemma fold_Qmax_ge (xs : list Q) (start : Q) :
  (start <= fold_left Qmax xs start)%Q
  /\ forall x, In x xs -> (x <= fold_left Qmax xs start)%Q.
Proof.
  revert start. induction xs as [| y ys IH]; intros start; cbn.
  - split; [lra | contradiction].
  - destruct (IH (Qmax start y)) as [Hstart Hrest].
    pose proof (Q.le_max_l start y). pose proof (Q.le_max_r start y).
    split; [lra |]. intros x [<- | Hin]; [lra | now apply Hrest].
Qed.

Lemma maxOf_ge (xs : list Q) (x : Q) : In x xs -> (x <= maxOf xs)%Q.
Proof.
  destruct xs as [| y ys]; [contradiction |]. cbn.
  destruct (fold_Qmax_ge ys y) as [Hstart Hrest].
  intros [<- | Hin]; [exact Hstart | now apply Hrest].
Qed.

Lemma updateStatistics_spec (a : Archive) (time : Z) :
  let a' := ArchiveManager.updateStatistics a time in
  entries a' = entries a
  /\ index a' = index a
  /\ totalEntries (archive_statistics a') = Z.of_nat (length (entries a))
  /\ (forall e, In e (ArchiveManager.values a) ->
        (overall (fitnessMetrics e) <= archive_bestFitness (archive_statistics a'))%Q).
Proof.
  cbn. split; [reflexivity |]. split; [reflexivity |].
  unfold ArchiveManager.values. split; [now rewrite length_map |].
  intros e He. destruct (map snd (entries a)) as [| first rest] eqn:Hall; [contradiction |].
  apply maxOf_ge. now apply (in_map (fun e => overall (fitnessMetrics e))).
Qed.

(** X8: what [archiveAgent] leaves behind.  When it returns, the entry
    is stored with the fitness and the tags (agent type, reason) it was
    given, the archive has grown by at most one entry, [totalEntries]
    counts the stored entries, no stored entry is fitter than
    [bestFitness], and a search for the reason tag whose page is large
    enough for the whole archive returns the entry. *)
Theorem archived_agent_is_found (h : Host) (a : IAgent) (score : FitnessScore)
    (reason : string) (before after : Archive) (t t' : nat) (entry : ArchiveEntry) :
  ArchiveManager.archiveAgent h a score reason (before, t) = (Return entry, (after, t')) ->
  In entry (ArchiveManager.values after)
  /\ fitnessMetrics entry = score
  /\ entry_tags entry = [agentTypeName (agent_type a); reason]
  /\ (length (entries before) <= length (entries after) <= S (length (entries before)))%nat
  /\ totalEntries (archive_statistics after) = Z.of_nat (length (entries after))
  /\ (forall e, In e (ArchiveManager.values after) ->
        (overall (fitnessMetrics e) <= archive_bestFitness (archive_statistics after))%Q)
  /\ (forall pageSize, Z.of_nat (length (entries after)) <= pageSize ->
        In entry (result_entries
                    (ArchiveManager.search after (tagQuery [reason] (Some pageSize))))).
Proof.
  unfold ArchiveManager.archiveAgent.
  destruct (ArchiveManager.generateEntryId h t) as [id t1].
  destruct (serialize h a t1) as [[snapshot | e] t2]; [| discriminate].
  destruct (now h t2) as [time t3].
  destruct (memoryUsage h t3) as [[usage | e] t3']; [| discriminate].
  destruct (now h t3') as [updated t4].
  set (entry0 := {| entry_id := id; entry_parentId := None; agentSnapshot := snapshot;
                    fitnessMetrics := score; entry_timestamp := time;
                    entry_reason := reason;
                    entry_tags := [agentTypeName (agent_type a); reason] |}).
  set (stored := {| entries := ArchiveManager.mapSet String.eqb id entry0 (entries before);
                    index := ArchiveManager.updateIndices entry0 (index before);
                    archive_statistics := archive_statistics before;
                    archive_updatedAt := archive_updatedAt before |}).
  intros [= <- <- <-].
  destruct (mapSet_stores id entry0 (entries before)) as [Hin [Hlen Hone]].
  destruct (updateStatistics_spec stored updated) as [Hentries [_ [Htotal Hbest]]].
  set (after := ArchiveManager.updateStatistics stored updated) in *.
  assert (Hvalues : ArchiveManager.values after = ArchiveManager.values stored).
  { unfold ArchiveManager.values. now rewrite Hentries. }
  assert (Hstored : In entry0 (ArchiveManager.values after)).
  { rewrite Hvalues. exact Hin. }
  split; [exact Hstored |]. split; [reflexivity |]. split; [reflexivity |].
  split; [rewrite Hentries; exact Hlen |].
  split; [rewrite Hentries; exact Htotal |].
  split; [intros e He; apply Hbest; now rewrite <- Hvalues |].
  intros pageSize Hpage.
  assert (Hpos : 0 < pageSize).
  { rewrite Hentries in Hpage. cbn [entries stored] in Hpage. lia. }
  destruct (search_matching after (tagQuery [reason] (Some pageSize))
              (or_introl eq_refl)) as [Hfound _].
  rewrite Hfound.
  cbn [offset limit tagQuery sortBy ArchiveManager.orElse].
  destruct (Z.eqb_spec pageSize 0) as [Hzero | _]; [lia |].
  rewrite slice_prefix by lia.
  rewrite firstn_all2.
  - apply (Permutation_in _ (Permutation_sym (sortEntries_perm _ _))).
    apply filter_In. split; [exact Hstored |].
    unfold satisfiesFilters. cbn. rewrite String.eqb_refl. now rewrite orb_true_r.
  - rewrite (Permutation_length (sortEntries_perm _ _)).
    etransitivity; [apply filter_length_le |].
    unfold ArchiveManager.values. rewrite length_map. lia.
Qed.

Lemma archived_agent_is_found_witness :
  let run := ArchiveManager.archiveAgent exampleHost agentA (scoreOf (3 # 4))
               "top performer" (ArchiveManager.emptyArchive 0, 0%nat) in
  exists entry, fst run = Return entry
    /\ ArchiveManager.values (fst (snd run)) = [entry]
    /\ result_entries (ArchiveManager.search (fst (snd run))
                         (tagQuery ["top performer"] (Some 1))) = [entry].
Proof.
  cbv zeta.
  destruct (ArchiveManager.archiveAgent exampleHost agentA (scoreOf (3 # 4))
              "top performer" (ArchiveManager.emptyArchive 0, 0%nat))
    as [[entry | e] [after t']] eqn:Hrun; [| vm_compute in Hrun; discriminate].
  pose proof (archived_agent_is_found _ _ _ _ _ _ _ _ _ Hrun)
    as [Hin [_ [_ [Hlen [_ [_ Hsearch]]]]]].
  exists entry. split; [reflexivity |]. cbn [fst snd].
  assert (Hone : length (entries after) = 1%nat).
  { unfold ArchiveManager.values in Hin.
    destruct (entries after) as [| x [| y rest]]; cbn in Hin, Hlen |- *;
      [contradiction | reflexivity | lia]. }
  assert (Hvalues : ArchiveManager.values after = [entry]).
  { unfold ArchiveManager.values in *. rewrite <- (length_map snd) in Hone.
    destruct (map snd (entries after)) as [| e1 [| e2 rest]]; try discriminate.
    destruct Hin as [-> | []]. reflexivity. }
  split; [exact Hvalues |].
  specialize (Hsearch 1 ltac:(lia)).
  pose proof (slice_length_le 0 1 [entry]) as Hle.
  destruct (search_matching after (tagQuery ["top performer"] (Some 1))
              (or_introl eq_refl)) as [Hfound _].
  rewrite Hfound in Hsearch |- *. cbn [offset limit tagQuery sortBy ArchiveManager.orElse] in *.
  cbn [Z.eqb] in *. rewrite slice_prefix in * by lia.
  rewrite Hvalues in *.
  destruct (firstn (Z.to_nat (0 + 1)) _) as [| e1 [| e2 rest]] eqn:Hpage.
  - contradiction.
  - destruct Hsearch as [-> | []]. reflexivity.
  - apply (f_equal (@length _)) in Hpage. rewrite length_firstn in Hpage.
    cbn in Hpage. lia.
Defined.

(** ** EvolutionEngine: convergence *)

Lemma fold_sum_from (xs : list Q) (start : Q) :
  (fold_left Qplus xs start == start + fold_left Qplus xs 0)%Q.
Proof.
  revert start. induction xs as [| x rest IH]; intros start; cbn.
  - lra.
  - rewrite (IH (start + x)%Q), (IH (0 + x)%Q). lra.
Qed.

Lemma fold_sum_nonneg (xs : list Q) :
  Forall (fun x => 0 <= x)%Q xs -> (0 <= fold_left Qplus xs 0)%Q.
Proof.
  induction 1 as [| x rest Hx Hrest IH]; cbn; [lra |].
  rewrite fold_sum_from. lra.
Qed.

Lemma square_nonneg (x : Q) : (0 <= x ^ 2)%Q.
Proof. cbn. nra. Qed.

Lemma quotient_nonneg (x y : Q) : (0 <= x)%Q -> (0 <= y)%Q -> (0 <= x / y)%Q.
Proof.
  intros Hx Hy. unfold Qdiv. apply Qmult_le_0_compat; [exact Hx |].
  now apply Qinv_le_0_compat.
Qed.

Lemma calculateVariance_nonneg (values : list Q) :
  (0 <= EvolutionEngine.calculateVariance values)%Q.
Proof.
  unfold EvolutionEngine.calculateVariance, reduce.
  apply quotient_nonneg.
  - apply fold_sum_nonneg, Forall_forall. intros x Hx.
    apply in_map_iff in Hx. destruct Hx as [v [<- _]]. apply square_nonneg.
  - unfold Qle. cbn. lia.
Qed.

Lemma slice_last {A : Type} (n : nat) (older recent : list A) :
  length recent = n -> (0 < n)%nat ->
  slice (- Z.of_nat n) (Z.of_nat (length (older ++ recent))) (older ++ recent) = recent.
Proof.
  intros Hlen Hpos. unfold slice. rewrite length_app.
  destruct (Z.ltb_spec (- Z.of_nat n) 0); [| lia].
  destruct (Z.ltb_spec (Z.of_nat (length older + length recent)) 0); [lia |].
  replace (Z.to_nat (Z.max (Z.of_nat (length older + length recent) + - Z.of_nat n) 0))
    with (length older) by lia.
  rewrite skipn_app, skipn_all, Nat.sub_diag. cbn [skipn app].
  apply firstn_all2. lia.
Qed.

Section ConvergenceFacts.
Variable config : EvolutionConfig.

(** X11: the convergence check.  It never fires with fewer than ten
    cycles in the history, without a [convergenceThreshold] in the
    configuration (the default configuration has none) or with a
    threshold that is not positive; and with ten cycles or more it reads
    the last ten only: two histories that end with the same ten cycles
    get the same answer. *)
Theorem hasConverged_reads_last_ten (hist : EvolutionHistory) :
  ((length (cycles hist) < 10)%nat -> EvolutionEngine.hasConverged config hist = false)
  /\ (convergenceThreshold config = None ->
      EvolutionEngine.hasConverged config hist = false)
  /\ (forall threshold, convergenceThreshold config = Some threshold ->
        (threshold <= 0)%Q -> EvolutionEngine.hasConverged config hist = false)
  /\ (forall (other : EvolutionHistory) (older older' recent : list EvolutionCycle),
        cycles hist = older ++ recent -> cycles other = older' ++ recent ->
        length recent = 10%nat ->
        EvolutionEngine.hasConverged config hist
        = EvolutionEngine.hasConverged config other).
Proof.
  assert (Hlast : forall history threshold older recent,
            convergenceThreshold config = Some threshold ->
            cycles history = older ++ recent -> length recent = 10%nat ->
            EvolutionEngine.hasConverged config history
            = Qltb (EvolutionEngine.calculateVariance
                      (map (fun c => averageFitness (statistics (cycle_population c)))
                           recent))
                   threshold).
  { intros history threshold older recent Hthreshold Hcycles Hten.
    unfold EvolutionEngine.hasConverged. rewrite Hthreshold, Hcycles.
    destruct (Nat.ltb_spec (length (older ++ recent)) 10) as [Hshort | _].
    - rewrite length_app in Hshort. lia.
    - change (-10) with (- Z.of_nat 10).
      now rewrite (slice_last 10 older recent) by (try assumption; lia). }
  assert (Hnone : forall history, convergenceThreshold config = None ->
                    EvolutionEngine.hasConverged config history = false).
  { intros history Hnone. unfold EvolutionEngine.hasConverged. rewrite Hnone.
    now destruct (length (cycles history) <? 10)%nat. }
  split; [| split; [exact (Hnone hist) | split]].
  - intros Hshort. unfold EvolutionEngine.hasConverged.
    now destruct (Nat.ltb_spec (length (cycles hist)) 10); [| lia].
  - intros threshold Hthreshold Hle. unfold EvolutionEngine.hasConverged.
    rewrite Hthreshold. destruct (length (cycles hist) <? 10)%nat; [reflexivity |].
    unfold Qltb. apply negb_false_iff, Qle_bool_iff.
    match goal with
    | |- (_ <= EvolutionEngine.calculateVariance ?l)%Q =>
        pose proof (calculateVariance_nonneg l)
    end. lra.
  - intros other older older' recent Hcycles Hother Hten.
    destruct (convergenceThreshold config) as [threshold |] eqn:Hthreshold.
    + rewrite (Hlast hist threshold older recent eq_refl Hcycles Hten).
      now rewrite (Hlast other threshold older' recent eq_refl Hother Hten).
    + now rewrite !Hnone.
Qed.

End ConvergenceFacts.

Example hasConverged_on_settled_history :
  EvolutionEngine.hasConverged convergingConfig (history settledEngine) = true
  /\ EvolutionEngine.hasConverged defaultConfiguration (history settledEngine) = false.
Proof. split; reflexivity. Qed.

(** ** EvolutionEngine: evaluation and queries *)

Section EvaluationFacts.
Variable h : Host.

Lemma evaluate_is_weighted (a : IAgent) (t t' : nat) (score : FitnessScore) :
  FitnessEvaluator.evaluate h a t = (Return score, t') -> isWeighted score.
Proof.
  unfold FitnessEvaluator.evaluate. intros Hrun.
  pose proof (evaluateWith_cases h FitnessEvaluator.weights a t) as Hcases.
  cbv zeta in Hcases.
  destruct (FitnessEvaluator.evaluateBody h FitnessEvaluator.weights a
              (fst (FitnessEvaluator.startTrace h t))
              (snd (FitnessEvaluator.startTrace h t))) as [[body | e] t1] eqn:Hbody.
  - rewrite Hcases in Hrun. injection Hrun as <- <-.
    unfold isWeighted. rewrite (evaluateBody_overall h _ _ _ _ _ _ Hbody).
    apply calculateOverallFitness_weighted.
  - rewrite Hcases in Hrun. injection Hrun as <- <-.
    unfold isWeighted, weightedSum. cbn. reflexivity.
Qed.

Lemma evaluateMembers_spec (members : list PopulationAgent) (t : nat) :
  exists evaluated t',
    mapM (fun member =>
            score <- FitnessEvaluator.evaluate h (agent member) ;;
            ret (EvolutionEngine.withFitness score member))%eff members t
    = (Return evaluated, t')
    /\ map agent evaluated = map agent members
    /\ map age evaluated = map age members
    /\ map isElite evaluated = map isElite members
    /\ Forall (fun m => isWeighted (fitness m)) evaluated.
Proof.
  revert t. induction members as [| m rest IH]; intros t; cbn [mapM].
  - exists [], t. repeat split; constructor.
  - destruct (evaluateWith_returns h FitnessEvaluator.weights (agent m) t)
      as [score [t1 Hscore]].
    change (FitnessEvaluator.evaluate h (agent m) t = (Return score, t1)) in Hscore.
    pose proof (evaluate_is_weighted (agent m) t t1 score Hscore) as Hweighted.
    destruct (IH t1) as [evaluated [t2 [Hrest [Hagents [Hages [Helite Hall]]]]]].
    exists (EvolutionEngine.withFitness score m :: evaluated), t2.
    split.
    + unfold bind, ret in Hrest |- *. rewrite Hscore, Hrest. reflexivity.
    + cbn. rewrite Hagents, Hages, Helite. repeat split.
      constructor; assumption.
Qed.

(** X12: what evaluating the population changes.  With a population
    present, [evaluatePopulation] returns normally and leaves a
    population with the same id and generation and the same members in
    the same order: their agents keep id, type, version, capabilities
    and metadata (the agents' own state, whose counters [execute]
    advances, is left out of the statement), and the members keep age
    and elite mark.  Each member's fitness is a score of the evaluator
    (its [overall] is the weighted sum of its components), the
    statistics are recomputed for the new scores, and the history, the
    running and stop flags and the archive are unchanged.  Without a
    population it does nothing. *)
Theorem evaluatePopulation_changes_fitness_only (s : Engine) :
  match currentPopulation s with
  | None => EvolutionEngine.evaluatePopulation h s = (Return tt, s)
  | Some p =>
      exists (s' : Engine) (p' : Population),
        EvolutionEngine.evaluatePopulation h s = (Return tt, s')
        /\ currentPopulation s' = Some p'
        /\ population_id p' = population_id p
        /\ population_generation p' = population_generation p
        /\ map (fun m => apartFromState (agent m)) (agents p')
           = map (fun m => apartFromState (agent m)) (agents p)
        /\ map age (agents p') = map age (agents p)
        /\ map isElite (agents p') = map isElite (agents p)
        /\ Forall (fun m => isWeighted (fitness m)) (agents p')
        /\ statistics p' = PopulationManager.calculateStatistics h (agents p')
        /\ history s' = history s
        /\ isRunning s' = isRunning s /\ shouldStop s' = shouldStop s
        /\ archive s' = archive s
  end.
Proof.
  destruct (currentPopulation s) as [p |] eqn:Hp.
  - destruct (evaluateMembers_spec (agents p) (tick s))
      as [evaluated [t' [Hrun [Hagents [Hages [Helite Hall]]]]]].
    unfold EvolutionEngine.evaluatePopulation, EvolutionEngine.get,
      EvolutionEngine.onTick, EvolutionEngine.modify.
    unfold bind at 1. rewrite Hp. unfold bind at 1. rewrite Hrun.
    assert (Hapart : map (fun m => apartFromState (agent m)) evaluated
                     = map (fun m => apartFromState (agent m)) (agents p)).
    { rewrite <- (map_map agent apartFromState evaluated).
      rewrite <- (map_map agent apartFromState (agents p)). now rewrite Hagents. }
    eexists _, _. split; [reflexivity |]. cbn [currentPopulation
      EvolutionEngine.setPopulation EvolutionEngine.setTick
      EvolutionEngine.setArchiveTick population_id population_generation agents
      statistics history currentCycle isRunning shouldStop archive].
    repeat split; assumption.
  - unfold EvolutionEngine.evaluatePopulation, EvolutionEngine.get.
    unfold bind at 1. now rewrite Hp.
Qed.

End EvaluationFacts.

(** X13: [getBestAgent] never throws.  It answers [undefined] exactly
    when the engine has no population or an empty one; otherwise it
    returns the agent of a member that no other member beats on
    [fitness.overall], and it leaves the population with the same
    members, ranked by descending fitness (the sort is in place). *)
Theorem getBestAgent_is_fittest (s : Engine) :
  exists (answer : option IAgent) (s' : Engine),
    EvolutionEngine.getBestAgent s = (Return answer, s')
    /\ (answer = None <->
        match currentPopulation s with
        | None => True
        | Some p => agents p = []
        end)
    /\ (forall a p, answer = Some a -> currentPopulation s = Some p ->
          exists (best : PopulationAgent) (p' : Population),
            agent best = a /\ In best (agents p)
            /\ (forall m, In m (agents p) ->
                  (overall (fitness m) <= overall (fitness best))%Q)
            /\ currentPopulation s' = Some p'
            /\ Permutation (agents p') (agents p)
            /\ StronglySorted ranksBefore (agents p')).
Proof.
  unfold EvolutionEngine.getBestAgent.
  destruct (currentPopulation s) as [p |] eqn:Hp.
  - destruct (agents p) as [| first rest] eqn:Hagents.
    + exists None, s. split; [reflexivity |]. split; [tauto | discriminate].
    + pose proof (sort_perm byFitnessDesc (first :: rest)) as Hperm.
      pose proof (sort_ranked (first :: rest)) as Hranked.
      destruct (sort byFitnessDesc (first :: rest)) as [| best others] eqn:Hsorted.
      * apply Permutation_length in Hperm. discriminate.
      * exists (Some (agent best)), 
          (EvolutionEngine.setPopulation
             (Some (EvolutionEngine.withAgents (best :: others) p)) s).
        split; [reflexivity |]. split; [split; discriminate |].
        intros a p0 [= <-] [= <-].
        exists best, (EvolutionEngine.withAgents (best :: others) p).
        split; [reflexivity |]. rewrite Hagents.
        split; [apply (Permutation_in _ Hperm); now left |].
        split.
        { intros m Hm. apply (Permutation_in _ (Permutation_sym Hperm)) in Hm.
          inversion Hranked as [| ? ? _ Hall]; subst.
          destruct Hm as [<- | Hm]; [lra |].
          rewrite Forall_forall in Hall. now apply Hall. }
        split; [reflexivity |]. split; [exact Hperm | exact Hranked].
  - exists None, s. split; [reflexivity |]. split; [tauto | discriminate].
Qed.

Lemma find_first {A : Type} (f : A -> bool) (l : list A) :
  match find f l with
  | Some m => exists before after,
                l = before ++ m :: after /\ f m = true
                /\ Forall (fun o => f o = false) before
  | None => Forall (fun o => f o = false) l
  end.
Proof.
  induction l as [| x rest IH]; cbn; [constructor |].
  destruct (f x) eqn:Hx.
  - exists [], rest. repeat split; [exact Hx | constructor].
  - destruct (find f rest) as [m |].
    + destruct IH as [before [after [-> [Hm Hbefore]]]].
      exists (x :: before), after. repeat split; [exact Hm |].
      now constructor.
    + now constructor.
Qed.

Lemma AgentType_eqb_eq (x y : AgentType) : AgentType_eqb x y = true <-> x = y.
Proof.
  split; [| intros ->; apply String.eqb_refl].
  destruct x, y; cbn; intros H; try reflexivity; discriminate.
Qed.

(** X14: [getAgentByType] returns the agent of the first member of the
    population whose agent has the type asked for, and [undefined]
    exactly when there is no population or no member of that type. *)
Theorem getAgentByType_finds_first (type : AgentType) (s : Engine) :
  match EvolutionEngine.getAgentByType type s with
  | Some a =>
      exists (p : Population) (before after : list PopulationAgent)
             (m : PopulationAgent),
        currentPopulation s = Some p /\ agents p = before ++ m :: after
        /\ agent m = a /\ agent_type a = type
        /\ Forall (fun o => agent_type (agent o) <> type) before
  | None =>
      forall p, currentPopulation s = Some p ->
                Forall (fun o => agent_type (agent o) <> type) (agents p)
  end.
Proof.
  assert (Hnot : forall l,
            Forall (fun o => AgentType_eqb (agent_type (agent o)) type = false) l ->
            Forall (fun o : PopulationAgent => agent_type (agent o) <> type) l).
  { intros l. apply Forall_impl. intros o Ho Heq.
    apply AgentType_eqb_eq in Heq. congruence. }
  unfold EvolutionEngine.getAgentByType.
  destruct (currentPopulation s) as [p |]; [| intros p Hp; discriminate].
  pose proof (find_first (fun a => AgentType_eqb (agent_type (agent a)) type)
                (agents p)) as Hfind.
  destruct (find _ (agents p)) as [m |]; cbn [option_map].
  - destruct Hfind as [before [after [Hsplit [Hm Hbefore]]]].
    exists p, before, after, m. apply AgentType_eqb_eq in Hm.
    repeat split; auto.
  - intros p0 [= <-]. auto.
Qed.

Example queries_on_small_engine :
  fst (EvolutionEngine.getBestAgent smallEngine) = Return (Some agentB)
  /\ EvolutionEngine.getAgentByType Testing smallEngine = Some agentA
  /\ EvolutionEngine.getAgentByType Architecture smallEngine = None
  /\ fst (EvolutionEngine.getBestAgent EvolutionEngine.newEngine) = Return None.
Proof. repeat split. Qed.

(** ** EvolutionEngine: a failing run *)

Section FailureFacts.
Variable h : Host.
Variable config : EvolutionConfig.

Lemma runEvolutionCycle_without_population (maxGenerations : Z) (s : Engine) :
  currentPopulation s = None ->
  fst (EvolutionEngine.runEvolutionCycle h config maxGenerations s)
  = Throw EvolutionEngine.undefinedPopulation.
Proof.
  intros Hnone. unfold EvolutionEngine.runEvolutionCycle.
  unfold bind at 1.
  destruct (EvolutionEngine.onTick (liftGen (EvolutionEngine.generateCycleId h)) s)
    as [[id | e] s1] eqn:Hid;
    [| unfold EvolutionEngine.onTick, liftGen in Hid;
       destruct (EvolutionEngine.generateCycleId h (tick s)); discriminate].
  assert (Hp1 : currentPopulation s1 = None).
  { unfold EvolutionEngine.onTick, liftGen in Hid.
    destruct (EvolutionEngine.generateCycleId h (tick s)). injection Hid as _ <-.
    exact Hnone. }
  unfold bind at 1. unfold EvolutionEngine.onTick at 1, liftGen at 1.
  destruct (now h (tick s1)) as [start t2].
  unfold bind at 1, EvolutionEngine.get. cbn [currentPopulation EvolutionEngine.setTick
    EvolutionEngine.setArchiveTick]. now rewrite Hp1.
Qed.

Lemma evolveBody_throws_framed (generations : Z) (s s' : Engine) (e : Error) :
  EvolutionEngine.evolveBody h config generations s = (Throw e, s') -> Frame s s'.
Proof.
  unfold EvolutionEngine.evolveBody. intros Hrun.
  apply bind_inv in Hrun.
  destruct Hrun as [[c [s1 [Hcycle Hrest]]] | [e1 [Hcycle _]]];
    [| exact (Framed_runEvolutionCycle h config _ _ _ _ Hcycle)].
  pose proof (Framed_runEvolutionCycle h config _ _ _ _ Hcycle) as Hframe1.
  apply bind_inv in Hrest.
  destruct Hrest as [[c2 [s2 [Harchive Hrecord]]] | [e1 [Harchive _]]].
  - discriminate.
  - eapply Frame_trans; [exact Hframe1 |].
    exact (Framed_archiveBestAgents h _ _ _ _ Harchive).
Qed.

(** X15: a failing [evolve].  Called on an idle engine, [evolve] leaves
    the running flag cleared whether it returns or throws; without a
    population it throws a TypeError; and when it throws, no cycle is
    recorded and [totalGenerations] is unchanged. *)
Theorem evolve_failure_leaves_engine_idle (generations : Z) (s : Engine) :
  isRunning s = false ->
  let outcome := fst (EvolutionEngine.evolve h config generations s) in
  let s' := snd (EvolutionEngine.evolve h config generations s) in
  isRunning s' = false
  /\ (currentPopulation s = None ->
      outcome = Throw EvolutionEngine.undefinedPopulation)
  /\ (forall e, outcome = Throw e ->
        cycles (history s') = cycles (history s)
        /\ totalGenerations (history s') = totalGenerations (history s)).
Proof.
  intros Hidle outcome s'. subst outcome s'.
  rewrite (evolve_idle h config generations s Hidle). unfold tryFinally.
  destruct (EvolutionEngine.evolveBody h config generations
              (EvolutionEngine.setFlags true false s)) as [r s1] eqn:Hbody.
  cbn [fst snd]. split; [reflexivity |]. split.
  - intros Hnone. unfold EvolutionEngine.evolveBody in Hbody.
    pose proof (runEvolutionCycle_without_population generations
                  (EvolutionEngine.setFlags true false s) Hnone) as Hthrow.
    unfold bind in Hbody at 1.
    destruct (EvolutionEngine.runEvolutionCycle h config generations
                (EvolutionEngine.setFlags true false s)) as [[c | e] s2];
      cbn [fst] in Hthrow; [discriminate |].
    injection Hthrow as ->. now injection Hbody as <- _.
  - intros e ->. destruct (evolveBody_throws_framed _ _ _ _ Hbody) as [_ Hgen Hcycles].
    cbn in Hgen, Hcycles |- *. split; assumption.
Qed.

End FailureFacts.

Lemma evolve_failure_leaves_engine_idle_witness :
  fst (EvolutionEngine.evolve exampleHost exampleConfig 1 EvolutionEngine.newEngine)
  = Throw EvolutionEngine.undefinedPopulation
  /\ isRunning (snd (EvolutionEngine.evolve exampleHost exampleConfig 1
                       EvolutionEngine.newEngine)) = false.
Proof.
  pose proof (evolve_failure_leaves_engine_idle exampleHost exampleConfig 1
                EvolutionEngine.newEngine eq_refl) as [Hflag [Hthrow _]].
  split; [exact (Hthrow eq_refl) | exact Hflag].
Defined.

(** ** PopulationManager: statistics *)

Lemma fold_Qmin_le (xs : list Q) (start : Q) :
  (fold_left Qmin xs start <= start)%Q
  /\ forall x, In x xs -> (fold_left Qmin xs start <= x)%Q.
Proof.
  revert start. induction xs as [| y ys IH]; intros start; cbn.
  - split; [lra | contradiction].
  - destruct (IH (Qmin start y)) as [Hstart Hrest].
    pose proof (Q.le_min_l start y). pose proof (Q.le_min_r start y).
    split; [lra |]. intros x [<- | Hin]; [lra | now apply Hrest].
Qed.

Lemma minOf_le (xs : list Q) (x : Q) : In x xs -> (minOf xs <= x)%Q.
Proof.
  destruct xs as [| y ys]; [contradiction |]. cbn.
  destruct (fold_Qmin_le ys y) as [Hstart Hrest].
  intros [<- | Hin]; [exact Hstart | now apply Hrest].
Qed.

Lemma fold_Qmax_attained (xs : list Q) (start : Q) :
  exists x, In x (start :: xs) /\ (x == fold_left Qmax xs start)%Q.
Proof.
  revert start. induction xs as [| y ys IH]; intros start; cbn [fold_left].
  - exists start. split; [now left | reflexivity].
  - destruct (IH (Qmax start y)) as [x [[<- | Hin] Heq]].
    + destruct (Q.max_spec start y) as [[_ Hmax] | [_ Hmax]].
      * exists y. split; [right; now left | now rewrite <- Heq, Hmax].
      * exists start. split; [now left | now rewrite <- Heq, Hmax].
    + exists x. split; [right; now right | exact Heq].
Qed.

Lemma fold_Qmin_attained (xs : list Q) (start : Q) :
  exists x, In x (start :: xs) /\ (x == fold_left Qmin xs start)%Q.
Proof.
  revert start. induction xs as [| y ys IH]; intros start; cbn [fold_left].
  - exists start. split; [now left | reflexivity].
  - destruct (IH (Qmin start y)) as [x [[<- | Hin] Heq]].
    + destruct (Q.min_spec start y) as [[_ Hmin] | [_ Hmin]].
      * exists start. split; [now left | now rewrite <- Heq, Hmin].
      * exists y. split; [right; now left | now rewrite <- Heq, Hmin].
    + exists x. split; [right; now right | exact Heq].
Qed.

Lemma maxOf_attained (xs : list Q) :
  xs <> [] -> exists x, In x xs /\ (x == maxOf xs)%Q.
Proof. destruct xs as [| y ys]; [contradiction | intros _; apply fold_Qmax_attained]. Qed.

Lemma minOf_attained (xs : list Q) :
  xs <> [] -> exists x, In x xs /\ (x == minOf xs)%Q.
Proof. destruct xs as [| y ys]; [contradiction | intros _; apply fold_Qmin_attained]. Qed.

Section StatisticsFacts.
Variable h : Host.

(** X16: population statistics.  For an empty population every figure is
    0.  Otherwise [size] is the number of members, [worstFitness] and
    [bestFitness] bound the [fitness.overall] of every member from below
    and above and are each the fitness of a member, [convergence] lies
    in [0, 1] and [mutationSuccessRate] is the constant 0.5. *)
Theorem calculateStatistics_bounds (members : list PopulationAgent) :
  let stats := PopulationManager.calculateStatistics h members in
  (members = [] ->
   stats = {| stat_size := 0; averageFitness := 0; bestFitness := 0;
              worstFitness := 0; diversity := 0; convergence := 0;
              mutationSuccessRate := 0 |})
  /\ (members <> [] ->
      stat_size stats = Z.of_nat (length members)
      /\ (forall m, In m members ->
            (worstFitness stats <= overall (fitness m))%Q
            /\ (overall (fitness m) <= bestFitness stats)%Q)
      /\ (exists m, In m members /\ (overall (fitness m) == worstFitness stats)%Q)
      /\ (exists m, In m members /\ (overall (fitness m) == bestFitness stats)%Q)
      /\ (0 <= convergence stats)%Q /\ (convergence stats <= 1)%Q
      /\ (mutationSuccessRate stats == 1 # 2)%Q).
Proof.
  intros stats. split; [intros ->; reflexivity |].
  intros Hne. destruct members as [| first rest]; [contradiction |].
  set (members := first :: rest) in *.
  set (values := map (fun a => overall (fitness a)) members).
  assert (Hbounds : forall m, In m members ->
            (minOf values <= overall (fitness m))%Q
            /\ (overall (fitness m) <= maxOf values)%Q).
  { intros m Hm. apply (in_map (fun a => overall (fitness a))) in Hm.
    split; [now apply minOf_le | now apply maxOf_ge]. }
  assert (Hattained : forall pick : list Q -> Q,
            (forall xs, xs <> [] -> exists x, In x xs /\ (x == pick xs)%Q) ->
            exists m, In m members /\ (overall (fitness m) == pick values)%Q).
  { intros pick Hpick. destruct (Hpick values) as [x [Hx Heq]]; [discriminate |].
    apply in_map_iff in Hx. destruct Hx as [m [<- Hm]]. now exists m. }
  subst stats. cbn [PopulationManager.calculateStatistics members].
  fold members. fold values.
  cbn [stat_size averageFitness bestFitness worstFitness convergence
       mutationSuccessRate].
  split; [reflexivity |]. split; [exact Hbounds |].
  split; [apply (Hattained minOf), minOf_attained |].
  split; [apply (Hattained maxOf), maxOf_attained |].
  split; [apply Q.le_max_l |]. split; [| reflexivity].
  apply Q.max_lub; [lra | apply Q.le_min_l].
Qed.

End StatisticsFacts.

(** ** PopulationManager: elites and new populations *)

Lemma mapIndexed_spec {A B : Type} (f : A -> Z -> B) (l : list A) (start : Z) :
  length (mapIndexed f start l) = length l
  /\ forall i x, nth_error l i = Some x ->
       nth_error (mapIndexed f start l) i = Some (f x (start + Z.of_nat i)).
Proof.
  revert start. induction l as [| y ys IH]; intros start; cbn.
  - split; [reflexivity |]. intros [| i] x; discriminate.
  - destruct (IH (start + 1)) as [Hlen Hnth]. split; [now rewrite Hlen |].
    intros [| i] x; cbn.
    + intros [= <-]. now rewrite Z.add_0_r.
    + intros Hx. rewrite (Hnth i x Hx). do 2 f_equal. lia.
Qed.

Lemma mapIndexed_map {A B C : Type} (f : A -> Z -> B) (g : B -> C) (k : A -> C)
    (l : list A) (start : Z) :
  (forall x i, g (f x i) = k x) ->
  map g (mapIndexed f start l) = map k l.
Proof.
  intros Hg. revert start. induction l as [| y ys IH]; intros start; cbn;
    [reflexivity |]. now rewrite Hg, IH.
Qed.

Section ElitesFacts.
Variable h : Host.

(** X17: [markElites] ranks the members by descending fitness and marks
    the first floor(size x eliteRatio) of them, and no others, as elite:
    the member at position [i] is elite exactly when [i] is below that
    count, whatever its mark was before.  Agents, fitness values and
    ages are those of the population, reordered; id, generation and
    statistics are kept. *)
Theorem markElites_marks_the_fittest (population : Population) (eliteRatio : Q)
    (t : nat) :
  let marked := fst (PopulationManager.markElites h population eliteRatio t) in
  let eliteCount := floorMul (length (agents population)) eliteRatio in
  map unmarked (agents marked)
  = map unmarked (sort byFitnessDesc (agents population))
  /\ Permutation (map unmarked (agents marked)) (map unmarked (agents population))
  /\ StronglySorted ranksBefore (agents marked)
  /\ (forall i m, nth_error (agents marked) i = Some m ->
        isElite m = (Z.of_nat i <? eliteCount))
  /\ population_id marked = population_id population
  /\ population_generation marked = population_generation population
  /\ statistics marked = statistics population.
Proof.
  intros marked eliteCount. subst marked.
  unfold PopulationManager.markElites, gbind, gret, now. cbn [fst].
  cbn [agents PopulationManager.withMembers population_id population_generation
       statistics].
  fold eliteCount.
  set (ranked := sort byFitnessDesc (agents population)).
  set (mark := fun (a : PopulationAgent) (index : Z) =>
                 {| agent := agent a; fitness := fitness a; age := age a;
                    isElite := index <? eliteCount |}).
  assert (Hsame : map unmarked (mapIndexed mark 0 ranked) = map unmarked ranked).
  { apply mapIndexed_map. reflexivity. }
  split; [exact Hsame |].
  split; [rewrite Hsame; apply Permutation_map, sort_perm |].
  split.
  { assert (Hfit : map fitness (mapIndexed mark 0 ranked) = map fitness ranked).
    { apply mapIndexed_map. reflexivity. }
    pose proof (sort_ranked (agents population)) as Hranked. fold ranked in Hranked.
    clear -Hfit Hranked. revert Hfit.
    generalize (mapIndexed mark 0 ranked) as l.
    induction Hranked as [| x xs Hxs IH Hall]; intros l Hfit.
    - destruct l; [constructor | discriminate].
    - destruct l as [| y ys]; [discriminate |]. cbn in Hfit.
      injection Hfit as Hy Hys. constructor; [now apply IH |].
      apply Forall_forall. intros z Hz.
      apply (in_map fitness) in Hz. rewrite Hys in Hz.
      apply in_map_iff in Hz. destruct Hz as [w [Hw Hin]].
      rewrite Forall_forall in Hall. specialize (Hall w Hin).
      unfold ranksBefore in *. now rewrite <- Hw, Hy. }
  split; [| repeat split].
  intros i m Hm.
  destruct (mapIndexed_spec mark ranked 0) as [Hlen Hnth].
  destruct (nth_error ranked i) as [x |] eqn:Hx.
  - rewrite (Hnth i x Hx) in Hm. injection Hm as <-. reflexivity.
  - apply nth_error_None in Hx. rewrite <- Hlen in Hx.
    apply nth_error_None in Hx. congruence.
Qed.

End ElitesFacts.

Lemma floorMul_bounds (n : nat) (rate : Q) :
  (0 <= rate)%Q -> (rate <= 1)%Q -> 0 <= floorMul n rate <= Z.of_nat n.
Proof.
  intros Hlo Hhi. unfold floorMul.
  assert (Hn : (0 <= inject_Z (Z.of_nat n))%Q) by (unfold Qle; cbn; lia).
  split.
  - change 0 with (Qfloor 0). apply Qfloor_resp_le. nra.
  - rewrite <- (Qfloor_Z (Z.of_nat n)) at 2. apply Qfloor_resp_le. nra.
Qed.

Lemma Qltb_lt (x y : Q) : Qltb x y = true <-> (x < y)%Q.
Proof.
  unfold Qltb. rewrite negb_true_iff. split.
  - intros Hle. apply Qnot_le_lt. intros H. apply Qle_bool_iff in H. congruence.
  - intros Hlt. destruct (Qle_bool y x) eqn:Hle; [| reflexivity].
    apply Qle_bool_iff in Hle. lra.
Qed.

Section CreatePopulationFacts.
Variable h : Host.

Lemma populationAgentsFrom_marks (l : list IAgent) (index : Z) (total t : nat) :
  Forall (fun m => age m = 0) (fst (PopulationManager.populationAgentsFrom h l index total t))
  /\ forall i m,
       nth_error (fst (PopulationManager.populationAgentsFrom h l index total t)) i
       = Some m ->
       isElite m = (index + Z.of_nat i <? floorMul total (1 # 10)).
Proof.
  revert index t. induction l as [| a rest IH]; intros index t;
    cbn [PopulationManager.populationAgentsFrom].
  - split; [constructor |]. intros [| i] m; discriminate.
  - unfold gbind, gret.
    destruct (PopulationManager.createInitialFitness h t) as [initial t1].
    destruct (IH (index + 1) t1) as [Hages Hmarks].
    destruct (PopulationManager.populationAgentsFrom h rest (index + 1) total t1)
      as [more t2].
    cbn [fst] in *. split; [now constructor |].
    intros [| i] m; cbn [nth_error].
    + intros [= <-]. cbn [isElite]. now rewrite Z.add_0_r.
    + intros Hm. rewrite (Hmarks i m Hm). f_equal. lia.
Qed.

(** X20: [createPopulation] makes one member per agent, in the order
    given, with age 0 and the generation number it is handed; the member
    at position [i] is marked elite exactly when [i] is below
    floor(size x 0.1), a fixed tenth that does not depend on the
    configured [elitismRate]; the statistics are those of the members. *)
Theorem createPopulation_marks_first_tenth (agentList : list IAgent)
    (generation : Z) (t : nat) :
  let p := fst (PopulationManager.createPopulation h agentList generation t) in
  map agent (agents p) = agentList
  /\ population_generation p = generation
  /\ Forall (fun m => age m = 0) (agents p)
  /\ (forall i m, nth_error (agents p) i = Some m ->
        isElite m = (Z.of_nat i <? floorMul (length agentList) (1 # 10)))
  /\ statistics p = PopulationManager.calculateStatistics h (agents p).
Proof.
  intros p. subst p. unfold PopulationManager.createPopulation, gbind, gret.
  pose proof (populationAgentsFrom_agents h agentList 0 (length agentList) t) as Hagents.
  destruct (populationAgentsFrom_marks agentList 0 (length agentList) t)
    as [Hages Hmarks].
  destruct (PopulationManager.populationAgentsFrom h agentList 0 (length agentList) t)
    as [members t1].
  destruct (PopulationManager.generatePopulationId h t1) as [id t2].
  destruct (now h t2) as [time t3].
  cbn [fst agents population_generation statistics] in *.
  repeat split; assumption.
Qed.

End CreatePopulationFacts.

(** ** MutationGenerator *)

Lemma splitDot_nonempty (s : string) : MutationGenerator.splitDot s <> [].
Proof.
  induction s as [| c rest IH]; cbn; [discriminate |].
  destruct (Ascii.eqb c "."); [discriminate |].
  destruct (MutationGenerator.splitDot rest); [contradiction | discriminate].
Qed.

Lemma splitDot_part (part rest : string) :
  dotFree part = true ->
  MutationGenerator.splitDot (part ++ String "." rest)
  = part :: MutationGenerator.splitDot rest.
Proof.
  induction part as [| c more IH]; cbn; [reflexivity |].
  intros Hfree. apply andb_true_iff in Hfree. destruct Hfree as [Hc Hmore].
  apply negb_true_iff in Hc. rewrite Hc, (IH Hmore). reflexivity.
Qed.

Lemma splitDot_last (part : string) :
  dotFree part = true -> MutationGenerator.splitDot part = [part].
Proof.
  induction part as [| c more IH]; cbn; [reflexivity |].
  intros Hfree. apply andb_true_iff in Hfree. destruct Hfree as [Hc Hmore].
  apply negb_true_iff in Hc. rewrite Hc, (IH Hmore). reflexivity.
Qed.

Lemma digits_dotFree (d : Decimal.uint) :
  dotFree (NilEmpty.string_of_uint d) = true.
Proof. induction d; cbn; assumption || reflexivity. Qed.

Lemma leadingDigits_acc (d : Decimal.uint) (acc : positive) :
  MutationGenerator.leadingDigits 10 (NilEmpty.string_of_uint d) (Some (Z.pos acc))
  = Some (Z.pos (Pos.of_uint_acc d acc)).
Proof.
  revert acc. induction d; intros acc; cbn [NilEmpty.string_of_uint
    MutationGenerator.leadingDigits Pos.of_uint_acc];
    [reflexivity | ..];
    match goal with
    | |- context [MutationGenerator.digitOf 10 ?c] =>
        change (MutationGenerator.digitOf 10 c)
          with (Some (Z.of_nat (nat_of_ascii c) - 48))
    end;
    rewrite <- IHd; f_equal; f_equal;
    match goal with
    | |- context [Z.of_nat (nat_of_ascii ?c)] =>
        let v := eval vm_compute in (Z.of_nat (nat_of_ascii c)) in
        change (Z.of_nat (nat_of_ascii c)) with v
    end; lia.
Qed.

Lemma leadingDigits_digits (d : Decimal.uint) (start : option Z) :
  d <> Decimal.Nil ->
  start = None \/ start = Some 0 ->
  MutationGenerator.leadingDigits 10 (NilEmpty.string_of_uint d) start
  = Some (Z.of_N (Pos.of_uint d)).
Proof.
  revert start. induction d; intros start Hne Hstart; [contradiction | ..];
    cbn [NilEmpty.string_of_uint MutationGenerator.leadingDigits Pos.of_uint];
    match goal with
    | |- context [MutationGenerator.digitOf 10 ?c] =>
        let v := eval vm_compute in (MutationGenerator.digitOf 10 c) in
        change (MutationGenerator.digitOf 10 c) with v
    end;
    cbv beta iota;
    replace (10 * match start with Some a => a | None => 0 end) with 0
      by (destruct Hstart as [-> | ->]; reflexivity);
    cbn [Z.add];
    try (rewrite leadingDigits_acc; reflexivity).
  destruct d; [reflexivity | ..]; (apply IHd; [discriminate | now right]).
Qed.

Lemma digit_is_plain (c : ascii) :
  isDecimalDigit c = true ->
  MutationGenerator.isBlank c = false
  /\ Ascii.eqb c "-" = false /\ Ascii.eqb c "+" = false
  /\ Ascii.eqb c "x" = false /\ Ascii.eqb c "X" = false.
Proof.
  destruct c as [b0 b1 b2 b3 b4 b5 b6 b7].
  destruct b0, b1, b2, b3, b4, b5, b6, b7; vm_compute;
    intros H; try discriminate H; repeat split.
Qed.

Lemma digits_only (d : Decimal.uint) :
  digitsOnly (NilEmpty.string_of_uint d) = true.
Proof. induction d; cbn; assumption || reflexivity. Qed.

(** On a string of decimal digits [parseInt] has nothing to skip. *)
Lemma parseInt_digits (s : string) :
  digitsOnly s = true ->
  MutationGenerator.parseInt s = MutationGenerator.leadingDigits 10 s None.
Proof.
  unfold MutationGenerator.parseInt.
  destruct s as [| c1 rest]; [reflexivity |].
  cbn [digitsOnly]. intros Hdigits. apply andb_true_iff in Hdigits.
  destruct Hdigits as [H1 Hrest].
  destruct (digit_is_plain c1 H1) as [Hblank [Hminus [Hplus _]]].
  cbn [MutationGenerator.skipBlanks]. rewrite Hblank.
  cbn [MutationGenerator.stripSign]. rewrite Hminus, Hplus.
  destruct rest as [| c2 rest].
  - cbn [MutationGenerator.stripPrefix].
    now destruct (MutationGenerator.leadingDigits 10 _ None).
  - cbn [digitsOnly] in Hrest. apply andb_true_iff in Hrest.
    destruct Hrest as [H2 _].
    destruct (digit_is_plain c2 H2) as [_ [_ [_ [Hx HX]]]].
    cbn [MutationGenerator.stripPrefix]. rewrite Hx, HX, andb_false_r.
    now destruct (MutationGenerator.leadingDigits 10 _ None).
Qed.

Lemma parseInt_showZ (n : Z) :
  0 <= n -> MutationGenerator.parseInt (showZ n) = Some n.
Proof.
  intros Hn. unfold showZ.
  destruct n as [| p | p]; [reflexivity | | lia].
  cbn [Z.to_int NilZero.string_of_int]. unfold NilZero.string_of_uint.
  pose proof (Unsigned.to_uint_nonnil p) as Hnonnil.
  destruct (Pos.to_uint p) eqn:Hp; [contradiction | ..];
    rewrite <- Hp; rewrite parseInt_digits by apply digits_only;
    rewrite leadingDigits_digits by (rewrite ?Hp; auto; discriminate);
    now rewrite DecimalPos.Unsigned.of_to.
Qed.

Lemma showZ_part (n : Z) : 0 <= n -> dotFree (showZ n) = true /\ showZ n <> "".
Proof.
  intros Hn. unfold showZ. destruct n as [| p | p]; [split; [reflexivity | discriminate] | | lia].
  cbn [Z.to_int NilZero.string_of_int]. unfold NilZero.string_of_uint.
  pose proof (Unsigned.to_uint_nonnil p) as Hnonnil.
  destruct (Pos.to_uint p) eqn:Hp; [contradiction | ..];
    (split; [rewrite <- Hp; apply digits_dotFree | cbn; discriminate]).
Qed.

Lemma incrementVersion_plain (major minor : string) (patch : Z) :
  dotFree major = true -> dotFree minor = true -> 0 <= patch < 2 ^ 53 ->
  let next := (major ++ "." ++ minor ++ "." ++ showZ (patch + 1))%string in
  MutationGenerator.incrementVersion (major ++ "." ++ minor ++ "." ++ showZ patch)
  = next
  /\ (forall rest,
        MutationGenerator.incrementVersion
          (major ++ "." ++ minor ++ "." ++ showZ patch ++ "." ++ rest)
        = next)
  /\ MutationGenerator.incrementVersion (major ++ "." ++ minor)
     = (major ++ "." ++ minor ++ ".1")%string.
Proof.
  intros Hmajor Hminor [Hpatch Hsafe] next.
  destruct (showZ_part patch Hpatch) as [Hfree Hnonempty].
  assert (Hthird : forall parts,
            (let part (i : nat) := match nth_error (major :: minor :: showZ patch :: parts) i with
                                   | Some p => p
                                   | None => "undefined"
                                   end in
             let third := match nth_error (major :: minor :: showZ patch :: parts) 2 with
                          | Some EmptyString | None => "0"
                          | Some p => p
                          end in
             let shown := match MutationGenerator.parseInt third with
                          | Some n => showZ (n + 1)
                          | None => "NaN"
                          end in
             (part 0%nat ++ "." ++ part 1%nat ++ "." ++ shown)%string) = next).
  { intros parts. cbn [nth_error]. cbv zeta.
    destruct (showZ patch) eqn:Hshown; [contradiction |].
    rewrite <- Hshown, (parseInt_showZ patch Hpatch). reflexivity. }
  split; [| split].
  - unfold MutationGenerator.incrementVersion.
    change (major ++ "." ++ minor ++ "." ++ showZ patch)%string
      with (major ++ String "." (minor ++ String "." (showZ patch)))%string.
    rewrite (splitDot_part major _ Hmajor), (splitDot_part minor _ Hminor),
      (splitDot_last _ Hfree).
    exact (Hthird []).
  - intros rest. unfold MutationGenerator.incrementVersion.
    change (major ++ "." ++ minor ++ "." ++ showZ patch ++ "." ++ rest)%string
      with (major ++ String "." (minor ++ String "." (showZ patch ++ String "." rest)))%string.
    rewrite (splitDot_part major _ Hmajor), (splitDot_part minor _ Hminor),
      (splitDot_part _ _ Hfree).
    exact (Hthird (MutationGenerator.splitDot rest)).
  - unfold MutationGenerator.incrementVersion.
    change (major ++ "." ++ minor)%string with (major ++ String "." minor)%string.
    rewrite (splitDot_part major _ Hmajor), (splitDot_last _ Hminor).
    reflexivity.
Qed.

(** X21: [incrementVersion] on a version [major.minor.patch] whose
    parts contain no dot and whose patch is a decimal number with
    [0 <= patch < 2^53] returns [major.minor.(patch + 1)]; further parts
    after the patch are dropped, and a version with two parts only gets
    the patch 1.  (From 2^53 on a JavaScript number no longer holds
    every integer, and the patch may stay where it is.) *)
Theorem incrementVersion_increments_patch (major minor : string) (patch : Z) :
  dotFree major = true -> dotFree minor = true -> 0 <= patch < 2 ^ 53 ->
  let next := (major ++ "." ++ minor ++ "." ++ showZ (patch + 1))%string in
  MutationGenerator.incrementVersion (major ++ "." ++ minor ++ "." ++ showZ patch)
  = next
  /\ (forall rest,
        MutationGenerator.incrementVersion
          (major ++ "." ++ minor ++ "." ++ showZ patch ++ "." ++ rest)
        = next)
  /\ MutationGenerator.incrementVersion (major ++ "." ++ minor)
     = (major ++ "." ++ minor ++ ".1")%string.
Proof.
  intros Hmajor Hminor Hpatch. now apply incrementVersion_plain.
Qed.

Lemma incrementVersion_increments_patch_witness :
  MutationGenerator.incrementVersion "1.0.9" = "1.0.10"
  /\ MutationGenerator.incrementVersion "2.5" = "2.5.1".
Proof.
  destruct (incrementVersion_increments_patch "1" "0" 9 eq_refl eq_refl ltac:(lia))
    as [Hfull _].
  destruct (incrementVersion_increments_patch "2" "5" 0 eq_refl eq_refl ltac:(lia))
    as [_ [_ Htwo]].
  split; [exact Hfull | exact Htwo].
Defined.

(** Signs, blanks and the hexadecimal prefix in the patch. *)
Example incrementVersion_on_other_patches :
  MutationGenerator.incrementVersion "1.2.-3" = "1.2.-2"
  /\ MutationGenerator.incrementVersion "1.2. 7" = "1.2.8"
  /\ MutationGenerator.incrementVersion "1.2.0x1f" = "1.2.32"
  /\ MutationGenerator.incrementVersion "1.2.7beta" = "1.2.8"
  /\ MutationGenerator.incrementVersion "1.2.beta" = "1.2.NaN"
  /\ MutationGenerator.incrementVersion "1" = "1.undefined.1".
Proof. repeat split. Qed.

Section MutateFacts.
Variable h : Host.
Variable config : EvolutionConfig.

Lemma applyMutation_spec (a : IAgent) (mutation : Mutation) (t : nat) :
  String.prefix "mut_" (mutation_id mutation) = true ->
  MutantOf a (fst (MutationGenerator.applyMutation h a mutation t)).
Proof.
  intros Hid. unfold MutationGenerator.applyMutation, MutationGenerator.generateAgentId,
    gbind, gret, now, randomSuffix. cbn [fst].
  constructor; cbn [agent_type capabilities agent_state hasMethods agent_version
                    agent_id metadata parentId meta_generation mutationHistory
                    meta_tags createdAt]; try reflexivity.
  - intros major minor patch Hmajor Hminor Hpatch ->.
    now apply incrementVersion_plain.
  - exists (mutation_id mutation). split; [exact Hid | reflexivity].
  - now destruct (showZ (host_now h t) ++ _)%string.
Qed.

(** X22: [mutate] never throws and either hands the agent back
    untouched or returns a mutant of it.  It reads one random number
    [r]: when [r > mutationRate] the agent itself is returned; otherwise
    the result is a plain object without the agent's methods, with a new
    id [agent_...], the same type, capabilities and state, the
    original's id as [parentId], the generation plus one, exactly one
    more entry in its mutation history and, for a version
    [major.minor.patch] with a decimal patch below 2^53, the version
    with its patch incremented.  With [mutationRate >= 1] every call
    mutates. *)
Theorem mutate_returns_agent_or_mutant (a : IAgent) (t : nat) :
  exists (result : IAgent) (t' : nat),
    MutationGenerator.mutate h config a t = (Return result, t')
    /\ ((mutationRate config < host_random h t)%Q -> result = a /\ t' = S t)
    /\ ((host_random h t <= mutationRate config)%Q -> MutantOf a result)
    /\ (HostOK h -> (1 <= mutationRate config)%Q -> MutantOf a result).
Proof.
  unfold MutationGenerator.mutate, liftGen, gbind at 1, random.
  destruct (Qltb (mutationRate config) (host_random h t)) eqn:Hdraw.
  - apply Qltb_lt in Hdraw. cbn [gret].
    exists a, (S t). split; [reflexivity |]. split; [auto |].
    split; [intros; lra |]. intros Hok Hrate.
    destruct (random_range h Hok t). lra.
  - assert (Hle : (host_random h t <= mutationRate config)%Q).
    { apply Qnot_lt_le. intros Hlt. apply Qltb_lt in Hlt. congruence. }
    unfold gbind at 1.
    destruct (MutationGenerator.generateMutation h a (S t)) as [mutation t1] eqn:Hmutation.
    assert (Hid : String.prefix "mut_" (mutation_id mutation) = true).
    { unfold MutationGenerator.generateMutation, MutationGenerator.generateMutationId,
        MutationGenerator.selectMutationType, gbind, gret, now, randomSuffix, random
        in Hmutation.
      injection Hmutation as <- _. cbn.
      now destruct (showZ (host_now h _) ++ _)%string. }
    pose proof (applyMutation_spec a mutation t1 Hid) as Hmutant.
    destruct (MutationGenerator.applyMutation h a mutation t1) as [mutant t2].
    exists mutant, t2. split; [reflexivity |]. split; [intros; lra |].
    split; intros; exact Hmutant.
Qed.

End MutateFacts.

(** ** FitnessEvaluator: benchmarks and batches *)

Lemma scoreTaskResult_unit (result : TaskResult) :
  inUnit (FitnessEvaluator.scoreTaskResult result).
Proof.
  unfold FitnessEvaluator.scoreTaskResult, inUnit.
  destruct (success result); cbn [negb]; [| split; lra].
  repeat match goal with
         | |- context [if ?c then _ else _] => destruct c
         end;
    split; try apply Q.le_min_l; apply Q.min_glb; lra.
Qed.

Section BenchmarkFacts.
Variable h : Host.

Lemma benchmarkLoop_spec (a : IAgent) (tasks : list Task) (totalScore : Q)
    (completedTasks : Z) (t : nat) :
  (0 <= totalScore)%Q -> (totalScore <= inject_Z completedTasks)%Q ->
  exists total completed t',
    FitnessEvaluator.benchmarkLoop h a tasks totalScore completedTasks t
    = (Return (total, completed), t')
    /\ (0 <= total)%Q /\ (total <= inject_Z completed)%Q
    /\ completed = completedTasks + Z.of_nat (length tasks).
Proof.
  revert totalScore completedTasks t.
  induction tasks as [| task rest IH]; intros totalScore completedTasks t Hlo Hhi;
    cbn [FitnessEvaluator.benchmarkLoop].
  - exists totalScore, completedTasks, t. cbn. repeat split; try assumption. lia.
  - unfold bind at 1, tryCatch, bind at 1, execute, ret.
    assert (Hnext : (inject_Z (completedTasks + 1) == inject_Z completedTasks + 1)%Q).
    { rewrite inject_Z_plus. reflexivity. }
    destruct (hasMethods a);
      [destruct (host_execute h t a task) as [result | e] |]; cbn [fst snd].
    + destruct (scoreTaskResult_unit result) as [Hr0 Hr1].
      destruct (IH (if success result
                    then (totalScore + FitnessEvaluator.scoreTaskResult result)%Q
                    else totalScore) (completedTasks + 1) (S t))
        as [total [completed [t' [Hrun [H0 [H1 Hcount]]]]]].
      * destruct (success result); lra.
      * rewrite Hnext. destruct (success result); lra.
      * exists total, completed, t'. rewrite Hrun.
        repeat split; try assumption. cbn [length]. lia.
    + destruct (IH totalScore (completedTasks + 1) (S t))
        as [total [completed [t' [Hrun [H0 [H1 Hcount]]]]]]; [lra | rewrite Hnext; lra |].
      exists total, completed, t'. rewrite Hrun.
      repeat split; try assumption. cbn [length]. lia.
    + destruct (IH totalScore (completedTasks + 1) t)
        as [total [completed [t' [Hrun [H0 [H1 Hcount]]]]]]; [lra | rewrite Hnext; lra |].
      exists total, completed, t'. rewrite Hrun.
      repeat split; try assumption. cbn [length]. lia.
Qed.

Lemma runBenchmarkSuite_unit (a : IAgent) (suite : FitnessEvaluator.BenchmarkSuite)
    (t : nat) :
  exists score t',
    FitnessEvaluator.runBenchmarkSuite h a suite t = (Return score, t')
    /\ inUnit score.
Proof.
  unfold FitnessEvaluator.runBenchmarkSuite.
  destruct (benchmarkLoop_spec a (FitnessEvaluator.suite_tasks suite) 0 0 t)
    as [total [completed [t' [Hrun [H0 [H1 Hcount]]]]]];
    [lra | change (inject_Z 0) with 0%Q; lra |].
  unfold bind. rewrite Hrun. cbn [fst snd ret].
  eexists _, _. split; [reflexivity |].
  destruct (Z.ltb_spec 0 completed) as [Hpos | _]; [| split; lra].
  assert (Hq : (0 < inject_Z completed)%Q) by (unfold Qlt; cbn; lia).
  split; [apply Qle_shift_div_l; lra | apply Qle_shift_div_r; lra].
Qed.

Lemma getKey_setKey {V : Type} (key other : string) (value : V)
    (m : list (string * V)) :
  FitnessEvaluator.getKey other (FitnessEvaluator.setKey key value m)
  = if String.eqb key other then Some value else FitnessEvaluator.getKey other m.
Proof.
  induction m as [| [k v] rest IH]; cbn.
  - reflexivity.
  - destruct (String.eqb_spec k key) as [-> | Hk]; cbn.
    + destruct (String.eqb key other); reflexivity.
    + rewrite IH. destruct (String.eqb_spec k other) as [-> | Hother].
      * destruct (String.eqb_spec key other) as [-> | _]; [contradiction | reflexivity].
      * reflexivity.
Qed.

Lemma suiteLoop_spec (a : IAgent) (suites : list FitnessEvaluator.BenchmarkSuite)
    (results : list (string * Q)) (totalScore totalWeight : Q) (t : nat) :
  exists details total weight t',
    FitnessEvaluator.suiteLoop h a suites results totalScore totalWeight t
    = (Return (details, total, weight), t')
    /\ (Forall (fun s => 0 <= FitnessEvaluator.suite_weight s)%Q suites ->
        (0 <= totalScore)%Q -> (totalScore <= totalWeight)%Q ->
        (0 <= total)%Q /\ (total <= weight)%Q)
    /\ (forall name,
          (exists s, In s suites /\ FitnessEvaluator.suite_name s = name)
          \/ (exists v, FitnessEvaluator.getKey name results = Some v /\ inUnit v) ->
          exists v, FitnessEvaluator.getKey name details = Some v /\ inUnit v)
    /\ (forall name v, FitnessEvaluator.getKey name details = Some v ->
          (exists s, In s suites /\ FitnessEvaluator.suite_name s = name)
          \/ FitnessEvaluator.getKey name results = Some v).
Proof.
  revert results totalScore totalWeight t.
  induction suites as [| suite rest IH]; intros results totalScore totalWeight t;
    cbn [FitnessEvaluator.suiteLoop].
  - exists results, totalScore, totalWeight, t. split; [reflexivity |].
    split; [auto |]. split.
    + intros name [[s [[] _]] | Hold]. exact Hold.
    + intros name v Hv. now right.
  - destruct (runBenchmarkSuite_unit a suite t) as [score [t1 [Hscore [Hs0 Hs1]]]].
    unfold bind at 1. rewrite Hscore.
    destruct (IH (FitnessEvaluator.setKey (FitnessEvaluator.suite_name suite) score results)
                 (totalScore + score * FitnessEvaluator.suite_weight suite)%Q
                 (totalWeight + FitnessEvaluator.suite_weight suite)%Q t1)
      as [details [total [weight [t' [Hrun [Hbounds [Hkeys Honly]]]]]]].
    exists details, total, weight, t'. split; [exact Hrun |]. split; [| split].
    + intros Hweights H0 H1. inversion Hweights as [| ? ? Hw Hrest]; subst.
      apply Hbounds; [exact Hrest | nra | nra].
    + intros name Hname. apply Hkeys.
      destruct (String.eqb_spec (FitnessEvaluator.suite_name suite) name) as [Heq | Hneq].
      * right. exists score. rewrite getKey_setKey, Heq, String.eqb_refl.
        split; [reflexivity | split; assumption].
      * destruct Hname as [[s [[<- | Hin] Hs]] | [v [Hv Hunit]]].
        -- contradiction.
        -- left. now exists s.
        -- right. exists v. rewrite getKey_setKey.
           apply String.eqb_neq in Hneq. rewrite Hneq. now split.
    + intros name v Hv. destruct (Honly name v Hv) as [[s [Hin Hs]] | Hset].
      * left. exists s. split; [now right | exact Hs].
      * rewrite getKey_setKey in Hset.
        destruct (String.eqb_spec (FitnessEvaluator.suite_name suite) name) as [Heq | Hneq].
        -- left. exists suite. split; [now left | exact Heq].
        -- now right.
Qed.

(** X23: [benchmarkAgent].  When no suite is selected (no suite has the
    name asked for, or no suite was added) it throws
    [Benchmark suite not found: <name>].  Otherwise it returns, whatever
    the agent's tasks do: [details] holds one score in [0, 1] for each
    selected suite name and nothing else, and when no selected suite has
    a negative weight the overall score, the weighted mean of the suite
    scores, lies in [0, 1] as well. *)
Theorem benchmarkAgent_scores (suites : list FitnessEvaluator.BenchmarkSuite)
    (a : IAgent) (suiteName : option string) (t : nat) :
  let selected := selectedSuites suites suiteName in
  (selected = [] ->
   FitnessEvaluator.benchmarkAgent h suites a suiteName t
   = (Throw (Err ("Benchmark suite not found: "
                  ++ match suiteName with
                     | Some name => name
                     | None => "undefined"
                     end)), t))
  /\ (selected <> [] ->
      exists (score : Q) (details : list (string * Q)) (t' : nat),
        FitnessEvaluator.benchmarkAgent h suites a suiteName t
        = (Return (score, details), t')
        /\ (Forall (fun s => 0 <= FitnessEvaluator.suite_weight s)%Q selected ->
            inUnit score)
        /\ (forall s, In s selected ->
              exists v, FitnessEvaluator.getKey (FitnessEvaluator.suite_name s) details
                        = Some v /\ inUnit v)
        /\ (forall name v, FitnessEvaluator.getKey name details = Some v ->
              exists s, In s selected /\ FitnessEvaluator.suite_name s = name)).
Proof.
  intros selected.
  assert (Hselected :
    (if match suiteName with
        | Some name => negb (String.eqb name "")
        | None => false
        end
     then filter (fun s => String.eqb (FitnessEvaluator.suite_name s)
                             match suiteName with Some name => name | None => "" end)
                 suites
     else suites) = selected).
  { subst selected. unfold selectedSuites.
    destruct suiteName as [[| c name] |]; reflexivity. }
  unfold FitnessEvaluator.benchmarkAgent. rewrite Hselected.
  split.
  - intros ->. reflexivity.
  - intros Hne. destruct selected as [| first rest] eqn:Hsel; [contradiction |].
    rewrite <- Hsel in *.
    destruct (suiteLoop_spec a selected [] 0 0 t)
      as [details [total [weight [t' [Hrun [Hbounds [Hkeys Honly]]]]]]].
    assert (Hgoal : exists score details t',
              (acc <- FitnessEvaluator.suiteLoop h a selected [] 0%Q 0%Q ;;
               ret (if Qltb 0 (snd acc) then (snd (fst acc) / snd acc)%Q else 0%Q,
                    fst (fst acc)))%eff t = (Return (score, details), t')
              /\ (Forall (fun s => 0 <= FitnessEvaluator.suite_weight s)%Q selected ->
                  inUnit score)
              /\ (forall s, In s selected ->
                    exists v, FitnessEvaluator.getKey (FitnessEvaluator.suite_name s) details
                              = Some v /\ inUnit v)
              /\ (forall name v, FitnessEvaluator.getKey name details = Some v ->
                    exists s, In s selected /\ FitnessEvaluator.suite_name s = name)).
    { unfold bind. rewrite Hrun. cbn [fst snd ret].
      eexists _, details, t'. split; [reflexivity |]. split; [| split].
      - intros Hweights. destruct (Hbounds Hweights) as [H0 H1]; [lra | lra |].
        destruct (Qltb 0 weight) eqn:Hw; [| split; lra].
        apply Qltb_lt in Hw.
        split; [apply Qle_shift_div_l; lra | apply Qle_shift_div_r; lra].
      - intros s Hs. apply Hkeys. left. now exists s.
      - intros name v Hv. destruct (Honly name v Hv) as [Hs | Hnone];
          [exact Hs | discriminate]. }
    rewrite Hsel in Hgoal |- *. exact Hgoal.
Qed.

End BenchmarkFacts.

Example benchmark_on_example_host :
  fst (FitnessEvaluator.benchmarkAgent exampleHost FitnessEvaluator.standardSuites
         agentA (Some "performance") 0%nat)
  = Return (80 # 80, [("performance", 1%Q)])
  /\ fst (FitnessEvaluator.benchmarkAgent exampleHost FitnessEvaluator.standardSuites
            agentA (Some "security") 0%nat)
     = Throw (Err "Benchmark suite not found: security")
  /\ fst (FitnessEvaluator.benchmarkAgent exampleHost [] agentA None 0%nat)
     = Throw (Err "Benchmark suite not found: undefined").
Proof. vm_compute. repeat split. Qed.

Lemma setKey_keys {V : Type} (key : string) (value : V) (m : list (string * V)) :
  (In key (map fst m) -> map fst (FitnessEvaluator.setKey key value m) = map fst m)
  /\ (~ In key (map fst m) ->
      map fst (FitnessEvaluator.setKey key value m) = map fst m ++ [key]).
Proof.
  induction m as [| [k v] rest [IHin IHout]]; cbn.
  - split; [contradiction | reflexivity].
  - destruct (String.eqb_spec k key) as [-> | Hk]; cbn.
    + split; [reflexivity | intros Hout; exfalso; apply Hout; now left].
    + split.
      * intros [Heq | Hin]; [contradiction | now rewrite IHin].
      * intros Hout. rewrite IHout; [reflexivity | tauto].
Qed.

Lemma getKey_keys {V : Type} (key : string) (m : list (string * V)) :
  In key (map fst m) <-> exists v, FitnessEvaluator.getKey key m = Some v.
Proof.
  induction m as [| [k v] rest IH]; cbn.
  - split; [contradiction | intros [v Hv]; discriminate].
  - destruct (String.eqb_spec k key) as [-> | Hk].
    + split; [intros _; now exists v | intros _; now left].
    + rewrite <- IH. split; [intros [Heq | Hin]; [contradiction | exact Hin] | now right].
Qed.

Section BatchFacts.
Variable h : Host.

Lemma evaluateAll_spec (agentList : list IAgent)
    (results : list (string * FitnessScore)) (t : nat) :
  exists scores t',
    FitnessEvaluator.evaluateAll h agentList results t = (Return scores, t')
    /\ (forall id,
          (exists a, In a agentList /\ agent_id a = id)
          \/ (exists score, FitnessEvaluator.getKey id results = Some score
                            /\ isWeighted score) ->
          exists score, FitnessEvaluator.getKey id scores = Some score
                        /\ isWeighted score)
    /\ (forall id score, FitnessEvaluator.getKey id scores = Some score ->
          (exists a, In a agentList /\ agent_id a = id)
          \/ FitnessEvaluator.getKey id results = Some score)
    /\ (NoDup (map fst results ++ map agent_id agentList) ->
        map fst scores = map fst results ++ map agent_id agentList).
Proof.
  revert results t. induction agentList as [| a rest IH]; intros results t;
    cbn [FitnessEvaluator.evaluateAll].
  - exists results, t. split; [reflexivity |]. split; [| split].
    + intros id [[a [[] _]] | Hold]. exact Hold.
    + intros id score Hscore. now right.
    + intros _. cbn. now rewrite app_nil_r.
  - destruct (evaluateWith_returns h FitnessEvaluator.weights a t) as [score [t1 Hscore]].
    change (FitnessEvaluator.evaluate h a t = (Return score, t1)) in Hscore.
    pose proof (evaluate_is_weighted h a t t1 score Hscore) as Hweighted.
    unfold bind at 1. rewrite Hscore.
    destruct (IH (FitnessEvaluator.setKey (agent_id a) score results) t1)
      as [scores [t' [Hrun [Hkeys [Honly Horder]]]]].
    exists scores, t'. split; [exact Hrun |]. split; [| split].
    + intros id Hid. apply Hkeys.
      destruct (String.eqb_spec (agent_id a) id) as [Heq | Hneq].
      * right. exists score. rewrite getKey_setKey, Heq, String.eqb_refl. now split.
      * destruct Hid as [[b [[<- | Hin] Hb]] | [old [Hold Hw]]].
        -- contradiction.
        -- left. now exists b.
        -- right. exists old. rewrite getKey_setKey.
           apply String.eqb_neq in Hneq. rewrite Hneq. now split.
    + intros id found Hfound. destruct (Honly id found Hfound) as [[b [Hin Hb]] | Hset].
      * left. exists b. split; [now right | exact Hb].
      * rewrite getKey_setKey in Hset.
        destruct (String.eqb_spec (agent_id a) id) as [Heq | Hneq].
        -- left. exists a. split; [now left | exact Heq].
        -- now right.
    + intros Hnodup. cbn [map] in Hnodup |- *.
      assert (Hfresh : ~ In (agent_id a) (map fst results)).
      { intros Hin. apply NoDup_remove_2 in Hnodup. apply Hnodup.
        apply in_or_app. now left. }
      destruct (setKey_keys (agent_id a) score results) as [_ Hout].
      rewrite Horder; rewrite (Hout Hfresh).
      * now rewrite <- app_assoc.
      * rewrite <- app_assoc. cbn [app].
        apply NoDup_remove_1 in Hnodup as Hrest.
        apply NoDup_remove_2 in Hnodup.
        apply Permutation_NoDup with (l := agent_id a :: map fst results ++ map agent_id rest).
        -- apply Permutation_middle.
        -- constructor; assumption.
Qed.

(** X24: [evaluateBatch] never throws and scores every agent.  The map
    it returns holds, under the id of each agent of the batch, a score
    of the evaluator (its [overall] is the weighted sum of its
    components), and holds nothing under any other key; when the ids of
    the agents are distinct it has one entry per agent, in the order of
    the agents. *)
Theorem evaluateBatch_scores_every_agent (agentList : list IAgent) (t : nat) :
  exists (scores : list (string * FitnessScore)) (t' : nat),
    FitnessEvaluator.evaluateBatch h agentList t = (Return scores, t')
    /\ (forall a, In a agentList ->
          exists score, FitnessEvaluator.getKey (agent_id a) scores = Some score
                        /\ isWeighted score)
    /\ (forall id, In id (map fst scores) <-> In id (map agent_id agentList))
    /\ (NoDup (map agent_id agentList) -> map fst scores = map agent_id agentList).
Proof.
  unfold FitnessEvaluator.evaluateBatch, liftGen.
  unfold bind at 1.
  destruct (FitnessEvaluator.startTrace h t) as [batch t0].
  destruct (evaluateAll_spec agentList [] t0)
    as [scores [t1 [Hrun [Hkeys [Honly Horder]]]]].
  unfold tryCatch, bind at 1. rewrite Hrun.
  unfold bind at 1. destruct (FitnessEvaluator.endTrace h batch t1) as [duration t2].
  exists scores, t2. split; [reflexivity |]. split; [| split].
  - intros a Ha. apply Hkeys. left. now exists a.
  - intros id. split.
    + intros Hin. apply getKey_keys in Hin. destruct Hin as [score Hscore].
      destruct (Honly id score Hscore) as [[a [Ha Hid]] | Hnone]; [| discriminate].
      apply in_map_iff. now exists a.
    + intros Hin. apply in_map_iff in Hin. destruct Hin as [a [Hid Ha]].
      apply getKey_keys. destruct (Hkeys id) as [score [Hscore _]].
      * left. now exists a.
      * now exists score.
  - exact Horder.
Qed.

End BatchFacts.

(** ** FitnessEvaluator: scores within [0, 1] *)

Section UnitFacts.
Variable h : Host.
Hypothesis calm : CalmHost h.

Lemma scoreCodeQuality_unit (t : nat) (a : IAgent) (task : Task) (result : TaskResult) :
  host_execute h t a task = Return result ->
  inUnit (FitnessEvaluator.scoreCodeQuality result).
Proof.
  intros Hrun. unfold FitnessEvaluator.scoreCodeQuality.
  destruct (result_metrics result) as [metrics |] eqn:Hmetrics.
  - destruct (qualityScore metrics) as [q |] eqn:Hq.
    + destruct (FitnessEvaluator.truthy (Some q)).
      * exact (quality_in_unit h calm t a task result metrics q Hrun Hmetrics Hq).
      * cbn [option_map]. unfold inUnit.
        repeat match goal with
               | |- context [if ?c then _ else _] => destruct c
               | |- context [match ?c with Some _ => _ | None => _ end] => destruct c
               end;
          split; try apply Q.le_min_l; apply Q.min_glb; lra.
    + cbn [FitnessEvaluator.truthy option_map]. unfold inUnit.
      repeat match goal with
             | |- context [if ?c then _ else _] => destruct c
             | |- context [match ?c with Some _ => _ | None => _ end] => destruct c
             end;
        split; try apply Q.le_min_l; apply Q.min_glb; lra.
  - cbn [FitnessEvaluator.truthy option_map andb]. unfold inUnit.
    destruct (result_error result); split; try apply Q.le_min_l; apply Q.min_glb; lra.
Qed.

Lemma ratio_unit (total : Q) (completed : Z) :
  (0 <= total)%Q -> (total <= inject_Z completed)%Q ->
  inUnit (if 0 <? completed then (total / inject_Z completed)%Q else 0%Q).
Proof.
  intros H0 H1. destruct (Z.ltb_spec 0 completed) as [Hpos | _]; [| split; lra].
  assert (Hq : (0 < inject_Z completed)%Q) by (unfold Qlt; cbn; lia).
  split; [apply Qle_shift_div_l; lra | apply Qle_shift_div_r; lra].
Qed.

Lemma inject_Z_succ (n : Z) : (inject_Z (n + 1) == inject_Z n + 1)%Q.
Proof. rewrite inject_Z_plus. reflexivity. Qed.

Lemma codeQualityLoop_unit (a : IAgent) (tasks : list Task) (totalScore : Q)
    (completedTasks : Z) (t : nat) :
  (0 <= totalScore)%Q -> (totalScore <= inject_Z completedTasks)%Q ->
  exists total completed t',
    FitnessEvaluator.codeQualityLoop h a tasks totalScore completedTasks t
    = (Return (total, completed), t')
    /\ (0 <= total)%Q /\ (total <= inject_Z completed)%Q.
Proof.
  revert totalScore completedTasks t.
  induction tasks as [| task rest IH]; intros totalScore completedTasks t Hlo Hhi;
    cbn [FitnessEvaluator.codeQualityLoop].
  - exists totalScore, completedTasks, t. repeat split; assumption.
  - unfold bind at 1, tryCatch, bind at 1, execute, ret.
    pose proof (inject_Z_succ completedTasks) as Hnext.
    destruct (hasMethods a);
      [destruct (host_execute h t a task) as [result | e] eqn:Hrun |]; cbn [fst snd].
    + destruct (scoreCodeQuality_unit t a task result Hrun) as [Hr0 Hr1].
      apply IH; destruct (success result); lra.
    + apply IH; lra.
    + apply IH; lra.
Qed.

Lemma scorePerformance_unit (result : TaskResult) (executionTime : Z) :
  0 <= executionTime -> inUnit (FitnessEvaluator.scorePerformance result executionTime).
Proof.
  intros Htime. unfold FitnessEvaluator.scorePerformance, inUnit.
  assert (Hq : (0 <= inject_Z executionTime / 5000)%Q).
  { apply Qle_shift_div_l; [lra |]. unfold Qle; cbn; lia. }
  pose proof (Q.le_max_l 0 (1 - inject_Z executionTime / 5000)) as Hmax0.
  assert (Hmax1 : (Qmax 0 (1 - inject_Z executionTime / 5000) <= 1)%Q)
    by (apply Q.max_lub; lra).
  destruct (success result); split;
    try (apply Qle_shift_div_l; lra); apply Qle_shift_div_r; lra.
Qed.

Lemma performanceLoop_unit (a : IAgent) (tasks : list Task) (totalScore : Q)
    (completedTasks : Z) (t : nat) :
  (0 <= totalScore)%Q -> (totalScore <= inject_Z completedTasks)%Q ->
  exists total completed t',
    FitnessEvaluator.performanceLoop h a tasks totalScore completedTasks t
    = (Return (total, completed), t')
    /\ (0 <= total)%Q /\ (total <= inject_Z completed)%Q.
Proof.
  revert totalScore completedTasks t.
  induction tasks as [| task rest IH]; intros totalScore completedTasks t Hlo Hhi;
    cbn [FitnessEvaluator.performanceLoop].
  - exists totalScore, completedTasks, t. repeat split; assumption.
  - unfold bind at 1, liftGen at 1, FitnessEvaluator.startTrace, gbind, gret, now,
      randomSuffix.
    unfold bind at 1, tryCatch, bind at 1, execute.
    pose proof (inject_Z_succ completedTasks) as Hnext.
    destruct (hasMethods a);
      [destruct (host_execute h (S (S (S t))) a task) as [result | e] eqn:Hrun |].
    + unfold bind at 1, liftGen at 1, FitnessEvaluator.endTrace, gbind, gret, now, ret.
      cbn [fst snd].
      assert (Htime : 0 <= host_now h (S (S (S (S t)))) - host_now h (S (S t))).
      { pose proof (clock_monotone h calm (S (S t)) (S (S (S (S t)))) ltac:(lia)). lia. }
      destruct (scorePerformance_unit result _ Htime) as [Hr0 Hr1].
      apply IH; destruct (success result); lra.
    + unfold bind at 1, liftGen at 1, FitnessEvaluator.endTrace, gbind, gret, now, ret.
      cbn [fst snd]. apply IH; lra.
    + unfold bind at 1, liftGen at 1, FitnessEvaluator.endTrace, gbind, gret, now, ret.
      cbn [fst snd]. apply IH; lra.
Qed.

Lemma reliabilityLoop_bounds (a : IAgent) (tasks : list Task) (successCount : Z)
    (t : nat) :
  exists count t',
    FitnessEvaluator.reliabilityLoop h a tasks successCount t = (Return count, t')
    /\ successCount <= count <= successCount + Z.of_nat (length tasks).
Proof.
  revert successCount t.
  induction tasks as [| task rest IH]; intros successCount t;
    cbn [FitnessEvaluator.reliabilityLoop].
  - exists successCount, t. split; [reflexivity | cbn; lia].
  - unfold bind at 1, tryCatch, bind at 1, execute, ret.
    destruct (hasMethods a); [destruct (host_execute h t a task) as [result | e] |].
    + destruct (IH (if success result then successCount + 1 else successCount) (S t))
        as [count [t' [Hrun Hbounds]]].
      exists count, t'. split; [exact Hrun |]. cbn [length].
      destruct (success result); lia.
    + destruct (IH successCount (S t)) as [count [t' [Hrun Hbounds]]].
      exists count, t'. split; [exact Hrun |]. cbn [length]. lia.
    + destruct (IH successCount t) as [count [t' [Hrun Hbounds]]].
      exists count, t'. split; [exact Hrun |]. cbn [length]. lia.
Qed.

Lemma evaluateResourceEfficiency_unit (a : IAgent) (t t' : nat) (score : Q) :
  FitnessEvaluator.evaluateResourceEfficiency h a t = (Return score, t') ->
  inUnit score.
Proof.
  unfold FitnessEvaluator.evaluateResourceEfficiency, FitnessEvaluator.getSystemMetrics,
    memoryUsage, cpuUsage.
  unfold bind at 1, bind at 1.
  destruct (host_memoryUsage h t) as [mem | e] eqn:Hmem; [| discriminate].
  unfold bind at 1.
  destruct (host_cpuUsage h (S t)) as [cpu | e] eqn:Hcpu; [| discriminate].
  cbn [ret fst snd]. intros [= <- _].
  destruct (memory_in_use h calm t mem Hmem) as [Hrss Hext].
  destruct (cpu_moderate h calm (S t) cpu Hcpu) as [Hcpu0 Hcpu1].
  set (r := inject_Z (rss mem)). set (total := inject_Z (rss mem + external mem)).
  set (used := inject_Z (cpu_user cpu + cpu_system cpu)).
  assert (Hr : (0 < r)%Q) by (unfold r, Qlt; cbn; lia).
  assert (Htotal : (r <= total)%Q) by (unfold r, total, Qle; cbn; lia).
  assert (Hused0 : (0 <= used)%Q) by (unfold used, Qle; cbn; lia).
  assert (Hused1 : (used <= 100000000)%Q) by (unfold used, Qle; cbn; lia).
  assert (Hshare0 : (0 <= r / total)%Q) by (apply Qle_shift_div_l; lra).
  assert (Hshare1 : (r / total <= 1)%Q) by (apply Qle_shift_div_r; lra).
  assert (Hcpu2 : (0 <= used / 1000000)%Q) by (apply Qle_shift_div_l; lra).
  assert (Hcpu3 : (used / 1000000 <= 100)%Q) by (apply Qle_shift_div_r; lra).
  set (share := (r / total)%Q) in *. set (seconds := (used / 1000000)%Q) in *.
  unfold inUnit. split.
  - apply Qle_shift_div_l; [lra |].
    assert ((share * 100 / 100 == share)%Q) as -> by (field).
    assert ((seconds / 100 <= 1)%Q) by (apply Qle_shift_div_r; lra). lra.
  - apply Qle_shift_div_r; [lra |].
    assert ((share * 100 / 100 == share)%Q) as -> by (field).
    assert ((0 <= seconds / 100)%Q) by (apply Qle_shift_div_l; lra). lra.
Qed.

Lemma evaluateBody_unit (a : IAgent) (trace : Z) (t t' : nat) (score : FitnessScore) :
  (0 <= overall (state_fitness (agent_state a)))%Q ->
  FitnessEvaluator.evaluateBody h FitnessEvaluator.weights a trace t = (Return score, t') ->
  componentsInUnit (components score).
Proof.
  intros Hstate. unfold FitnessEvaluator.evaluateBody, FitnessEvaluator.evaluateComponents.
  unfold bind at 1, bind at 1.
  unfold FitnessEvaluator.evaluateCodeQuality at 1.
  destruct (codeQualityLoop_unit a FitnessEvaluator.createCodeQualityTasks 0 0 t)
    as [q1 [c1 [t1 [Hrun1 [Hq0 Hq1]]]]]; [lra | change (inject_Z 0) with 0%Q; lra |].
  unfold bind at 1. rewrite Hrun1. cbn [ret fst snd].
  unfold bind at 1.
  unfold FitnessEvaluator.evaluatePerformance at 1.
  destruct (performanceLoop_unit a FitnessEvaluator.createPerformanceTasks 0 0 t1)
    as [q2 [c2 [t2 [Hrun2 [Hp0 Hp1]]]]]; [lra | change (inject_Z 0) with 0%Q; lra |].
  unfold bind at 1. rewrite Hrun2. cbn [ret fst snd].
  unfold bind at 1.
  unfold FitnessEvaluator.evaluateReliability at 1.
  destruct (reliabilityLoop_bounds a FitnessEvaluator.createReliabilityTasks 0 t2)
    as [count [t3 [Hrun3 Hcount]]].
  unfold bind at 1. rewrite Hrun3. cbn [ret].
  unfold bind at 1. unfold FitnessEvaluator.evaluateUserSatisfaction at 1. cbn [ret].
  unfold bind at 1.
  destruct (FitnessEvaluator.evaluateResourceEfficiency h a t3) as [[efficiency | e] t4]
    eqn:Hresource; [| discriminate].
  pose proof (evaluateResourceEfficiency_unit a t3 t4 efficiency Hresource) as Hefficiency.
  cbn [ret]. unfold bind at 1, liftGen at 1.
  destruct (now h t4) as [time t5].
  unfold bind at 1, liftGen at 1.
  destruct (FitnessEvaluator.endTrace h trace t5) as [duration t6].
  cbn [ret]. intros [= <- _]. cbn [components].
  unfold componentsInUnit. cbn [codeQuality performance reliability userSatisfaction
                                resourceEfficiency].
  split; [apply ratio_unit; assumption |].
  split; [apply ratio_unit; assumption |].
  split.
  { apply (ratio_unit (inject_Z count) 2); [unfold Qle; cbn; lia |].
    rewrite <- Zle_Qle. cbn in Hcount. lia. }
  split; [| exact Hefficiency].
  unfold inUnit. split; [apply Q.min_glb; lra | apply Q.le_min_l].
Qed.

(** X25: scores of the evaluator within [0, 1].  On a host where task
    quality scores lie in [0, 1], the clock does not run backwards, the
    process has memory in use and has spent no more than 100 seconds of
    cpu time, and for an agent whose own recorded fitness is not
    negative, [evaluate] returns a score whose five components and whose
    [overall] all lie in [0, 1]. *)
Theorem evaluate_within_unit (a : IAgent) (t : nat) :
  (0 <= overall (state_fitness (agent_state a)))%Q ->
  exists (score : FitnessScore) (t' : nat),
    FitnessEvaluator.evaluate h a t = (Return score, t')
    /\ componentsInUnit (components score)
    /\ inUnit (overall score).
Proof.
  intros Hstate.
  destruct (evaluateWith_returns h FitnessEvaluator.weights a t) as [score [t' Hrun]].
  change (FitnessEvaluator.evaluate h a t = (Return score, t')) in Hrun.
  exists score, t'. split; [exact Hrun |].
  assert (Hcomponents : componentsInUnit (components score)).
  { pose proof (evaluateWith_cases h FitnessEvaluator.weights a t) as Hcases.
    cbv zeta in Hcases. unfold FitnessEvaluator.evaluate in Hrun.
    destruct (FitnessEvaluator.evaluateBody h FitnessEvaluator.weights a
                (fst (FitnessEvaluator.startTrace h t))
                (snd (FitnessEvaluator.startTrace h t))) as [[body | e] t1] eqn:Hbody.
    - rewrite Hcases in Hrun. injection Hrun as <- <-.
      exact (evaluateBody_unit a _ _ _ _ Hstate Hbody).
    - rewrite Hcases in Hrun. injection Hrun as <- <-.
      unfold componentsInUnit, inUnit. cbn. repeat split; lra. }
  split; [exact Hcomponents |].
  pose proof (evaluate_is_weighted h a t t' score Hrun) as Hweighted.
  destruct (weightedSum_in_unit (components score) Hcomponents) as [H0 H1].
  unfold isWeighted in Hweighted. unfold inUnit. rewrite Hweighted. now split.
Qed.

End UnitFacts.

Lemma exampleHost_calm : CalmHost exampleHost.
Proof.
  constructor.
  - intros t a task result metrics q [= <-] [= <-] [= <-]. unfold inUnit. split; lra.
  - intros t t' Hle. cbn [host_now exampleHost]. lia.
  - intros t usage [= <-]. cbn. lia.
  - intros t usage [= <-]. cbn. lia.
Qed.

Lemma evaluate_within_unit_witness :
  exists (score : FitnessScore) (t' : nat),
    FitnessEvaluator.evaluate exampleHost agentA 0%nat = (Return score, t')
    /\ inUnit (overall score).
Proof.
  destruct (evaluate_within_unit exampleHost exampleHost_calm agentA 0%nat)
    as [score [t' [Hrun [_ Hunit]]]].
  - cbn. lra.
  - now exists score, t'.
Defined.

(** ** SelectionStrategy: the winner of a tournament *)

Lemma fitter_ge (best current : PopulationAgent) :
  (overall (fitness best) <= overall (fitness (SelectionStrategy.fitter best current)))%Q
  /\ (overall (fitness current)
      <= overall (fitness (SelectionStrategy.fitter best current)))%Q.
Proof.
  unfold SelectionStrategy.fitter.
  destruct (Qltb (overall (fitness best)) (overall (fitness current))) eqn:Hlt.
  - apply Qltb_lt in Hlt. split; lra.
  - assert (Hge : ~ (overall (fitness best) < overall (fitness current))%Q).
    { intros H. apply Qltb_lt in H. congruence. }
    split; lra.
Qed.

Lemma fold_fitter_best (l : list PopulationAgent) (start : PopulationAgent) :
  Forall (fun m => (overall (fitness m)
                    <= overall (fitness (fold_left SelectionStrategy.fitter l start)))%Q)
         (start :: l).
Proof.
  revert start. induction l as [| x xs IH]; intros start; cbn [fold_left].
  - constructor; [lra | constructor].
  - specialize (IH (SelectionStrategy.fitter start x)).
    inversion IH as [| ? ? Hfirst Hrest]; subst.
    destruct (fitter_ge start x) as [Hstart Hx].
    constructor; [lra |]. constructor; [lra | exact Hrest].
Qed.

Lemma filter_length_perm {A : Type} (f : A -> bool) (l l' : list A) :
  Permutation l l' -> length (filter f l) = length (filter f l').
Proof.
  induction 1 as [| x l l' _ IH | x y l | l l' l'' _ IH1 _ IH2]; cbn.
  - reflexivity.
  - destruct (f x); cbn; congruence.
  - destruct (f x), (f y); reflexivity.
  - congruence.
Qed.

Lemma filter_length_prefix {A : Type} (f : A -> bool) (n : nat) (l : list A) :
  (length (filter f (firstn n l)) <= length (filter f l))%nat.
Proof.
  rewrite <- (firstn_skipn n l) at 2. rewrite filter_app, length_app. lia.
Qed.

Lemma filter_length_all {A : Type} (f : A -> bool) (l : list A) :
  Forall (fun x => f x = true) l -> length (filter f l) = length l.
Proof.
  induction 1 as [| x xs Hx _ IH]; cbn; [reflexivity |]. rewrite Hx. cbn. congruence.
Qed.

Section TournamentFacts.
Variable h : Host.

Lemma tournamentRounds_winners (n : nat) (l : list PopulationAgent)
    (size : Z) (t : nat) :
  HostOK h -> l <> [] -> 1 <= size ->
  exists selected t',
    SelectionStrategy.tournamentRounds h n l size t = (Return selected, t')
    /\ Forall (fun a => exists m, In m l /\ agent m = a
                                  /\ (Nat.min (Z.to_nat size) (length l)
                                      <= notFitterThan m l)%nat)
              selected.
Proof.
  intros Hok Hne Hsize. revert t.
  induction n as [| n IH]; intros t; cbn [SelectionStrategy.tournamentRounds].
  - exists [], t. split; [reflexivity | constructor].
  - unfold bind at 1, liftGen, SelectionStrategy.selectRandomAgents,
      gbind, shuffle, gret.
    pose proof (shuffle_perm h Hok t l) as Hperm.
    rewrite slice_prefix by lia.
    set (shuffled := host_shuffle h t l) in *.
    set (tournament := firstn (Z.to_nat size) shuffled).
    assert (Hlen : length tournament = Nat.min (Z.to_nat size) (length l)).
    { subst tournament. rewrite length_firstn. now rewrite (Permutation_length Hperm). }
    destruct tournament as [| x xs] eqn:Htournament.
    { cbn in Hlen. destruct l; [contradiction | cbn in Hlen; lia]. }
    unfold bind at 1. cbn [reduce1].
    destruct (IH (S t)) as [rest [t' [Hrun Hall]]].
    unfold bind at 1. rewrite Hrun. unfold ret.
    eexists _, _. split; [reflexivity |].
    constructor; [| exact Hall].
    set (winner := fold_left SelectionStrategy.fitter xs x).
    exists winner. split; [| split; [reflexivity |]].
    + apply (Permutation_in _ Hperm). apply (in_firstn (Z.to_nat size)).
      fold tournament. rewrite Htournament. apply fold_fitter_in.
    + rewrite <- Hlen. unfold notFitterThan.
      rewrite <- (filter_length_perm _ _ _ Hperm).
      etransitivity; [| apply (filter_length_prefix _ (Z.to_nat size))].
      fold tournament. rewrite Htournament.
      rewrite filter_length_all; [reflexivity |].
      eapply Forall_impl; [| apply fold_fitter_best].
      intros m Hm. apply Qle_bool_iff. exact Hm.
Qed.

(** X26: the winner of a tournament.  Every agent that tournament
    selection returns belongs to a member of the population that was
    the fittest of its tournament: at least [k] members of the
    population, the winner included, are not fitter than it, where [k]
    is the tournament size max(2, floor(size x 0.1)) or the size of the
    population if that is smaller. *)
Theorem tournament_winner_beats_its_tournament (population : list PopulationAgent)
    (count : Z) (t : nat) :
  HostOK h -> population <> [] -> 0 <= count ->
  let tournamentSize := Z.max 2 (floorMul (length population) (1 # 10)) in
  let k := Nat.min (Z.to_nat tournamentSize) (length population) in
  exists (selected : list IAgent) (t' : nat),
    SelectionStrategy.tournamentSelection h population count t = (Return selected, t')
    /\ Forall (fun a => exists m, In m population /\ agent m = a
                                  /\ (k <= notFitterThan m population)%nat)
              selected.
Proof.
  intros Hok Hne Hcount tournamentSize k.
  unfold SelectionStrategy.tournamentSelection. fold tournamentSize.
  apply tournamentRounds_winners; [assumption | assumption | lia].
Qed.

End TournamentFacts.

Lemma tournament_winner_beats_its_tournament_witness :
  exists (selected : list IAgent) (t' : nat),
    SelectionStrategy.tournamentSelection exampleHost
      [memberOf agentA (1 # 4); memberOf agentB (3 # 4)] 3 0%nat
    = (Return selected, t')
    /\ Forall (fun a => a = agentB) selected.
Proof.
  destruct (tournament_winner_beats_its_tournament exampleHost
              [memberOf agentA (1 # 4); memberOf agentB (3 # 4)] 3 0%nat
              exampleHost_ok ltac:(discriminate) ltac:(lia))
    as [selected [t' [Hrun Hall]]].
  exists selected, t'. split; [exact Hrun |].
  eapply Forall_impl; [| exact Hall]. cbv zeta.
  intros a [m [Hin [<- Hrank]]].
  destruct Hin as [<- | [<- | []]]; [| reflexivity].
  vm_compute in Hrank. lia.
Defined.


(** ** EvolutionEngine: a whole run *)

Section TripleRules.
Context {A B : Type}.

Lemma Triple_bind (P : Engine -> Prop) (Q : A -> Engine -> Prop)
    (R : B -> Engine -> Prop) (m : Eff Engine A) (k : A -> Eff Engine B) :
  Triple P m Q -> (forall a, Triple (Q a) (k a) R) -> Triple P (bind m k) R.
Proof.
  intros Hm Hk s Hs. destruct (Hm s Hs) as [a [s1 [Hrun Ha]]].
  destruct (Hk a s1 Ha) as [b [s2 [Hrest Hb]]].
  exists b, s2. unfold bind. rewrite Hrun. now split.
Qed.

Lemma Triple_post (P : Engine -> Prop) (Q Q' : A -> Engine -> Prop)
    (m : Eff Engine A) :
  Triple P m Q -> (forall a s, Q a s -> Q' a s) -> Triple P m Q'.
Proof.
  intros Hm Himp s Hs. destruct (Hm s Hs) as [a [s1 [Hrun Ha]]].
  exists a, s1. split; [exact Hrun | now apply Himp].
Qed.

Lemma Triple_pre (P P' : Engine -> Prop) (m : Eff Engine A)
    (Q : A -> Engine -> Prop) :
  (forall s, P s -> P' s) -> Triple P' m Q -> Triple P m Q.
Proof. intros Himp Hm s Hs. now apply Hm, Himp. Qed.

Lemma Triple_pure (fact : Prop) (P : Engine -> Prop) (m : Eff Engine A)
    (Q : A -> Engine -> Prop) :
  (fact -> Triple P m Q) -> Triple (fun s => fact /\ P s) m Q.
Proof. intros Hm s [Hfact Hs]. now apply Hm. Qed.

Lemma Triple_ret (P : Engine -> Prop) (a : A) :
  Triple P (ret a) (fun r s => r = a /\ P s).
Proof. intros s Hs. exists a, s. now repeat split. Qed.

Lemma Triple_tryFinally (P : Engine -> Prop) (Q Q' : A -> Engine -> Prop)
    (m : Eff Engine A) (fin : Engine -> Engine) :
  Triple P m Q -> (forall a s, Q a s -> Q' a (fin s)) ->
  Triple P (tryFinally m fin) Q'.
Proof.
  intros Hm Hfin s Hs. destruct (Hm s Hs) as [a [s1 [Hrun Ha]]].
  exists a, (fin s1). unfold tryFinally. rewrite Hrun. split; [reflexivity |].
  now apply Hfin.
Qed.

Lemma Triple_exists {X : Type} (P : X -> Engine -> Prop)
    (Q : X -> A -> Engine -> Prop) (m : Eff Engine A) :
  (forall x, Triple (P x) m (Q x)) ->
  Triple (fun s => exists x, P x s) m (fun a s => exists x, Q x a s).
Proof.
  intros Hm s [x Hs]. destruct (Hm x s Hs) as [a [s1 [Hrun Ha]]].
  exists a, s1. split; [exact Hrun | now exists x].
Qed.

(** Two facts about the same run hold together. *)
Lemma Triple_both (P P' : Engine -> Prop) (Q Q' : A -> Engine -> Prop)
    (m : Eff Engine A) :
  Triple P m Q -> Triple P' m Q' ->
  Triple (fun s => P s /\ P' s) m (fun a s => Q a s /\ Q' a s).
Proof.
  intros Hm Hm' s [Hs Hs'].
  destruct (Hm s Hs) as [a [s1 [Hrun Ha]]].
  destruct (Hm' s Hs') as [a' [s1' [Hrun' Ha']]].
  rewrite Hrun in Hrun'. injection Hrun' as <- <-.
  exists a, s1. now repeat split.
Qed.

(** An operation that cannot throw and leaves the population alone
    keeps whatever holds of the population. *)
Lemma Triple_unchanged (R : Population -> Prop) (m : Eff Engine A) :
  Total m -> KeepsPopulation m ->
  Triple (Populated R) m (fun _ s => Populated R s).
Proof.
  intros Htotal Hkeeps s [p [Hp HR]].
  destruct (Htotal s) as [a [s' Hrun]]. exists a, s'. split; [exact Hrun |].
  exists p. split; [| exact HR]. rewrite <- Hp. exact (Hkeeps _ _ _ Hrun).
Qed.

Lemma KeepsPopulation_ret (a : A) : KeepsPopulation (@ret Engine A a).
Proof. now intros s r s' [= _ <-]. Qed.

Lemma KeepsPopulation_bind (m : Eff Engine A) (k : A -> Eff Engine B) :
  KeepsPopulation m -> (forall a, KeepsPopulation (k a)) -> KeepsPopulation (bind m k).
Proof.
  intros Hm Hk s r s' H. apply bind_inv in H.
  destruct H as [[a [s1 [H1 H2]]] | [e [H1 _]]].
  - rewrite (Hk _ _ _ _ H2). exact (Hm _ _ _ H1).
  - exact (Hm _ _ _ H1).
Qed.

Lemma KeepsPopulation_tryCatch (m : Eff Engine A) (k : Error -> Eff Engine A) :
  KeepsPopulation m -> (forall e, KeepsPopulation (k e)) ->
  KeepsPopulation (tryCatch m k).
Proof.
  intros Hm Hk s r s'. unfold tryCatch.
  destruct (m s) as [[a | e] s1] eqn:H1; intros H.
  - injection H as <- <-. exact (Hm _ _ _ H1).
  - rewrite (Hk _ _ _ _ H). exact (Hm _ _ _ H1).
Qed.

Lemma KeepsPopulation_onTick (m : Eff nat A) :
  KeepsPopulation (EvolutionEngine.onTick m).
Proof.
  intros s r s'. unfold EvolutionEngine.onTick.
  destruct (m (tick s)) as [r1 t]. now intros [= _ <-].
Qed.

Lemma KeepsPopulation_onArchive (m : Eff (Archive * nat) A) :
  KeepsPopulation (EvolutionEngine.onArchive m).
Proof.
  intros s r s'. unfold EvolutionEngine.onArchive.
  destruct (m (archive s, tick s)) as [r1 [a t]]. now intros [= _ <-].
Qed.

End TripleRules.

Lemma KeepsPopulation_get : KeepsPopulation EvolutionEngine.get.
Proof. now intros s r s' [= _ <-]. Qed.

Lemma KeepsPopulation_modify (f : Engine -> Engine) :
  (forall s, currentPopulation (f s) = currentPopulation s) ->
  KeepsPopulation (EvolutionEngine.modify f).
Proof. intros Hf s r s' [= _ <-]. apply Hf. Qed.

Lemma stopEvolution_population (s : Engine) :
  currentPopulation (EvolutionEngine.stopEvolution s) = currentPopulation s.
Proof. unfold EvolutionEngine.stopEvolution. now destruct (isRunning s). Qed.

Lemma Populated_same (R : Population -> Prop) (s s' : Engine) :
  currentPopulation s' = currentPopulation s -> Populated R s -> Populated R s'.
Proof. intros Hsame [p [Hp HR]]. exists p. now rewrite Hsame. Qed.

Lemma Populated_weaken (R R' : Population -> Prop) (s : Engine) :
  (forall p, R p -> R' p) -> Populated R s -> Populated R' s.
Proof. intros Himp [p [Hp HR]]. exists p. split; [exact Hp | now apply Himp]. Qed.

Lemma Triple_get (P : Engine -> Prop) :
  Triple P EvolutionEngine.get (fun r s => r = s /\ P s).
Proof. intros s Hs. exists s, s. now repeat split. Qed.

Lemma Triple_share (R : Population -> Prop) (c : EvolutionCycle) :
  Triple (Populated R) (EvolutionEngine.share c)
    (fun r s => r = c /\ Populated R s).
Proof.
  intros s Hs. rewrite share_returns. eexists _, _.
  split; [reflexivity |]. split; [reflexivity |].
  eapply Populated_same; [| exact Hs]. reflexivity.
Qed.

Lemma Triple_onTick {A : Type} (R : Population -> Prop) (V : A -> Prop) (g : Gen A) :
  (forall t, V (fst (g t))) ->
  Triple (Populated R) (EvolutionEngine.onTick (liftGen g))
    (fun a s => V a /\ Populated R s).
Proof.
  intros Hvalue s Hs. unfold EvolutionEngine.onTick, liftGen.
  specialize (Hvalue (tick s)).
  destruct (g (tick s)) as [a t']. exists a, (EvolutionEngine.setTick t' s).
  split; [reflexivity |]. split; [exact Hvalue |].
  eapply Populated_same; [| exact Hs]. reflexivity.
Qed.

Create HintDb keeps.
#[local] Hint Resolve KeepsPopulation_ret KeepsPopulation_onTick
  KeepsPopulation_onArchive KeepsPopulation_get : keeps.

Ltac unchanged :=
  repeat first
    [ solve [auto with keeps]
    | apply KeepsPopulation_modify; intros ?; solve [reflexivity | apply stopEvolution_population]
    | apply KeepsPopulation_bind; [| intros ?]
    | apply KeepsPopulation_tryCatch; [| intros ?]
    | match goal with
      | |- KeepsPopulation (match ?x with _ => _ end) => destruct x
      | |- KeepsPopulation (if ?x then _ else _) => destruct x
      end ].

Section RunTriples.
Variable h : Host.
Variable config : EvolutionConfig.
Hypothesis host_ok : HostOK h.

Lemma KeepsPopulation_selectParents :
  KeepsPopulation (EvolutionEngine.selectParents h config).
Proof. unfold EvolutionEngine.selectParents. unchanged. Qed.

Lemma KeepsPopulation_performCrossover (parents : list IAgent) :
  KeepsPopulation (EvolutionEngine.performCrossover h parents).
Proof. unfold EvolutionEngine.performCrossover. unchanged. Qed.

Lemma KeepsPopulation_performMutation (l : list IAgent) :
  KeepsPopulation (EvolutionEngine.performMutation h config l).
Proof.
  induction l as [| a rest IH]; cbn [EvolutionEngine.performMutation]; unchanged.
Qed.

Lemma KeepsPopulation_pollStop : KeepsPopulation (EvolutionEngine.pollStop h).
Proof. unfold EvolutionEngine.pollStop. unchanged. Qed.

Lemma KeepsPopulation_archiveAll (members : list PopulationAgent) (reason : string) :
  KeepsPopulation (EvolutionEngine.archiveAll h members reason).
Proof.
  induction members as [| m rest IH]; cbn [EvolutionEngine.archiveAll]; unchanged.
Qed.

(** Evaluation keeps what depends on the agents of the members and on
    the generation number only. *)
Lemma Triple_evaluatePopulation (R R' : Population -> Prop) :
  (forall p p', map agent (agents p') = map agent (agents p) ->
                population_generation p' = population_generation p ->
                R p -> R' p') ->
  Triple (Populated R) (EvolutionEngine.evaluatePopulation h)
    (fun _ s => Populated R' s).
Proof.
  intros Hstable s [p [Hp HR]].
  destruct (evaluateMembers_spec h (agents p) (tick s))
    as [evaluated [t' [Hrun [Hagents _]]]].
  unfold EvolutionEngine.evaluatePopulation, EvolutionEngine.get,
    EvolutionEngine.onTick, EvolutionEngine.modify.
  unfold bind at 1. rewrite Hp. unfold bind at 1. rewrite Hrun.
  eexists _, _. split; [reflexivity |].
  eexists. split; [reflexivity |]. now apply (Hstable p).
Qed.

Lemma allInstances_agents (l l' : list PopulationAgent) :
  map agent l' = map agent l -> allInstances l -> allInstances l'.
Proof.
  unfold allInstances. intros Hsame Hall.
  rewrite <- (Forall_map agent (fun a => hasMethods a = true)) in *.
  now rewrite Hsame.
Qed.

Lemma allInstances_perm (l l' : list PopulationAgent) :
  Permutation l' l -> allInstances l -> allInstances l'.
Proof.
  unfold allInstances. intros Hperm Hall. rewrite Forall_forall in *.
  intros m Hm. apply Hall. eapply Permutation_in; eassumption.
Qed.

(** Replacement hands back the old population, ranked, and installs a
    new one. *)
Lemma Triple_replacePopulation (R : Population -> Prop) (newAgents : list IAgent) :
  Triple (Populated R) (EvolutionEngine.replacePopulation h config newAgents)
    (fun old s =>
       (exists p, old = Some (EvolutionEngine.withAgents
                                (sort byFitnessDesc (agents p)) p) /\ R p)
       /\ Populated (fun _ => True) s).
Proof.
  intros s [p [Hp HR]].
  destruct (replacePopulation_spec h config newAgents s p Hp)
    as [s' [next [Hrun [Hnext _]]]].
  eexists _, s'. split; [exact Hrun |]. split.
  - exists p. now split.
  - exists next. now split.
Qed.

Lemma updateCycleResults_population (c : EvolutionCycle) (t : nat) :
  cycle_population (fst (EvolutionEngine.updateCycleResults h c t)) = cycle_population c.
Proof. reflexivity. Qed.

(** The loop, for any number of rounds: it returns, the engine still
    holds a population, and the cycle it hands back carries class
    instances when the cycle it was given did and, for a first round,
    the engine's population does. *)
Lemma Triple_generationLoop (n : nat) (first : bool) (c : EvolutionCycle) :
  cycleOfInstances c ->
  Triple (Populated (fun p => first = true -> allInstances (agents p)))
    (EvolutionEngine.generationLoop h config n first c)
    (fun c' s => cycleOfInstances c' /\ Populated (fun _ => True) s).
Proof.
  revert first c. induction n as [| n IH]; intros first c Hc;
    cbn [EvolutionEngine.generationLoop].
  - eapply Triple_post; [apply Triple_ret |].
    intros c' s [-> Hs]. split; [exact Hc |].
    eapply Populated_weaken; [| exact Hs]. auto.
  - set (R := fun p : Population => first = true -> allInstances (agents p)).
    unfold EvolutionEngine.enterPhase.
    eapply Triple_bind; [apply Triple_get | intros s0].
    apply Triple_pre with (P' := Populated R); [tauto |].
    destruct (shouldStop s0).
    { eapply Triple_post; [apply Triple_ret |].
      intros c' s [-> Hs]. split; [exact Hc |].
      eapply Populated_weaken; [| exact Hs]. auto. }
    eapply Triple_bind; [apply Triple_share | intros c1].
    apply Triple_pure. intros ->.
    eapply Triple_bind;
      [apply (Triple_evaluatePopulation R R) | intros evaluated].
    { intros p p' Hagents _ HR Hfirst. eapply allInstances_agents; eauto. }
    eapply Triple_bind; [apply Triple_share | intros c2].
    apply Triple_pure. intros ->.
    eapply Triple_bind;
      [apply Triple_unchanged;
       [apply Total_selectParents; exact host_ok | apply KeepsPopulation_selectParents]
      | intros parents].
    eapply Triple_bind; [apply Triple_share | intros c3].
    apply Triple_pure. intros ->.
    eapply Triple_bind;
      [apply Triple_unchanged;
       [apply Total_performCrossover | apply KeepsPopulation_performCrossover]
      | intros offspring].
    eapply Triple_bind; [apply Triple_share | intros c4].
    apply Triple_pure. intros ->.
    eapply Triple_bind;
      [apply Triple_unchanged;
       [apply Total_performMutation | apply KeepsPopulation_performMutation]
      | intros mutated].
    eapply Triple_bind; [apply Triple_share | intros c5].
    apply Triple_pure. intros ->.
    eapply Triple_bind; [apply Triple_replacePopulation | intros old].
    apply Triple_pure. intros [p [-> HR]].
    eapply Triple_bind; [apply Triple_share | intros c6].
    apply Triple_pure. intros ->.
    assert (Hc6 : cycleOfInstances
                    (if first
                     then EvolutionEngine.withPopulation
                            (EvolutionEngine.withAgents
                               (sort byFitnessDesc (agents p)) p)
                            (EvolutionEngine.withPhase Replacement
                               (EvolutionEngine.withPhase MutationPhase
                                  (EvolutionEngine.withPhase Crossover
                                     (EvolutionEngine.withPhase Selection
                                        (EvolutionEngine.withPhase Evaluation c)))))
                     else EvolutionEngine.withPhase Replacement
                            (EvolutionEngine.withPhase MutationPhase
                               (EvolutionEngine.withPhase Crossover
                                  (EvolutionEngine.withPhase Selection
                                     (EvolutionEngine.withPhase Evaluation c)))))).
    { unfold R in HR. destruct first; [| exact Hc].
      unfold cycleOfInstances. cbn [cycle_population EvolutionEngine.withPopulation
        EvolutionEngine.withAgents agents].
      eapply allInstances_perm; [apply sort_perm | now apply HR]. }
    eapply Triple_bind;
      [apply Triple_onTick with (V := cycleOfInstances) | intros c7].
    { intros t. unfold cycleOfInstances. rewrite updateCycleResults_population.
      exact Hc6. }
    apply Triple_pure. intros Hc7.
    eapply Triple_bind; [apply Triple_share | intros c8].
    apply Triple_pure. intros ->.
    eapply Triple_bind; [apply Triple_get | intros s1].
    apply Triple_pre with (P' := Populated (fun _ : Population => True)); [tauto |].
    destruct (EvolutionEngine.hasConverged config (history s1)).
    { eapply Triple_post; [apply Triple_ret |]. now intros c' s [-> Hs]. }
    eapply Triple_bind;
      [apply Triple_unchanged; [apply Total_pollStop | apply KeepsPopulation_pollStop]
      | intros polled].
    eapply Triple_pre; [| apply (IH false c7 Hc7)].
    intros s Hs. eapply Populated_weaken; [| exact Hs]. intros p0 _ [=].
Qed.

(** A cycle run on a population of class instances returns a cycle that
    carries class instances. *)
Lemma Triple_runEvolutionCycle (maxGenerations : Z) :
  Triple (Populated (fun p => allInstances (agents p)))
    (EvolutionEngine.runEvolutionCycle h config maxGenerations)
    (fun c s => cycleOfInstances c /\ Populated (fun _ => True) s).
Proof.
  unfold EvolutionEngine.runEvolutionCycle.
  eapply Triple_bind;
    [apply Triple_onTick with (V := fun _ => True); intros; exact I | intros cycleId].
  apply Triple_pure. intros _.
  eapply Triple_bind;
    [apply Triple_onTick with (V := fun _ => True); intros; exact I | intros start].
  apply Triple_pure. intros _.
  eapply Triple_bind; [apply Triple_get | intros s0].
  intros s [-> [p [Hp Hall]]]. rewrite Hp.
  refine (Triple_tryFinally (Populated (fun p => allInstances (agents p)))
            (fun c s => cycleOfInstances c /\ Populated (fun _ => True) s)
            _ _ _ _ _ s _).
  - eapply Triple_bind; [apply Triple_share | intros c0].
    apply Triple_pure. intros ->.
    eapply Triple_bind; [| intros c1].
    { eapply Triple_pre; [| apply (Triple_generationLoop _ true); exact Hall].
      intros s1 Hs1. eapply Populated_weaken; [| exact Hs1]. auto. }
    apply Triple_pure. intros Hc1.
    unfold EvolutionEngine.enterPhase.
    eapply Triple_bind; [apply Triple_share | intros c2].
    apply Triple_pure. intros ->.
    eapply Triple_bind;
      [apply Triple_onTick with (V := fun _ => True); intros; exact I | intros finish].
    apply Triple_pure. intros _.
    eapply Triple_post; [apply Triple_share |].
    intros c' s' [-> Hs']. split; [exact Hc1 | exact Hs'].
  - intros c' s' [Hc' Hs']. split; [exact Hc' |].
    eapply Populated_same; [| exact Hs']. reflexivity.
  - exists p. now split.
Qed.

Hypothesis serialize_ok : SerializeOK h.
Hypothesis memory_ok : MemoryOK h.

Lemma Total_archiveBestAgents (c : EvolutionCycle) :
  cycleOfInstances c -> Total (EvolutionEngine.archiveBestAgents h c).
Proof.
  intros Hc. unfold EvolutionEngine.archiveBestAgents. total.
  apply Total_archiveAll; [exact serialize_ok | exact memory_ok |].
  apply Forall_forall. intros m Hm. apply slice_incl in Hm.
  unfold cycleOfInstances, allInstances in Hc. rewrite Forall_forall in Hc.
  apply Hc. eapply Permutation_in; [apply sort_perm | exact Hm].
Qed.


End RunTriples.

Lemma exampleHost_memory : MemoryOK exampleHost.
Proof. intros t. eexists. reflexivity. Qed.

Lemma Holds_by_size (n : nat) (g : Z) (s : Engine) :
  sizeOfPopulation s = Some n ->
  option_map population_generation (currentPopulation s) = Some g ->
  Holds n g s.
Proof.
  unfold sizeOfPopulation, Holds, Populated.
  destruct (currentPopulation s) as [p |]; [| discriminate].
  cbn. intros Hn Hg. exists p. split; [reflexivity |]. split; congruence.
Qed.

Lemma instances_by_check (s : Engine) :
  option_map (fun p => forallb (fun m => hasMethods (agent m)) (agents p))
             (currentPopulation s) = Some true ->
  Populated (fun p => allInstances (agents p)) s.
Proof.
  unfold Populated. destruct (currentPopulation s) as [p |]; [| discriminate].
  cbn. intros [= Hall]. exists p. split; [reflexivity |].
  apply Forall_forall. intros m Hm. rewrite forallb_forall in Hall. now apply Hall.
Qed.




(** ** EvolutionEngine: one generation, phase by phase *)

Section GenerationFacts.
Variable h : Host.
Variable config : EvolutionConfig.
Hypothesis host_ok : HostOK h.

Lemma select_at_most (members : list PopulationAgent) (count : Z) (t : nat) :
  0 <= count <= Z.of_nat (length members) ->
  exists selected t',
    SelectionStrategy.select h config members count t = (Return selected, t')
    /\ (length selected <= Z.to_nat count)%nat
    /\ (selectionStrategy config <> RouletteWheel ->
        length selected = Z.to_nat count).
Proof.
  intros Hcount.
  assert (Htournament : exists selected t',
            SelectionStrategy.tournamentSelection h members count t = (Return selected, t')
            /\ length selected = Z.to_nat count).
  { unfold SelectionStrategy.tournamentSelection.
    destruct members as [| first rest].
    - cbn in Hcount. replace count with 0 by lia. cbn. eexists _, _. now split.
    - destruct (tournamentRounds_returns h (Z.to_nat count) (first :: rest)
                  (Z.max 2 (floorMul (length (first :: rest)) (1 # 10))) t host_ok)
        as [selected [t' [Hrun [Hlen _]]]]; [discriminate | lia |].
      now exists selected, t'. }
  assert (Hexact : (exists selected t',
                      SelectionStrategy.tournamentSelection h members count t
                      = (Return selected, t')
                      /\ (length selected <= Z.to_nat count)%nat
                      /\ (selectionStrategy config <> RouletteWheel ->
                          length selected = Z.to_nat count))).
  { destruct Htournament as [selected [t' [Hrun Hlen]]].
    exists selected, t'. split; [exact Hrun |]. split; [lia | auto]. }
  unfold SelectionStrategy.select.
  destruct (selectionStrategy config); try exact Hexact.
  - unfold liftGen, SelectionStrategy.rouletteWheelSelection.
    pose proof (rouletteRounds_length_le h (Z.to_nat count) members
                  (SelectionStrategy.totalFitnessOf members) t) as Hlen.
    destruct (SelectionStrategy.rouletteRounds h _ _ _ t) as [selected t'].
    exists selected, t'. split; [reflexivity |]. split; [exact Hlen |].
    intros Hno. now contradiction Hno.
  - eexists _, _. split; [reflexivity |].
    unfold SelectionStrategy.rankSelection.
    rewrite length_map, slice_prefix_length, sort_length by lia.
    split; [lia | intros _; lia].
Qed.

Hypothesis crossover_rate : (0 <= crossoverRate config)%Q /\ (crossoverRate config <= 1)%Q.
Hypothesis elitism_rate : (0 <= elitismRate config)%Q /\ (elitismRate config <= 1)%Q.
Hypothesis target_size : 0 <= populationSize config.

Lemma Triple_selectParents (n : nat) (g : Z) :
  Triple (Holds n g) (EvolutionEngine.selectParents h config)
    (fun parents s => parentsOf config n (length parents) /\ Holds n g s).
Proof.
  intros s [p [Hp [Hn Hg]]].
  destruct crossover_rate as [Hc0 Hc1].
  pose proof (floorMul_bounds (length (agents p)) (crossoverRate config) Hc0 Hc1) as Hcount.
  destruct (select_at_most (agents p) (floorMul (length (agents p)) (crossoverRate config))
              (tick s) Hcount) as [selected [t' [Hrun Hlen]]].
  unfold EvolutionEngine.selectParents, EvolutionEngine.get, EvolutionEngine.onTick.
  unfold bind. rewrite Hp, Hrun.
  eexists _, _. split; [reflexivity |]. unfold parentsOf. rewrite <- Hn.
  split; [exact Hlen |]. exists p. now repeat split.
Qed.

Lemma Triple_performCrossover (R : Population -> Prop) (parents : list IAgent) :
  Triple (Populated R) (EvolutionEngine.performCrossover h parents)
    (fun offspring s =>
       length offspring = (2 * (length parents / 2))%nat /\ Populated R s).
Proof.
  unfold EvolutionEngine.performCrossover. apply Triple_onTick.
  intros t. exact (proj1 (crossoverPairs_length h parents) t).
Qed.

Lemma Triple_performMutation (R : Population -> Prop) (offspring : list IAgent) :
  Triple (Populated R) (EvolutionEngine.performMutation h config offspring)
    (fun mutated s => length mutated = length offspring /\ Populated R s).
Proof.
  induction offspring as [| a rest IH]; cbn [EvolutionEngine.performMutation].
  - intros s Hs. exists [], s. now repeat split.
  - eapply Triple_bind with (Q := fun _ s => Populated R s).
    + intros s Hs. unfold MutationGenerator.mutate.
      match goal with
      | |- context [liftGen ?draw] => set (drawn := draw)
      end.
      unfold tryCatch, bind, EvolutionEngine.onTick, liftGen,
        EvolutionEngine.modify, ret.
      destruct (drawn (tick s)) as [mutated t1].
      eexists _, _. split; [reflexivity |].
      eapply Populated_same; [| exact Hs]. reflexivity.
    + intros mutated. eapply Triple_bind; [exact IH |].
      intros more s [Hlen Hs]. eexists _, _. split; [reflexivity |].
      split; [cbn; now rewrite Hlen | exact Hs].
Qed.

Lemma Triple_replacePopulation_size (n : nat) (g : Z) (newAgents : list IAgent) :
  Triple (Holds n g) (EvolutionEngine.replacePopulation h config newAgents)
    (fun old s =>
       (exists p, old = Some p /\ population_generation p = g)
       /\ Holds (Nat.min (Z.to_nat (populationSize config))
                   (Z.to_nat (floorMul n (elitismRate config)) + length newAgents))
                (g + 1) s).
Proof.
  intros s [p [Hp [Hn Hg]]].
  destruct (replacePopulation_spec h config newAgents s p Hp)
    as [s' [next [Hrun [Hnext [Hagents [Hgeneration _]]]]]].
  eexists _, s'. split; [exact Hrun |]. split.
  - eexists. split; [reflexivity | exact Hg].
  - exists next. split; [exact Hnext |]. split; [| congruence].
    rewrite <- (length_map agent), Hagents. unfold EvolutionEngine.nextAgents.
    rewrite slice_prefix_length, length_app by assumption.
    destruct elitism_rate as [He0 He1].
    rewrite (elitesOf_length config p He0).
    pose proof (floorMul_bounds (length (agents p)) (elitismRate config) He0 He1).
    rewrite <- Hn. lia.
Qed.

(** One round of the loop, entered with the stop flag down. *)
Lemma Triple_generationLoop_once (n : nat) (g : Z) (first : bool) (c : EvolutionCycle) :
  fromGeneration g c ->
  Triple (fun s => Holds n g s /\ shouldStop s = false)
    (EvolutionEngine.generationLoop h config 1 first c)
    (fun c' s =>
       fromGeneration g c'
       /\ exists parents, parentsOf config n parents
                          /\ Holds (sizeAfterGeneration config n parents) (g + 1) s).
Proof.
  intros Hc s [Hs Hstop].
  cbn [EvolutionEngine.generationLoop]. unfold EvolutionEngine.enterPhase.
  unfold bind at 1, EvolutionEngine.get. cbv beta iota. rewrite Hstop.
  lazymatch goal with
  | |- exists a s', ?m s = _ /\ _ =>
      enough (Hbody : Triple (Holds n g) m
                (fun c' s =>
                   fromGeneration g c'
                   /\ exists parents,
                        parentsOf config n parents
                        /\ Holds (sizeAfterGeneration config n parents) (g + 1) s))
        by exact (Hbody s Hs)
  end.
  clear s Hs Hstop. unfold Holds.
  eapply Triple_bind; [apply Triple_share | intros c1].
  apply Triple_pure. intros ->.
  eapply Triple_bind;
    [apply (Triple_evaluatePopulation h
              (fun p => length (agents p) = n /\ population_generation p = g)
              (fun p => length (agents p) = n /\ population_generation p = g))
    | intros evaluated].
  { intros p p' Hagents Hgen [Hn Hg].
    apply (f_equal (@length _)) in Hagents. rewrite !length_map in Hagents.
    split; congruence. }
  eapply Triple_bind; [apply Triple_share | intros c2].
  apply Triple_pure. intros ->.
  eapply Triple_bind; [apply Triple_selectParents | intros parents].
  apply Triple_pure. intros Hparents.
  eapply Triple_bind; [apply Triple_share | intros c3].
  apply Triple_pure. intros ->.
  eapply Triple_bind; [apply Triple_performCrossover | intros offspring].
  apply Triple_pure. intros Hoffspring.
  eapply Triple_bind; [apply Triple_share | intros c4].
  apply Triple_pure. intros ->.
  eapply Triple_bind; [apply Triple_performMutation | intros mutated].
  apply Triple_pure. intros Hmutated.
  eapply Triple_bind; [apply Triple_share | intros c5].
  apply Triple_pure. intros ->.
  eapply Triple_bind; [apply Triple_replacePopulation_size | intros old].
  apply Triple_pure. intros [p [-> Hold]].
  replace (Nat.min (Z.to_nat (populationSize config))
             (Z.to_nat (floorMul n (elitismRate config)) + length mutated))
    with (sizeAfterGeneration config n (length parents))
    by (unfold sizeAfterGeneration; now rewrite Hmutated, Hoffspring).
  unfold Holds.
  eapply Triple_bind; [apply Triple_share | intros c6].
  apply Triple_pure. intros ->.
  eapply Triple_bind;
    [apply Triple_onTick with (V := fromGeneration g) | intros c7].
  { intros t. unfold fromGeneration. rewrite updateCycleResults_population.
    destruct first; exact Hold || exact Hc. }
  apply Triple_pure. intros Hc7.
  eapply Triple_bind; [apply Triple_share | intros c8].
  apply Triple_pure. intros ->.
  eapply Triple_bind; [apply Triple_get | intros s1].
  eapply Triple_pre with (P' := Populated _); [intros s [_ Hs]; exact Hs |].
  assert (Hdone : forall c' s,
             c' = c7 /\ Holds (sizeAfterGeneration config n (length parents)) (g + 1) s ->
             fromGeneration g c'
             /\ exists parents0,
                  parentsOf config n parents0
                  /\ Holds (sizeAfterGeneration config n parents0) (g + 1) s).
  { intros c' s [-> Hs]. split; [exact Hc7 |]. now exists (length parents). }
  destruct (EvolutionEngine.hasConverged config (history s1)).
  - eapply Triple_post; [apply Triple_ret | exact Hdone].
  - eapply Triple_bind;
      [apply Triple_unchanged; [apply Total_pollStop | apply KeepsPopulation_pollStop]
      | intros polled].
    cbn [EvolutionEngine.generationLoop].
    eapply Triple_post; [apply Triple_ret | exact Hdone].
Qed.

Lemma Triple_runEvolutionCycle_once (n : nat) (g : Z) :
  Triple (fun s => Holds n g s /\ shouldStop s = false)
    (EvolutionEngine.runEvolutionCycle h config 1)
    (fun c s =>
       fromGeneration g c
       /\ exists parents, parentsOf config n parents
                          /\ Holds (sizeAfterGeneration config n parents) (g + 1) s).
Proof.
  unfold EvolutionEngine.runEvolutionCycle.
  intros s [Hs Hstop].
  unfold bind at 1, EvolutionEngine.onTick at 1, liftGen at 1.
  destruct (EvolutionEngine.generateCycleId h (tick s)) as [cycleId t1].
  unfold bind at 1, EvolutionEngine.onTick at 1, liftGen at 1.
  cbn [tick EvolutionEngine.setTick EvolutionEngine.setArchiveTick].
  destruct (now h t1) as [start t2].
  unfold bind at 1, EvolutionEngine.get at 1.
  cbn [currentPopulation EvolutionEngine.setTick EvolutionEngine.setArchiveTick
       history].
  destruct Hs as [p [Hp [Hn Hg]]]. rewrite Hp.
  set (s0 := EvolutionEngine.setTick t2 (EvolutionEngine.setTick t1 s)).
  assert (Hs0 : Holds n g s0 /\ shouldStop s0 = false).
  { split; [exists p; now repeat split | exact Hstop]. }
  revert Hs0. generalize s0. clear s0.
  change (Triple (fun s => Holds n g s /\ shouldStop s = false)
            (tryFinally
               (c <- EvolutionEngine.share
                       {| cycle_id := cycleId;
                          cycle_generation := totalGenerations (history s) + 1;
                          startTime := start; endTime := None;
                          phase := Initialization; cycle_population := p;
                          results := {| improved := 0; degraded := 0;
                                        unchanged := 0; failed := 0;
                                        averageFitnessChange := 0 |} |} ;;
                c <- EvolutionEngine.generationLoop h config (Z.to_nat 1) true c ;;
                c <- EvolutionEngine.enterPhase Completed c ;;
                finish <- EvolutionEngine.onTick (liftGen (now h)) ;;
                EvolutionEngine.share (EvolutionEngine.withEndTime finish c))%eff
               (EvolutionEngine.setCycle None))
            (fun c s =>
               fromGeneration g c
               /\ exists parents,
                    parentsOf config n parents
                    /\ Holds (sizeAfterGeneration config n parents) (g + 1) s)).
  eapply Triple_tryFinally with
    (Q := fun c s =>
            fromGeneration g c
            /\ exists parents,
                 parentsOf config n parents
                 /\ Holds (sizeAfterGeneration config n parents) (g + 1) s).
  - eapply Triple_bind with
      (Q := fun c s => fromGeneration g c /\ Holds n g s /\ shouldStop s = false).
    { intros s1 [Hs1 Hstop1]. rewrite share_returns. eexists _, _.
      split; [reflexivity |]. split; [exact Hg |].
      split; [eapply Populated_same; [| exact Hs1]; reflexivity | exact Hstop1]. }
    intros c0. apply Triple_pure. intros Hc0.
    eapply Triple_bind;
      [apply (Triple_generationLoop_once n g true c0 Hc0) | intros c1].
    apply Triple_pure. intros Hc1.
    eapply Triple_post;
      [apply (Triple_exists
                (fun parents s =>
                   parentsOf config n parents
                   /\ Holds (sizeAfterGeneration config n parents) (g + 1) s)
                (fun parents c s =>
                   parentsOf config n parents /\ fromGeneration g c
                   /\ Holds (sizeAfterGeneration config n parents) (g + 1) s))
      | intros c' s' [parents [Hparents [Hc' Hs']]];
        split; [exact Hc' | now exists parents]].
    intros parents. apply Triple_pure. intros Hparents.
    unfold EvolutionEngine.enterPhase, Holds.
    eapply Triple_bind; [apply Triple_share | intros c2].
    apply Triple_pure. intros ->.
    eapply Triple_bind;
      [apply Triple_onTick with (V := fun _ => True); intros; exact I | intros finish].
    apply Triple_pure. intros _.
    eapply Triple_post; [apply Triple_share |].
    intros c' s' [-> Hs']. split; [exact Hparents |]. split; [exact Hc1 | exact Hs'].
  - intros c' s' [Hc' [parents [Hparents Hs']]]. split; [exact Hc' |].
    exists parents. split; [exact Hparents |].
    eapply Populated_same; [| exact Hs']. reflexivity.
Qed.

Hypothesis serialize_ok : SerializeOK h.
Hypothesis memory_ok : MemoryOK h.

(** After a replacement the engine holds a younger population than the
    cycle, and archiving the cycle's best agents leaves it alone. *)
Lemma archiveBestAgents_after_replacement (n : nat) (g : Z) (c : EvolutionCycle)
    (s : Engine) :
  fromGeneration g c -> cycleOfInstances c -> Holds n (g + 1) s ->
  exists c' s', EvolutionEngine.archiveBestAgents h c s = (Return c', s')
                /\ Holds n (g + 1) s' /\ Frame s s'.
Proof.
  intros Hc Hinstances Hs.
  destruct (Total_archiveBestAgents h serialize_ok memory_ok c Hinstances s)
    as [c' [s' Hrun]].
  exists c', s'. split; [exact Hrun |].
  split; [| exact (Framed_archiveBestAgents h c s _ s' Hrun)].
  revert Hrun. unfold EvolutionEngine.archiveBestAgents.
  unfold bind at 1, EvolutionEngine.get.
  destruct Hs as [p [Hp [Hn Hg]]]. rewrite Hp, Hg, Hc.
  replace (g + 1 =? g) with false by (symmetry; apply Z.eqb_neq; lia).
  unfold bind at 1, ret at 1. intros Hrun.
  apply bind_inv in Hrun. destruct Hrun as [[done [s1 [Harchive Hret]]] | [e [_ [=]]]].
  injection Hret as _ <-.
  exists p. split; [| now split].
  rewrite <- Hp. exact (KeepsPopulation_archiveAll h _ _ _ _ _ Harchive).
Qed.

(** [evolve(1)] on an idle engine that holds [n] class instances. *)
Lemma evolve_once (n : nat) (g : Z) (s : Engine) :
  isRunning s = false ->
  Holds n g s ->
  Populated (fun p => allInstances (agents p)) s ->
  exists cycle s' parents,
    EvolutionEngine.evolve h config 1 s = (Return cycle, s')
    /\ isRunning s' = false
    /\ cycles (history s') = cycles (history s) ++ [cycle]
    /\ parentsOf config n parents
    /\ Holds (sizeAfterGeneration config n parents) (g + 1) s'.
Proof.
  intros Hidle Hs Hinstances.
  rewrite (evolve_idle h config 1 s Hidle). unfold tryFinally.
  set (running := EvolutionEngine.setFlags true false s).
  assert (Hrunning : Holds n g running /\ shouldStop running = false).
  { split; [eapply Populated_same; [| exact Hs]; reflexivity | reflexivity]. }
  assert (Hrunning' : Populated (fun p => allInstances (agents p)) running).
  { eapply Populated_same; [| exact Hinstances]. reflexivity. }
  destruct (Triple_runEvolutionCycle_once n g running Hrunning)
    as [c [s1 [Hrun [Hc [parents [Hparents Hs1]]]]]].
  destruct (Triple_runEvolutionCycle h config host_ok 1 running Hrunning')
    as [c0 [s0 [Hrun0 [Hc0 _]]]].
  rewrite Hrun in Hrun0. injection Hrun0 as <- <-.
  destruct (archiveBestAgents_after_replacement _ g c s1 Hc Hc0 Hs1)
    as [c' [s2 [Harchive [Hs2 Hframe2]]]].
  pose proof (Framed_runEvolutionCycle h config 1 running _ s1 Hrun) as Hframe1.
  unfold EvolutionEngine.evolveBody, bind. rewrite Hrun, Harchive.
  unfold EvolutionEngine.modify, ret.
  eexists _, _, parents. split; [reflexivity |].
  split; [reflexivity |]. split; [| split; [exact Hparents |]].
  - cbn. destruct Hframe1 as [_ _ C1]. destruct Hframe2 as [_ _ C2].
    rewrite C2, C1. reflexivity.
  - eapply Populated_same; [| exact Hs2]. reflexivity.
Qed.

End GenerationFacts.

Lemma floor_window (n : nat) (rate : Q) :
  (0 <= rate)%Q -> aboutFloor n rate (Z.to_nat (floorMul n rate)).
Proof.
  intros Hrate. unfold aboutFloor, floorMul.
  set (x := (inject_Z (Z.of_nat n) * rate)%Q).
  assert (Hx : (0 <= x)%Q).
  { unfold x. assert (0 <= inject_Z (Z.of_nat n))%Q by (unfold Qle; cbn; lia). nra. }
  assert (Hfloor : 0 <= Qfloor x).
  { change 0 with (Qfloor 0). now apply Qfloor_resp_le. }
  rewrite Z2Nat.id by exact Hfloor.
  pose proof (Qfloor_le x). pose proof (Qlt_floor x) as Hlt.
  rewrite inject_Z_plus in Hlt. change (inject_Z 1) with 1%Q in Hlt.
  split; lra.
Qed.

Lemma floorMul_shares (n : nat) (x y : Q) :
  (0 < n)%nat -> (0 <= x)%Q -> (0 <= y)%Q -> (x + y < 1)%Q ->
  floorMul n x + floorMul n y < Z.of_nat n.
Proof.
  intros Hn Hx Hy Hsum. unfold floorMul.
  set (size := inject_Z (Z.of_nat n)).
  assert (Hsize : (0 < size)%Q).
  { unfold size. change 0%Q with (inject_Z 0). rewrite <- Zlt_Qlt. lia. }
  pose proof (Qfloor_le (size * x)) as Hfx.
  pose proof (Qfloor_le (size * y)) as Hfy.
  rewrite Zlt_Qlt, inject_Z_plus. fold size. nra.
Qed.

(** X27: one generation of [evolve], from start to end.  On a host with
    random numbers in [0, 1), a shuffle that permutes, agents whose
    [serialize] returns and a [process.memoryUsage()] that returns, with
    rates between 0 and 1 and [populationSize >= 0]: on an idle engine
    whose population holds [n] class instances and has generation number
    [g], [evolve(1)] returns a cycle, records it in the history and
    leaves the engine idle with a population of generation [g + 1] that
    has min(populationSize, elites + 2 x floor(parents / 2)) members.
    Here [elites] is the number of elites carried over, floor(n x
    elitismRate) up to the rounding of the product, and [parents] the
    number of parents selected, at most [n] and, unless the wheel
    selects, floor(n x crossoverRate) up to rounding.  Evaluation,
    selection, crossover, mutation and the archiving of the best agents
    add and remove no member; only Replacement sets the size. *)
Theorem evolve_one_generation (h : Host) (config : EvolutionConfig)
    (n : nat) (g : Z) (s : Engine) :
  HostOK h -> SerializeOK h -> MemoryOK h ->
  (0 <= crossoverRate config)%Q /\ (crossoverRate config <= 1)%Q ->
  (0 <= elitismRate config)%Q /\ (elitismRate config <= 1)%Q ->
  0 <= populationSize config ->
  isRunning s = false ->
  Holds n g s ->
  Populated (fun p => allInstances (agents p)) s ->
  exists (cycle : EvolutionCycle) (s' : Engine) (elites parents : nat),
    EvolutionEngine.evolve h config 1 s = (Return cycle, s')
    /\ isRunning s' = false
    /\ cycles (history s') = cycles (history s) ++ [cycle]
    /\ Holds (Nat.min (Z.to_nat (populationSize config))
                      (elites + 2 * (parents / 2)))
             (g + 1) s'
    /\ (elites <= n)%nat /\ aboutFloor n (elitismRate config) elites
    /\ (parents <= n)%nat
    /\ (selectionStrategy config <> RouletteWheel ->
        aboutFloor n (crossoverRate config) parents).
Proof.
  intros Hhost Hser Hmem Hcross Helite Htarget Hidle Hs Hinstances.
  destruct (evolve_once h config Hhost Hcross Helite Htarget Hser Hmem n g s
              Hidle Hs Hinstances)
    as [cycle [s' [parents [Hrun [Hflag [Hcycles [[Hmost Hexact] Hafter]]]]]]].
  destruct Hcross as [Hc0 Hc1]. destruct Helite as [He0 He1].
  pose proof (floorMul_bounds n (crossoverRate config) Hc0 Hc1) as Hcb.
  pose proof (floorMul_bounds n (elitismRate config) He0 He1) as Heb.
  exists cycle, s', (Z.to_nat (floorMul n (elitismRate config))), parents.
  split; [exact Hrun |]. split; [exact Hflag |]. split; [exact Hcycles |].
  split; [exact Hafter |]. split; [lia |].
  split; [now apply floor_window |]. split; [lia |].
  intros Hstrategy. rewrite (Hexact Hstrategy). now apply floor_window.
Qed.

Lemma evolve_one_generation_witness :
  exists (cycle : EvolutionCycle) (s' : Engine) (elites parents : nat),
    EvolutionEngine.evolve exampleHost exampleConfig 1 exampleEngine
    = (Return cycle, s')
    /\ isRunning s' = false
    /\ Holds (Nat.min 10 (elites + 2 * (parents / 2))) 1 s'
    /\ (elites <= 10)%nat /\ (parents <= 10)%nat.
Proof.
  destruct (evolve_one_generation exampleHost exampleConfig 10 0 exampleEngine)
    as [cycle [s' [elites [parents [Hrun [Hflag [_ [Hafter [He [_ [Hp _]]]]]]]]]]].
  - apply exampleHost_ok.
  - apply exampleHost_serializes.
  - apply exampleHost_memory.
  - split; vm_compute; discriminate.
  - split; vm_compute; discriminate.
  - vm_compute. discriminate.
  - vm_compute. reflexivity.
  - apply Holds_by_size; vm_compute; reflexivity.
  - apply instances_by_check. vm_compute. reflexivity.
  - exists cycle, s', elites, parents. repeat split; assumption.
Defined.

(** X28: with the default rates a generation shrinks the population.
    Under the assumptions of X27 on the host, with elitismRate 0.1,
    crossoverRate 0.7 and [populationSize >= 0], [evolve(1)] on an idle
    engine whose population holds [n > 0] class instances returns and
    leaves a population of the next generation with fewer than [n]
    members. *)
Theorem evolve_one_generation_shrinks (h : Host) (config : EvolutionConfig)
    (n : nat) (g : Z) (s : Engine) :
  HostOK h -> SerializeOK h -> MemoryOK h ->
  (elitismRate config == 1 # 10)%Q ->
  (crossoverRate config == 7 # 10)%Q ->
  0 <= populationSize config ->
  isRunning s = false ->
  (0 < n)%nat ->
  Holds n g s ->
  Populated (fun p => allInstances (agents p)) s ->
  exists (cycle : EvolutionCycle) (s' : Engine) (n' : nat),
    EvolutionEngine.evolve h config 1 s = (Return cycle, s')
    /\ Holds n' (g + 1) s'
    /\ (n' < n)%nat.
Proof.
  intros Hhost Hser Hmem Helite Hcross Htarget Hidle Hn Hs Hinstances.
  assert (Hc : (0 <= crossoverRate config)%Q /\ (crossoverRate config <= 1)%Q)
    by (rewrite Hcross; split; lra).
  assert (He : (0 <= elitismRate config)%Q /\ (elitismRate config <= 1)%Q)
    by (rewrite Helite; split; lra).
  destruct (evolve_once h config Hhost Hc He Htarget Hser Hmem n g s
              Hidle Hs Hinstances)
    as [cycle [s' [parents [Hrun [_ [_ [[Hmost _] Hafter]]]]]]].
  exists cycle, s', (sizeAfterGeneration config n parents).
  split; [exact Hrun |]. split; [exact Hafter |].
  unfold sizeAfterGeneration. cbv zeta.
  pose proof (floorMul_shares n (elitismRate config) (crossoverRate config) Hn
                (proj1 He) (proj1 Hc)) as Hshares.
  pose proof (floorMul_bounds n (elitismRate config) (proj1 He) (proj2 He)).
  pose proof (floorMul_bounds n (crossoverRate config) (proj1 Hc) (proj2 Hc)).
  pose proof (Nat.div_mod_eq parents 2) as Hhalf.
  assert (floorMul n (elitismRate config) + floorMul n (crossoverRate config)
          < Z.of_nat n) by (apply Hshares; rewrite Helite, Hcross; reflexivity).
  lia.
Qed.

Lemma evolve_one_generation_shrinks_witness :
  exists (cycle : EvolutionCycle) (s' : Engine) (n' : nat),
    EvolutionEngine.evolve exampleHost exampleConfig 1 exampleEngine
    = (Return cycle, s')
    /\ Holds n' 1 s'
    /\ (n' < 10)%nat.
Proof.
  apply (evolve_one_generation_shrinks exampleHost exampleConfig 10 0 exampleEngine).
  - apply exampleHost_ok.
  - apply exampleHost_serializes.
  - apply exampleHost_memory.
  - reflexivity.
  - reflexivity.
  - vm_compute. discriminate.
  - vm_compute. reflexivity.
  - lia.
  - apply Holds_by_size; vm_compute; reflexivity.
  - apply instances_by_check. vm_compute. reflexivity.
Defined.
